(** * Digital Signage: asset acquisition and playlist cycling

    A shallow embedding of the asset downloader ([utils/assetDownloader.ts]),
    the date helpers ([utils/dateUtils.ts]), the manifest types
    ([utils/getInstructions.ts]) and the initializer
    ([utils/initialization.ts]), followed by the properties the design
    document states about them.

    Conventions of the embedding.
    - A JavaScript string is a sequence of UTF-16 code units.  The model uses
      [string]; a character stands for the code unit of the same number, so
      the model covers the strings whose code units are below 256.
    - A JavaScript number that the program obtains from [parseInt] and from
      sums and differences of such values is either [NaN] or an integer.  The
      model uses [Z] for the integers: arithmetic is exact, which is what
      doubles give within the safe-integer range.
    - [undefined] and [null] in an optional field are [None].
    - Effects (network, file system, timers, console, progress callbacks) are
      threaded through a small monad over an abstract platform. *)

From Stdlib Require Import ZArith List String Ascii Bool Lia Arith.
From Stdlib Require Import Sorted Permutation DecimalString.
Import ListNotations.

Local Open Scope string_scope.
Local Open Scope Z_scope.

(* ================================================================== *)
(** ** Strings *)

Module Str.

  (** [s.startsWith(p)] *)
Fixpoint startsWith (s p : string) {struct p} : bool :=
    match p, s with
    | EmptyString, _ => true
    | String c p', String d s' => Ascii.eqb c d && startsWith s' p'
    | String _ _, EmptyString => false
    end.

  (** [s.includes(sub)] *)
Fixpoint includes (s sub : string) : bool :=
    startsWith s sub ||
    match s with
    | EmptyString => false
    | String _ s' => includes s' sub
    end.

  (** [s.endsWith(suffix)] *)
Definition endsWith (s suffix : string) : bool :=
    let n := String.length s in
    let k := String.length suffix in
    Nat.leb k n && String.eqb (String.substring (n - k) k s) suffix.

  (** [s.split(sep)] for a one-character separator, accumulating the
      current segment in [cur]. *)
Fixpoint split_from (sep : ascii) (cur : string) (s : string) : list string :=
    match s with
    | EmptyString => [cur]
    | String c s' =>
        if Ascii.eqb c sep
        then cur :: split_from sep EmptyString s'
        else split_from sep (cur ++ String c EmptyString) s'
    end.

Definition split (s : string) (sep : ascii) : list string :=
    split_from sep EmptyString s.

Fixpoint map (f : ascii -> ascii) (s : string) : string :=
    match s with
    | EmptyString => EmptyString
    | String c s' => String (f c) (map f s')
    end.

Fixpoint filter (f : ascii -> bool) (s : string) : string :=
    match s with
    | EmptyString => EmptyString
    | String c s' => if f c then String c (filter f s') else filter f s'
    end.

Fixpoint forallb (f : ascii -> bool) (s : string) : bool :=
    match s with
    | EmptyString => true
    | String c s' => f c && forallb f s'
    end.

Definition between (lo hi : nat) (c : ascii) : bool :=
    (Nat.leb lo (nat_of_ascii c) && Nat.leb (nat_of_ascii c) hi)%bool.

Definition is_digit (c : ascii) : bool := between 48 57 c.
Definition is_upper (c : ascii) : bool := between 65 90 c.
Definition is_lower (c : ascii) : bool := between 97 122 c.

  (** [c.toLowerCase()] on the code units below 256: A-Z, and the
      upper-case letters of the Latin-1 supplement (all but the
      multiplication sign at 215). *)
Definition lower_char (c : ascii) : ascii :=
    let n := nat_of_ascii c in
    if is_upper c then ascii_of_nat (n + 32)
    else if (between 192 222 c && negb (Nat.eqb n 215))%bool
         then ascii_of_nat (n + 32)
         else c.

  (** [s.toLowerCase()] *)
Definition toLowerCase (s : string) : string := map lower_char s.

  (** JavaScript truthiness of a string: every string but the empty one. *)
Definition truthy (s : string) : bool :=
    match s with EmptyString => false | _ => true end.

  (** [String(n)] for an integer. *)
Definition of_Z (z : Z) : string := NilZero.string_of_int (Z.to_int z).
Definition of_nat (n : nat) : string := NilZero.string_of_uint (Nat.to_uint n).

End Str.

(* ================================================================== *)
(** ** Numbers *)

Inductive number : Type :=
| NaN
| Num (z : Z).

(** [Num z] is the number [z] of the program as long as [z] is an integer
    of at most 2^53 - 1 in absolute value; the operations below are exact,
    and they are the program's on operands and results within that range.
    Beyond it the program rounds to the nearest double and overflows to
    [Infinity]. *)

Module Number.

  (** [a - b] *)
Definition sub (a b : number) : number :=
    match a, b with
    | Num x, Num y => Num (x - y)
    | _, _ => NaN
    end.

  (** [a + b] *)
Definition add (a b : number) : number :=
    match a, b with
    | Num x, Num y => Num (x + y)
    | _, _ => NaN
    end.

  (** [a <= b]; every comparison with [NaN] is false. *)
Definition le (a b : number) : bool :=
    match a, b with
    | Num x, Num y => x <=? y
    | _, _ => false
    end.

  (** [a < b] *)
Definition lt (a b : number) : bool :=
    match a, b with
    | Num x, Num y => x <? y
    | _, _ => false
    end.

  (** [a > b] *)
Definition gt (a b : number) : bool := lt b a.


Definition is_integer (a : number) : Prop := exists z, a = Num z.

End Number.

(** White space that [parseInt] skips (StrWhiteSpaceChar): TAB, LF, VT, FF,
    CR, SP and NBSP among the code units below 256. *)
Definition is_whitespace (c : ascii) : bool :=
  let n := nat_of_ascii c in
  (Nat.eqb n 9 || Nat.eqb n 10 || Nat.eqb n 11 || Nat.eqb n 12
   || Nat.eqb n 13 || Nat.eqb n 32 || Nat.eqb n 160)%bool.

Fixpoint trimStart (s : string) : string :=
  match s with
  | String c s' => if is_whitespace c then trimStart s' else s
  | EmptyString => EmptyString
  end.

Definition digit_value (c : ascii) : Z := Z.of_nat (nat_of_ascii c) - 48.

(** The longest prefix of decimal digits of [s], read left to right with
    [acc] the value read so far; [seen] tells whether a digit was read. *)
Fixpoint read_digits (s : string) (seen : bool) (acc : Z) : option Z :=
  match s with
  | String c s' =>
      if Str.is_digit c then read_digits s' true (10 * acc + digit_value c)
      else if seen then Some acc else None
  | EmptyString => if seen then Some acc else None
  end.

(** The sign of [parseInt]: a leading [-] or [+] is consumed. *)
Definition strip_sign (s : string) : Z * string :=
  match s with
  | String c r =>
      if Ascii.eqb c "-" then (-1, r)
      else if Ascii.eqb c "+" then (1, r)
      else (1, s)
  | EmptyString => (1, s)
  end.

(** [parseInt(s, 10)]: skip leading white space, take an optional sign, read
    the longest run of decimal digits; [NaN] when there is none.  With radix
    10 no [0x] prefix is stripped.  The value is the integer that the
    digits name: the program's for a run of at most 15 digits; the program
    rounds a longer run to the nearest number, which is never [NaN]. *)
Definition parseInt (s : string) : number :=
  let '(sign, digits) := strip_sign (trimStart s) in
  match read_digits digits false 0 with
  | Some v => Num (sign * v)
  | None => NaN
  end.

(* ================================================================== *)
(** ** The manifest ([utils/getInstructions.ts]) *)

Module Asset.
Record t : Type := mk {
    id : string;
    name : string;
    filepath : string;
    filetype : string;
    playing_order : string;
    time : string;
  }.
End Asset.

Module Playlist.
Record t : Type := mk {
    id : string;
    name : string;
    starttime : option string;
    endtime : option string;
    startdate : option string;
    enddate : option string;
    weekdays : option string;
    is_default : bool;
    assets : list Asset.t;
  }.
End Playlist.

Module Functions.
Record t : Type := mk { is_restarting : bool }.
End Functions.

Module ApiResponse.
Record t : Type := mk {
    functions : Functions.t;
    playlists : list Playlist.t;
  }.
End ApiResponse.

(** The asset part of [isValidApiResponse]: six truthy fields. *)
Definition isValidAsset (a : Asset.t) : bool :=
  (Str.truthy (Asset.id a) && Str.truthy (Asset.name a)
   && Str.truthy (Asset.filepath a) && Str.truthy (Asset.filetype a)
   && Str.truthy (Asset.playing_order a) && Str.truthy (Asset.time a))%bool.

(** [isValidApiResponse] on a response that already has the declared
    shape: every playlist has a truthy id and name and valid assets.  The
    checks of the types ([typeof], [Array.isArray]) hold of such a
    response; a body of another shape is outside [ApiResponse.t], and the
    check can throw on it (a playlist or an asset that is [null]). *)
Definition isValidApiResponse (data : ApiResponse.t) : bool :=
  List.forallb
    (fun playlist =>
       (Str.truthy (Playlist.id playlist) && Str.truthy (Playlist.name playlist)
        && List.forallb isValidAsset (Playlist.assets playlist))%bool)
    (ApiResponse.playlists data).

(* ================================================================== *)
(** ** Records of [utils/assetDownloader.ts] *)

Module WebviewAsset.
Record t : Type := mk {
    id : string;
    name : string;
    filetype : string;
    playing_order : number;
    displayTime : number;
    (** [undefined] when a successful result carries no [localPath]: the
        [!] of [r.localPath!] is erased at run time. *)
    displayPath : option string;
    isStream : bool;
    originalPath : string;
  }.
End WebviewAsset.

Module PlaylistCycle.
Record t : Type := mk {
    playlistId : string;
    playlistName : string;
    assets : list WebviewAsset.t;
    totalCycleDuration : number;
    isDefault : bool;
    startDate : option string;
    endDate : option string;
  }.
End PlaylistCycle.

Module DownloadResult.
Record t : Type := mk {
    asset : Asset.t;
    success : bool;
    error : option string;
    localPath : option string;
  }.
End DownloadResult.

Inductive progress_status : Type := downloading | completed | failed.

Module DownloadProgress.
Record t : Type := mk {
    current : Z;
    total : Z;
    asset : Asset.t;
    status : progress_status;
  }.
End DownloadProgress.

(** [Array.prototype.sort(compare)].  The language fixes the result for a
    consistent comparator: the stable sorted permutation.  The model is the
    insertion sort that puts each element, taken left to right, behind
    every element it does not precede; a comparator result of [NaN] counts
    as [+0] (SortCompare). *)
Section ArraySort.
Context {A : Type}.
Variable compare : A -> A -> number.

Definition precedes (a b : A) : bool := Number.lt (compare a b) (Num 0).

Fixpoint insert (x : A) (l : list A) : list A :=
    match l with
    | [] => [x]
    | y :: l' => if precedes x y then x :: y :: l' else y :: insert x l'
    end.

Definition sort (l : list A) : list A :=
    List.fold_left (fun acc x => insert x acc) l [].
End ArraySort.

(** [l.filter(x => x !== null)] on a list of possibly-null values. *)
Fixpoint filter_non_null {A : Type} (l : list (option A)) : list A :=
  match l with
  | [] => []
  | Some x :: l' => x :: filter_non_null l'
  | None :: l' => filter_non_null l'
  end.


(* ================================================================== *)
(** ** Effects *)

(** A thrown value: an [Error] object (a [TypeError] is one too) with its
    message, or any other value. *)
Inductive thrown : Type :=
| ErrorObject (isTypeError : bool) (message : string)
| OtherValue.

(** [new Error(message)] *)
Definition Error (message : string) : thrown := ErrorObject false message.

(** [String(error)], as a template literal interpolates a caught value. *)
Definition thrown_text (error : thrown) : string :=
  match error with
  | ErrorObject false message => "Error: " ++ message
  | ErrorObject true message => "TypeError: " ++ message
  | OtherValue => ""
  end.

(** [error instanceof Error ? error.message : fallback] *)
Definition message_or (fallback : string) (error : thrown) : string :=
  match error with
  | ErrorObject _ message => message
  | OtherValue => fallback
  end.

Inductive outcome (A : Type) : Type :=
| Return (a : A)
| Throw (e : thrown).
Arguments Return {A} a.
Arguments Throw {A} e.

Inductive http_method : Type := GET | HEAD.

(** What the program reads of a [fetch] response. *)
Module Response.
Record t : Type := mk {
  ok : bool;
  status : Z;
  statusText : string;
  arrayBuffer : outcome (list Byte.byte);
  json : outcome ApiResponse.t;
}.
End Response.

Inductive console_level : Type := level_log | level_warn | level_error.

Inductive init_stage : Type :=
| clearing | device_info | api_fetch | stage_downloading | complete.

(** The initializer's progress record (interface [ProgressCallback]). *)
Module InitProgress.
Record t : Type := mk {
  stage : init_stage;
  message : string;
  progress : option Z;
  current : option Z;
  total : option Z;
}.
End InitProgress.

(** What a progress callback is told. *)
Inductive notification : Type :=
| DownloadNotified (p : DownloadProgress.t)
| InitNotified (p : InitProgress.t).

(** What a run leaves behind, in order: console calls (recorded with a tag
    naming the call and the values it interpolates), requests sent, timers
    waited for, files written, directories made, and what the progress
    callbacks were told. *)
Inductive event : Type :=
| Console (level : console_level) (tag : string) (args : list string)
| Fetched (url : string) (method : http_method)
| Slept (ms : Z)
| Wrote (path : string) (data : list Byte.byte)
| MadeDirectory (path : string)
| Notified (n : notification).

(** The world outside the program. *)
Class Platform : Type := {
  world : Type;
  (** [fetch(url, { method })] *)
  fetch : string -> http_method -> world -> world * outcome Response.t;
  fs_existsSync : string -> world -> bool;
  fs_mkdirSync : string -> world -> world * outcome unit;
  fs_writeFileSync : string -> list Byte.byte -> world -> world * outcome unit;
  (** [path.join(a, b)] *)
  path_join : string -> string -> string;
  (** [new URL(s).pathname]; the constructor throws on an invalid URL. *)
  URL_pathname : string -> outcome string;
  (** [JSON.stringify(manifest, null, 2)] of [createWebviewManifest]. *)
  manifest_json :
    list DownloadResult.t -> list PlaylistCycle.t -> list WebviewAsset.t ->
    world -> list Byte.byte;
  (** [DeviceInfo.getDeviceName()] *)
  DeviceInfo_getDeviceName : world -> world * outcome string;
  (** The directory sweep of [clearAssetsDirectory]. *)
  clear_directory : string -> world -> world * outcome unit;
  (** [Date.now()], and the time value of [new Date()]. *)
  Date_now : world -> Z;
  (** The time value of [new Date(s)]; [NaN] for an invalid date. *)
  Date_parse : string -> number;
}.

Module Run.
Record t (W A : Type) : Type := mk {
  final : W;
  trace : list event;
  result : outcome A;
}.
Arguments mk {W A} _ _ _.
Arguments final {W A} _.
Arguments trace {W A} _.
Arguments result {W A} _.
End Run.

Section Monad.
Context {P : Platform}.

Definition M (A : Type) : Type := world -> Run.t world A.

Definition ret {A} (a : A) : M A :=
  fun w => Run.mk w [] (Return a).

Definition bind {A B} (m : M A) (f : A -> M B) : M B :=
  fun w =>
    let r := m w in
    match Run.result r with
    | Return a =>
        let r' := f a (Run.final r) in
        Run.mk (Run.final r') (Run.trace r ++ Run.trace r') (Run.result r')
    | Throw e => Run.mk (Run.final r) (Run.trace r) (Throw e)
    end.

Definition throw {A} (e : thrown) : M A :=
  fun w => Run.mk w [] (Throw e).

(** [try { m } catch (error) { handler error }] *)
Definition try_catch {A} (m : M A) (handler : thrown -> M A) : M A :=
  fun w =>
    let r := m w in
    match Run.result r with
    | Return a => r
    | Throw e =>
        let r' := handler e (Run.final r) in
        Run.mk (Run.final r') (Run.trace r ++ Run.trace r') (Run.result r')
    end.

Definition emit (ev : event) : M unit :=
  fun w => Run.mk w [ev] (Return tt).

Definition emit_all (evs : list event) : M unit :=
  fun w => Run.mk w evs (Return tt).

(** An external call: the platform's answer, and the events it leaves
    given that answer. *)
Definition call {A} (record : outcome A -> list event)
    (op : world -> world * outcome A) : M A :=
  fun w =>
    let '(w', o) := op w in
    Run.mk w' (record o) o.

Definition always {A} (ev : event) : outcome A -> list event :=
  fun _ => [ev].

Definition on_return {A} (ev : event) : outcome A -> list event :=
  fun o => match o with Return _ => [ev] | Throw _ => [] end.

Definition silent {A} : outcome A -> list event :=
  fun _ => [].

Definition of_outcome {A} (o : outcome A) : M A :=
  fun w => Run.mk w [] o.

Definition read {A} (f : world -> A) : M A :=
  fun w => Run.mk w [] (Return (f w)).

End Monad.

Declare Scope monad_scope.
Delimit Scope monad_scope with monad.
Notation "x <- m ;; k" := (bind m (fun x => k))
  (at level 61, m at next level, right associativity) : monad_scope.
Notation "m ;; k" := (bind m (fun _ => k))
  (at level 61, right associativity) : monad_scope.
Local Open Scope monad_scope.

(** An optional callback is an observer: called, it passes on what it is
    told, in its own words, and returns.  [cb?.(x)] *)
Definition callback (A : Type) : Type := option (A -> list notification).

Definition invoke {P : Platform} {A} (cb : callback A) (x : A) : M unit :=
  match cb with
  | Some f => emit_all (List.map Notified (f x))
  | None => ret tt
  end.

(** [console.log], [console.warn], [console.error] *)
Definition console {P : Platform} (level : console_level) (tag : string)
    (args : list string) : M unit :=
  emit (Console level tag args).

(** [await new Promise((resolve) => setTimeout(resolve, ms))] *)
Definition sleep {P : Platform} (ms : Z) : M unit := emit (Slept ms).

(* ================================================================== *)
(** ** [class AssetDownloader] *)

Module AssetDownloader.

(** The test the downloader writes out wherever it tells streams from
    files: [asset.filetype === "stream" || asset.filepath.includes(".m3u8")]. *)
Definition isStream (asset : Asset.t) : bool :=
  String.eqb (Asset.filetype asset) "stream"
  || Str.includes (Asset.filepath asset) ".m3u8".

(** The complementary test:
    [asset.filetype !== "stream" && !asset.filepath.includes(".m3u8")]. *)
Definition isDownloadable (asset : Asset.t) : bool :=
  negb (String.eqb (Asset.filetype asset) "stream")
  && negb (Str.includes (Asset.filepath asset) ".m3u8").

(** The table of [getExtensionFromFiletype]. *)
Definition extensions : list (string * string) :=
  [ ("stream", ".m3u8"); ("video", ".mp4"); ("audio", ".mp3");
    ("image", ".jpg"); ("text", ".txt") ].

Fixpoint lookup (key : string) (table : list (string * string)) : option string :=
  match table with
  | [] => None
  | (k, v) :: rest => if String.eqb k key then Some v else lookup key rest
  end.

(** The table is an object literal, so a lookup also finds what every
    object inherits.  Two inherited names are their own lower case:
    [constructor] (the function [Object]) and [__proto__] (the prototype
    object).  Both are truthy, and [filename += extension] appends their
    text, given here as V8 and Hermes print it. *)
Definition inherited (key : string) : option string :=
  if String.eqb key "constructor" then Some "function Object() { [native code] }"
  else if String.eqb key "__proto__" then Some "[object Object]"
  else None.

(** [extensions[filetype.toLowerCase()] || ".bin"] *)
Definition getExtensionFromFiletype (filetype : string) : string :=
  let key := Str.toLowerCase filetype in
  match lookup key extensions with
  | Some extension => extension
  | None =>
      match inherited key with
      | Some text => text
      | None => ".bin"
      end
  end.

(** The character class [a-zA-Z0-9.-]. *)
Definition safe_char (c : ascii) : bool :=
  Str.is_lower c || Str.is_upper c || Str.is_digit c
  || Ascii.eqb c "." || Ascii.eqb c "-".

(** [filename.replace(/[^a-zA-Z0-9.-]/g, "_")] *)
Definition clean (filename : string) : string :=
  Str.map (fun c => if safe_char c then c else "_"%char) filename.

Section WithPlatform.
Context {P : Platform}.
Variable assetsDir : string.

Definition ensureDirectoryExists : M unit :=
  exists_ <- read (fs_existsSync assetsDir) ;;
  if negb exists_ then
    call (on_return (MadeDirectory assetsDir)) (fs_mkdirSync assetsDir) ;;
    console level_log "Created directory" [assetsDir]
  else ret tt.

Definition generateSafeFilename (asset : Asset.t) : outcome string :=
  let filename := Asset.name asset in
  let from_url :=
    if Str.startsWith (Asset.filepath asset) "http" then
      match URL_pathname (Asset.filepath asset) with
      | Throw e => Throw e
      | Return pathname =>
          let pathParts := Str.split pathname "/" in
          let urlFilename := List.last pathParts "" in
          if Str.truthy urlFilename && Str.includes urlFilename "."
          then Return urlFilename
          else Return filename
      end
    else Return filename in
  match from_url with
  | Throw e => Throw e
  | Return filename =>
      let filename := clean filename in
      let filename :=
        if negb (Str.includes filename ".")
        then filename ++ getExtensionFromFiletype (Asset.filetype asset)
        else filename in
      Return (Asset.id asset ++ "_" ++ filename)
  end.

Definition attempt_suffix (attempt retries : nat) : list string :=
  if Nat.ltb 1 attempt then [Str.of_nat attempt; Str.of_nat retries] else [].

(** The body of the [try] block of [downloadAsset], for one attempt. *)
Definition downloadAsset_try (asset : Asset.t) (attempt retries : nat)
    (onProgress : callback DownloadProgress.t) : M DownloadResult.t :=
  console level_log "Processing asset"
    (Asset.name asset :: Asset.id asset :: attempt_suffix attempt retries) ;;
  invoke onProgress (DownloadProgress.mk 0 0 asset downloading) ;;
  if isStream asset then
    console level_log "Stream asset kept as URL" [Asset.name asset] ;;
    try_catch
      (response <- call (always (Fetched (Asset.filepath asset) HEAD))
                        (fetch (Asset.filepath asset) HEAD) ;;
       if negb (Response.ok response)
       then throw (Error ("Stream not accessible: "
                          ++ Str.of_Z (Response.status response)))
       else ret tt)
      (fun error =>
         console level_warn "Stream validation failed"
           [Asset.name asset; thrown_text error]) ;;
    invoke onProgress (DownloadProgress.mk 1 1 asset completed) ;;
    ret (DownloadResult.mk asset true None (Some (Asset.filepath asset)))
  else
    response <- call (always (Fetched (Asset.filepath asset) GET))
                     (fetch (Asset.filepath asset) GET) ;;
    (if negb (Response.ok response)
     then throw (Error ("HTTP error! status: "
                        ++ Str.of_Z (Response.status response)))
     else ret tt) ;;
    filename <- of_outcome (generateSafeFilename asset) ;;
    let localPath := path_join assetsDir filename in
    buffer <- of_outcome (Response.arrayBuffer response) ;;
    call (on_return (Wrote localPath buffer))
         (fs_writeFileSync localPath buffer) ;;
    console level_log "Downloaded" [filename] ;;
    invoke onProgress (DownloadProgress.mk 1 1 asset completed) ;;
    ret (DownloadResult.mk asset true None (Some localPath)).

(** The [catch] block of [downloadAsset]: [Some result] when it returns
    from the function, [None] when the loop goes on. *)
Definition downloadAsset_catch (asset : Asset.t) (attempt retries : nat)
    (onProgress : callback DownloadProgress.t) (error : thrown)
  : M (option DownloadResult.t) :=
  let errorMessage := message_or "Unknown error" error in
  if Nat.eqb attempt retries then
    console level_error "Failed to process"
      [Asset.name asset; Str.of_nat retries; errorMessage] ;;
    invoke onProgress (DownloadProgress.mk 0 0 asset failed) ;;
    ret (Some (DownloadResult.mk asset false (Some errorMessage) None))
  else
    console level_warn "Attempt failed"
      [Str.of_nat attempt; Asset.name asset; errorMessage] ;;
    sleep (2 ^ Z.of_nat attempt * 1000) ;;
    ret None.

(** [for (let attempt = 1; attempt <= retries; attempt++) { ... }] and the
    return behind it.  [remaining] is [retries + 1 - attempt], the number of
    iterations the loop condition still admits. *)
Fixpoint downloadAsset_loop (asset : Asset.t) (retries : nat)
    (onProgress : callback DownloadProgress.t)
    (remaining attempt : nat) : M DownloadResult.t :=
  match remaining with
  | O =>
      ret (DownloadResult.mk asset false
             (Some "Unexpected error in retry loop") None)
  | S remaining' =>
      returned <-
        try_catch
          (result <- downloadAsset_try asset attempt retries onProgress ;;
           ret (Some result))
          (downloadAsset_catch asset attempt retries onProgress) ;;
      match returned with
      | Some result => ret result
      | None =>
          downloadAsset_loop asset retries onProgress remaining' (S attempt)
      end
  end.

(** [retries] is a count, a whole number; every caller passes 3. *)
Definition downloadAsset (asset : Asset.t) (retries : nat)
    (onProgress : callback DownloadProgress.t) : M DownloadResult.t :=
  downloadAsset_loop asset retries onProgress retries 1.

(** The loop of [downloadAllAssets] over [allAssets], pushing onto
    [results]. *)
Fixpoint downloadAllAssets_loop (allAssets : list Asset.t)
    (onProgress : callback DownloadProgress.t)
    (results : list DownloadResult.t) : M (list DownloadResult.t) :=
  match allAssets with
  | [] => ret results
  | asset :: rest =>
      result <- downloadAsset asset 3 onProgress ;;
      let results := (results ++ [result])%list in
      (if isDownloadable asset then sleep 100 else ret tt) ;;
      downloadAllAssets_loop rest onProgress results
  end.

Definition count {A} (f : A -> bool) (l : list A) : nat :=
  List.length (List.filter f l).

Definition downloadAllAssets (apiResponse : ApiResponse.t)
    (onProgress : callback DownloadProgress.t) : M (list DownloadResult.t) :=
  ensureDirectoryExists ;;
  let allAssets :=
    List.flat_map Playlist.assets (ApiResponse.playlists apiResponse) in
  let streamAssets := List.filter isStream allAssets in
  let downloadableAssets := List.filter isDownloadable allAssets in
  console level_log "Processing assets" [Str.of_nat (List.length allAssets)] ;;
  console level_log "streams (keeping as URLs)"
    [Str.of_nat (List.length streamAssets)] ;;
  console level_log "files (downloading)"
    [Str.of_nat (List.length downloadableAssets)] ;;
  results <- downloadAllAssets_loop allAssets onProgress [] ;;
  let failed_ := count (fun r => negb (DownloadResult.success r)) results in
  let streamsKept :=
    count (fun r => DownloadResult.success r
                    && isStream (DownloadResult.asset r)) results in
  let filesDownloaded :=
    count (fun r => DownloadResult.success r
                    && isDownloadable (DownloadResult.asset r)) results in
  console level_log "Processing complete" [] ;;
  console level_log "streams kept as URLs" [Str.of_nat streamsKept] ;;
  console level_log "files downloaded" [Str.of_nat filesDownloaded] ;;
  console level_log "failed" [Str.of_nat failed_] ;;
  (if Nat.ltb 0 failed_ then
     emit_all
       (Console level_log "Failed assets" [] ::
        List.map
          (fun r => Console level_log "Failed asset"
                      [Asset.name (DownloadResult.asset r);
                       match DownloadResult.error r with
                       | Some e => e | None => "undefined" end])
          (List.filter (fun r => negb (DownloadResult.success r)) results))
   else ret tt) ;;
  ret results.

End WithPlatform.

(** The comparator of both sorts: [(a, b) => a.playing_order - b.playing_order]. *)
Definition by_playing_order (a b : WebviewAsset.t) : number :=
  Number.sub (WebviewAsset.playing_order a) (WebviewAsset.playing_order b).

Definition prepareAssetsForWebview (results : list DownloadResult.t)
  : list WebviewAsset.t :=
  sort by_playing_order
    (List.map
       (fun r =>
          let asset := DownloadResult.asset r in
          let isStream := isStream asset in
          WebviewAsset.mk
            (Asset.id asset) (Asset.name asset) (Asset.filetype asset)
            (parseInt (Asset.playing_order asset))
            (parseInt (Asset.time asset))
            (if isStream then Some (Asset.filepath asset)
             else DownloadResult.localPath r)
            isStream
            (Asset.filepath asset))
       (List.filter DownloadResult.success results)).

(** The callback mapped over [playlist.assets]: the presentation-ready
    asset, or [null] when no successful result carries its id. *)
Definition toWebviewAsset (results : list DownloadResult.t) (asset : Asset.t)
  : option WebviewAsset.t :=
  match List.find
          (fun r => String.eqb (Asset.id (DownloadResult.asset r)) (Asset.id asset)
                    && DownloadResult.success r) results with
  | None => None
  | Some result =>
      let isStream := isStream asset in
      Some (WebviewAsset.mk
              (Asset.id asset) (Asset.name asset) (Asset.filetype asset)
              (parseInt (Asset.playing_order asset))
              (parseInt (Asset.time asset))
              (if isStream then Some (Asset.filepath asset)
               else DownloadResult.localPath result)
              isStream
              (Asset.filepath asset))
  end.

(** The callback mapped over [apiResponse.playlists]. *)
Definition toPlaylistCycle (results : list DownloadResult.t)
    (playlist : Playlist.t) : PlaylistCycle.t :=
  let playlistAssets :=
    sort by_playing_order
      (filter_non_null
         (List.map (toWebviewAsset results) (Playlist.assets playlist))) in
  let totalCycleDuration :=
    List.fold_left
      (fun sum asset => Number.add sum (WebviewAsset.displayTime asset))
      playlistAssets (Num 0) in
  PlaylistCycle.mk
    (Playlist.id playlist) (Playlist.name playlist)
    playlistAssets totalCycleDuration
    (Playlist.is_default playlist)
    (Playlist.startdate playlist) (Playlist.enddate playlist).

Definition preparePlaylistsForCycling (apiResponse : ApiResponse.t)
    (results : list DownloadResult.t) : list PlaylistCycle.t :=
  List.filter
    (fun playlist => Nat.ltb 0 (List.length (PlaylistCycle.assets playlist)))
    (List.map (toPlaylistCycle results) (ApiResponse.playlists apiResponse)).

End AssetDownloader.

(* ------------------------------------------------------------------ *)
(** *** The rest of [utils/assetDownloader.ts] *)

Section DownloadAssets.
Context {P : Platform}.

(** [String(n)] for a number of the program. *)
Definition number_text (n : number) : string :=
  match n with
  | NaN => "NaN"
  | Num z => Str.of_Z z
  end.

(** The console lines of [createWebviewManifest] for one playlist. *)
Definition cycle_summary (playlist : PlaylistCycle.t) : list event :=
  [ Console level_log "Playlist"
      [PlaylistCycle.playlistName playlist;
       (if PlaylistCycle.isDefault playlist then "DEFAULT" else "CUSTOM")];
    Console level_log "assets"
      [Str.of_nat (List.length (PlaylistCycle.assets playlist))];
    Console level_log "total cycle time"
      [number_text (PlaylistCycle.totalCycleDuration playlist)] ]
  ++ match PlaylistCycle.startDate playlist with
     | Some d => if Str.truthy d then [Console level_log "Start Date" [d]] else []
     | None => []
     end
  ++ match PlaylistCycle.endDate playlist with
     | Some d => if Str.truthy d then [Console level_log "End Date" [d]] else []
     | None => []
     end
  ++ List.map
       (fun asset =>
          Console level_log "asset"
            [WebviewAsset.name asset;
             number_text (WebviewAsset.displayTime asset)])
       (PlaylistCycle.assets playlist).

Definition createWebviewManifest (assetsDir : string)
    (apiResponse : ApiResponse.t) (results : list DownloadResult.t) : M unit :=
  let playlistCycles :=
    AssetDownloader.preparePlaylistsForCycling apiResponse results in
  let allAssets := AssetDownloader.prepareAssetsForWebview results in
  manifest <- read (manifest_json results playlistCycles allAssets) ;;
  let manifestPath := path_join assetsDir "webview-manifest.json" in
  call (on_return (Wrote manifestPath manifest))
       (fs_writeFileSync manifestPath manifest) ;;
  console level_log "Webview manifest created" [manifestPath] ;;
  console level_log "Playlist Cycling Information" [] ;;
  emit_all (List.flat_map cycle_summary playlistCycles).

(** [export default downloadAssets] *)
Definition downloadAssets (apiResponse : ApiResponse.t)
    (onProgress : callback DownloadProgress.t)
  : M (list DownloadResult.t * list PlaylistCycle.t) :=
  let assetsDir := "./assets/main" in
  try_catch
    (results <- AssetDownloader.downloadAllAssets assetsDir apiResponse onProgress ;;
     createWebviewManifest assetsDir apiResponse results ;;
     let playlistCycles :=
       AssetDownloader.preparePlaylistsForCycling apiResponse results in
     ret (results, playlistCycles))
    (fun error =>
       console level_error "Error processing assets" [thrown_text error] ;;
       throw error).

End DownloadAssets.

(* ================================================================== *)
(** ** Activity windows *)

(** [class AssetCycler]: the private date check. *)
Module AssetCycler.
Section WithPlatform.
Context {P : Platform}.
Variable currentPlaylist : PlaylistCycle.t.

(** [started] is false when the start-date check returned [false];
    [ended] is true when the end-date check did. *)
Definition isPlaylistActive : M bool :=
  now <- read Date_now ;;
  started <-
    match PlaylistCycle.startDate currentPlaylist with
    | Some s =>
        if Str.truthy s then
          let startDate := Date_parse s in
          if Number.lt (Num now) startDate then
            console level_log "Playlist not yet active"
              [PlaylistCycle.playlistName currentPlaylist; s] ;;
            ret false
          else ret true
        else ret true
    | None => ret true
    end ;;
  if negb started then ret false else
  ended <-
    match PlaylistCycle.endDate currentPlaylist with
    | Some s =>
        if Str.truthy s then
          let endDate := Date_parse s in
          if Number.gt (Num now) endDate then
            console level_log "Playlist has ended"
              [PlaylistCycle.playlistName currentPlaylist; s] ;;
            ret true
          else ret false
        else ret false
    | None => ret false
    end ;;
  if ended then ret false else ret true.

End WithPlatform.
End AssetCycler.

(** [utils/dateUtils.ts] *)
Module dateUtils.
Section WithPlatform.
Context {P : Platform}.

(** [d && test(d)] for an optional date string. *)
Definition and_then (d : option string) (test : string -> bool) : bool :=
  match d with
  | Some s => Str.truthy s && test s
  | None => false
  end.

Definition isPlaylistActive (startDate endDate : option string) : M bool :=
  now <- read Date_now ;;
  if and_then startDate (fun s => Number.gt (Date_parse s) (Num now)) then
    ret false
  else if and_then endDate (fun s => Number.le (Date_parse s) (Num now)) then
    ret false
  else ret true.

End WithPlatform.
End dateUtils.

(* ================================================================== *)
(** ** [utils/deviceInfo.ts] and [utils/getInstructions.ts] *)

Section Collaborators.
Context {P : Platform}.

Definition getDeviceName : M (option string) :=
  name <-
    try_catch
      (call silent DeviceInfo_getDeviceName)
      (fun error =>
         console level_error "Error getting device name" [thrown_text error] ;;
         ret "") ;;
  if negb (String.eqb name "") then ret (Some name) else ret None.

Definition getData (apiURL : string) : M ApiResponse.t :=
  try_catch
    (response <- call (always (Fetched apiURL GET)) (fetch apiURL GET) ;;
     (if negb (Response.ok response)
      then throw (Error ("HTTP error! status: "
                         ++ Str.of_Z (Response.status response)
                         ++ " - " ++ Response.statusText response))
      else ret tt) ;;
     data <- of_outcome (Response.json response) ;;
     if negb (isValidApiResponse data)
     then throw (Error "Invalid API response format")
     else ret data)
    (fun error =>
       match error with
       | ErrorObject true message =>
           if Str.includes message "fetch"
           then throw (Error ("Network error: Unable to fetch data from "
                              ++ apiURL))
           else throw error
       | _ => throw error
       end).

End Collaborators.

(* ================================================================== *)
(** ** [utils/initialization.ts] *)

Module InitializationConfig.
Record t : Type := mk {
  apiURL : string;
  assetsDir : option string;
  clearAssetsOnStart : option bool;
  enableProgressTracking : option bool;
  maxRetries : option nat;
}.
End InitializationConfig.

Module Stats.
Record t : Type := mk {
  totalAssets : nat;
  successfulDownloads : nat;
  failedDownloads : nat;
  streamsKept : nat;
  totalPlaylists : nat;
  initializationTime : Z;
}.
End Stats.

Module InitializationResult.
Record t : Type := mk {
  success : bool;
  deviceName : option string;
  apiResponse : option ApiResponse.t;
  downloadResults : option (list DownloadResult.t);
  playlistCycles : option (list PlaylistCycle.t);
  defaultPlaylist : option PlaylistCycle.t;
  error : option string;
  stats : option Stats.t;
}.

(** [{ success: false, error }] *)
Definition failure (message : string) : t :=
  mk false None None None None None (Some message) None.
End InitializationResult.

Module DigitalSignageInitializer.

(** An instance: the configuration behind the defaults of the
    constructor, and the construction time. *)
Record t : Type := mk {
  assetsDir : string;
  clearAssetsOnStart : bool;
  enableProgressTracking : bool;
  maxRetries : nat;
  apiURL : string;
  startTime : Z;
}.

Definition or_default {A} (o : option A) (d : A) : A :=
  match o with Some v => v | None => d end.

Definition getDefaultPlaylist (playlistCycles : list PlaylistCycle.t)
  : option PlaylistCycle.t :=
  match List.find PlaylistCycle.isDefault playlistCycles with
  | Some p => Some p
  | None => List.nth_error playlistCycles 0
  end.

Section WithPlatform.
Context {P : Platform}.

Definition new (config : InitializationConfig.t) : M t :=
  now <- read Date_now ;;
  ret (mk (or_default (InitializationConfig.assetsDir config) "./assets/main")
          (or_default (InitializationConfig.clearAssetsOnStart config) true)
          (or_default (InitializationConfig.enableProgressTracking config) true)
          (or_default (InitializationConfig.maxRetries config) 3%nat)
          (InitializationConfig.apiURL config)
          now).

Variable this : t.

Definition notify (onProgress : callback InitProgress.t) (stage : init_stage)
    (message : string) (progress : Z) : M unit :=
  invoke onProgress (InitProgress.mk stage message (Some progress) None None).

(** Stage 1.  The sweep over the directory entries is the platform's
    [clear_directory]; it fails when the directory cannot be read. *)
Definition clearAssetsDirectory (onProgress : callback InitProgress.t) : M unit :=
  notify onProgress clearing "Clearing assets directory..." 0 ;;
  exists_ <- read (fs_existsSync (assetsDir this)) ;;
  if negb exists_ then
    call (on_return (MadeDirectory (assetsDir this)))
         (fs_mkdirSync (assetsDir this)) ;;
    console level_log "Created assets directory" [assetsDir this]
  else
    call silent (clear_directory (assetsDir this)).

(** Stage 2 *)
Definition getDeviceInformation (onProgress : callback InitProgress.t)
  : M (option string) :=
  notify onProgress device_info "Getting device information..." 0 ;;
  try_catch
    (deviceName <- getDeviceName ;;
     notify onProgress device_info
       ("Device: " ++ or_default deviceName "Unknown") 100 ;;
     console level_log "Device name" [or_default deviceName "Unknown"] ;;
     ret deviceName)
    (fun error =>
       console level_error "Error getting device name" [thrown_text error] ;;
       notify onProgress device_info "Device name unavailable" 100 ;;
       ret None).

(** Stage 3 *)
Definition fetchApiData (onProgress : callback InitProgress.t)
  : M ApiResponse.t :=
  notify onProgress api_fetch "Fetching API data..." 0 ;;
  try_catch
    (apiResponse <- getData (apiURL this) ;;
     let n := Str.of_nat (List.length (ApiResponse.playlists apiResponse)) in
     notify onProgress api_fetch
       ("API data received: " ++ n ++ " playlists") 100 ;;
     console level_log "API data fetched successfully" [n] ;;
     ret apiResponse)
    (fun error =>
       let errorMessage := message_or "Unknown API error" error in
       console level_error "API fetch failed" [errorMessage] ;;
       throw (Error ("API fetch failed: " ++ errorMessage))).

(** Stage 4 *)
Definition downloadAndProcessAssets (apiResponse : ApiResponse.t)
    (onProgress : callback InitProgress.t)
  : M (list DownloadResult.t * list PlaylistCycle.t) :=
  notify onProgress stage_downloading "Starting asset download..." 0 ;;
  try_catch
    (let assetProgressCallback : callback DownloadProgress.t :=
       if enableProgressTracking this then
         Some (fun progress =>
                 match onProgress with
                 | Some f =>
                     f (InitProgress.mk stage_downloading
                          ("Downloading: "
                           ++ Asset.name (DownloadProgress.asset progress))
                          (Some 50) (Some 0) (Some 0))
                 | None => []
                 end)
       else None in
     processed <- downloadAssets apiResponse assetProgressCallback ;;
     notify onProgress stage_downloading "Asset processing completed" 100 ;;
     console level_log "Asset processing completed"
       [Str.of_nat (List.length (fst processed))] ;;
     ret processed)
    (fun error =>
       let errorMessage := message_or "Unknown download error" error in
       console level_error "Asset download failed" [errorMessage] ;;
       throw (Error ("Asset download failed: " ++ errorMessage))).

(** Stage 5 *)
Definition prepareFinalResult (deviceName : option string)
    (apiResponse : ApiResponse.t) (downloadResults : list DownloadResult.t)
    (playlistCycles : list PlaylistCycle.t) : M InitializationResult.t :=
  let successfulDownloads :=
    AssetDownloader.count DownloadResult.success downloadResults in
  let failedDownloads :=
    AssetDownloader.count (fun r => negb (DownloadResult.success r))
      downloadResults in
  let streamsKept :=
    AssetDownloader.count
      (fun r => DownloadResult.success r
                && AssetDownloader.isStream (DownloadResult.asset r))
      downloadResults in
  let defaultPlaylist := List.find PlaylistCycle.isDefault playlistCycles in
  now <- read Date_now ;;
  let stats :=
    Stats.mk (List.length downloadResults) successfulDownloads failedDownloads
      streamsKept (List.length playlistCycles) (now - startTime this) in
  console level_log "Initialization Statistics"
    [Str.of_nat (Stats.totalAssets stats)] ;;
  ret (InitializationResult.mk true
         (match deviceName with
          | Some d => if Str.truthy d then Some d else None
          | None => None
          end)
         (Some apiResponse) (Some downloadResults) (Some playlistCycles)
         defaultPlaylist None (Some stats)).

Definition initialize (onProgress : callback InitProgress.t)
  : M InitializationResult.t :=
  try_catch
    (console level_log "Starting Digital Signage initialization..." [] ;;
     (if clearAssetsOnStart this then clearAssetsDirectory onProgress
      else ret tt) ;;
     deviceName <- getDeviceInformation onProgress ;;
     apiResponse <- fetchApiData onProgress ;;
     processed <- downloadAndProcessAssets apiResponse onProgress ;;
     result <- prepareFinalResult deviceName apiResponse
                 (fst processed) (snd processed) ;;
     notify onProgress complete "Initialization completed successfully!" 100 ;;
     console level_log "Digital Signage initialization completed successfully!" [] ;;
     ret result)
    (fun error =>
       let errorMessage := message_or "Unknown initialization error" error in
       console level_error "Initialization failed" [errorMessage] ;;
       notify onProgress complete
         ("Initialization failed: " ++ errorMessage) 0 ;;
       ret (InitializationResult.failure errorMessage)).

Definition validateResult (result : InitializationResult.t) : M bool :=
  if negb (InitializationResult.success result) then
    console level_error "Initialization validation failed"
      [or_default (InitializationResult.error result) "undefined"] ;;
    ret false
  else
    match InitializationResult.playlistCycles result with
    | None =>
        console level_error "No playlists available for display" [] ;;
        ret false
    | Some playlistCycles =>
        if Nat.eqb (List.length playlistCycles) 0 then
          console level_error "No playlists available for display" [] ;;
          ret false
        else
          match getDefaultPlaylist playlistCycles with
          | None =>
              console level_error "No assets available in default playlist" [] ;;
              ret false
          | Some defaultPlaylist =>
              if Nat.eqb (List.length (PlaylistCycle.assets defaultPlaylist)) 0
              then
                console level_error "No assets available in default playlist" [] ;;
                ret false
              else
                console level_log "Initialization validation passed" [] ;;
                ret true
          end
    end.

End WithPlatform.
End DigitalSignageInitializer.

Section Initialize.
Context {P : Platform}.

(** [export default initializeDigitalSignage].  [config] is
    [{ apiURL, ...config }]. *)
Definition initializeDigitalSignage (config : InitializationConfig.t)
    (onProgress : callback InitProgress.t) : M InitializationResult.t :=
  initializer <- DigitalSignageInitializer.new config ;;
  result <- DigitalSignageInitializer.initialize initializer onProgress ;;
  valid <- DigitalSignageInitializer.validateResult result ;;
  if valid then ret result
  else ret (InitializationResult.failure "Initialization validation failed").

End Initialize.

(* ================================================================== *)
(** ** More arithmetic of numbers *)

Module JsMath.

(** [a * b] *)
Definition mul (a b : number) : number :=
  match a, b with
  | Num x, Num y => Num (x * y)
  | _, _ => NaN
  end.

(** [Math.floor(a / b)] for a positive integer [b]: the program's for an
    integer [a] of at most 2^53 - 1 in absolute value, where the rounded
    quotient has the floor of the exact one. *)
Definition floor_div (a : number) (b : Z) : number :=
  match a with
  | Num x => Num (x / b)
  | NaN => NaN
  end.

(** [a % b]: the remainder has the sign of the dividend; [NaN] when the
    divisor is zero. *)
Definition rem (a b : number) : number :=
  match a, b with
  | Num x, Num y => if y =? 0 then NaN else Num (Z.rem x y)
  | _, _ => NaN
  end.

(** [Math.max(0, a)] *)
Definition max0 (a : number) : number :=
  match a with
  | Num x => Num (Z.max 0 x)
  | NaN => NaN
  end.

(** [a === b] on numbers: [NaN] equals nothing. *)
Definition eqb (a b : number) : bool :=
  match a, b with
  | Num x, Num y => x =? y
  | _, _ => false
  end.

(** Truthiness of a number: every number but [0] and [NaN]. *)
Definition truthy (a : number) : bool :=
  match a with
  | Num x => negb (x =? 0)
  | NaN => false
  end.

End JsMath.

(** The double quote, as a string. *)
Definition dquote : string := String (ascii_of_nat 34) EmptyString.

(** Truthiness of an optional string: present and not empty. *)
Definition truthy_opt (d : option string) : bool :=
  match d with
  | Some s => Str.truthy s
  | None => false
  end.

(* ================================================================== *)
(** ** The rest of [utils/dateUtils.ts]

    The clock does not advance within one synchronous call: every
    [new Date()] of a call reads the same instant. *)

Definition formatDuration (milliseconds : number) : string :=
  let hours := JsMath.floor_div milliseconds (1000 * 60 * 60) in
  let minutes :=
    JsMath.floor_div (JsMath.rem milliseconds (Num (1000 * 60 * 60)))
      (1000 * 60) in
  let seconds :=
    JsMath.floor_div (JsMath.rem milliseconds (Num (1000 * 60))) 1000 in
  if Number.gt hours (Num 0) then
    number_text hours ++ "h " ++ number_text minutes ++ "m"
  else if Number.gt minutes (Num 0) then
    number_text minutes ++ "m " ++ number_text seconds ++ "s"
  else number_text seconds ++ "s".

Section DateUtilsRest.
Context {P : Platform}.

Definition getTimeUntilStart (startDate : string) : M number :=
  now <- read Date_now ;;
  let start := Date_parse startDate in
  ret (JsMath.max0 (Number.sub start (Num now))).

Definition getTimeUntilEnd (endDate : string) : M number :=
  now <- read Date_now ;;
  let end_ := Date_parse endDate in
  ret (JsMath.max0 (Number.sub end_ (Num now))).

(** The string of a date field that was found truthy. *)
Definition date_text (d : option string) : string :=
  match d with
  | Some s => s
  | None => EmptyString
  end.

(** The time value of [new Date(d)] for a date field that was found
    truthy. *)
Definition date_time (d : option string) : number :=
  Date_parse (date_text d).

Definition getPlaylistTimingMessage (playlistName : string)
    (startDate endDate : option string) : M string :=
  now <- read Date_now ;;
  let title := "Playlist " ++ dquote ++ playlistName ++ dquote in
  if truthy_opt startDate && Number.gt (date_time startDate) (Num now) then
    timeUntilStart <- getTimeUntilStart (date_text startDate) ;;
    ret (title ++ " starts in " ++ formatDuration timeUntilStart)
  else if truthy_opt endDate && Number.le (date_time endDate) (Num now) then
    ret (title ++ " has ended")
  else if truthy_opt endDate then
    timeUntilEnd <- getTimeUntilEnd (date_text endDate) ;;
    ret (title ++ " ends in " ++ formatDuration timeUntilEnd)
  else ret (title ++ " is active").

(** The comparator of [sortPlaylistsByStartDate]. *)
Definition by_start_date {T : Type} (startDate : T -> option string)
    (a b : T) : number :=
  if negb (truthy_opt (startDate a)) && negb (truthy_opt (startDate b))
  then Num 0
  else if negb (truthy_opt (startDate a)) then Num 1
  else if negb (truthy_opt (startDate b)) then Num (-1)
  else Number.sub (date_time (startDate a)) (date_time (startDate b)).

(** [playlists.sort(...)]: the array is sorted in place and returned. *)
Definition sortPlaylistsByStartDate {T : Type} (startDate : T -> option string)
    (playlists : list T) : list T :=
  sort (by_start_date startDate) playlists.

Definition getNextScheduledPlaylist {T : Type} (startDate : T -> option string)
    (playlists : list T) : M (option T) :=
  now <- read Date_now ;;
  let futurePlaylists :=
    List.filter
      (fun playlist =>
         truthy_opt (startDate playlist)
         && Number.gt (date_time (startDate playlist)) (Num now))
      playlists in
  if Nat.eqb (List.length futurePlaylists) 0 then ret None
  else ret (List.nth_error (sortPlaylistsByStartDate startDate futurePlaylists) 0).

End DateUtilsRest.

(* ================================================================== *)
(** ** The rest of [class AssetCycler]

    An instance is modelled together with the two things it acts on: the
    timers of the runtime that are armed and have neither fired for good
    nor been cleared, and the calls it has made to its [onAssetChange]
    handler (an observer that returns). *)

Module Cycler.

(** What an armed timer runs: [() => this.nextAsset()], or the closure of
    the date check. *)
Inductive timer_action : Type := advance | date_check.

Module Timer.
Record t : Type := mk {
  handle : nat;
  delay : number;
  (** [setInterval] rather than [setTimeout] *)
  repeats : bool;
  action : timer_action;
}.
End Timer.

Record t : Type := mk {
  currentPlaylist : PlaylistCycle.t;
  currentAssetIndex : number;
  cycleTimer : option nat;
  dateCheckTimer : option nat;
  (** the runtime: armed timers, oldest first, and the next fresh handle *)
  pending : list Timer.t;
  next_handle : nat;
  (** the calls of [onAssetChange], oldest first *)
  changes : list (WebviewAsset.t * number);
}.

(** [new AssetCycler(playlist, onAssetChange)], in a runtime without
    timers.  Handles are positive, hence truthy. *)
Definition new (playlist : PlaylistCycle.t) : t :=
  mk playlist (Num 0) None None [] 1 [].

Definition with_index (i : number) (s : t) : t :=
  mk (currentPlaylist s) i (cycleTimer s) (dateCheckTimer s)
     (pending s) (next_handle s) (changes s).

(** [setTimeout(f, delay)] and [setInterval(f, delay)]: a fresh handle. *)
Definition arm (repeats : bool) (action : timer_action) (delay : number)
    (s : t) : nat * t :=
  let h := next_handle s in
  (h, mk (currentPlaylist s) (currentAssetIndex s) (cycleTimer s)
         (dateCheckTimer s)
         (pending s ++ [Timer.mk h delay repeats action]) (S h) (changes s)).

(** [clearTimeout(h)] and [clearInterval(h)] *)
Definition clear (h : nat) (s : t) : t :=
  mk (currentPlaylist s) (currentAssetIndex s) (cycleTimer s)
     (dateCheckTimer s)
     (List.filter (fun timer => negb (Nat.eqb (Timer.handle timer) h))
        (pending s))
     (next_handle s) (changes s).

(** [array[i]]: [undefined] outside the bounds and for [NaN]. *)
Definition item {A : Type} (l : list A) (i : number) : option A :=
  match i with
  | Num z => if z <? 0 then None else List.nth_error l (Z.to_nat z)
  | NaN => None
  end.

(** [array.findIndex(test)] *)
Fixpoint findIndex_from {A : Type} (test : A -> bool) (l : list A) (i : Z) : Z :=
  match l with
  | [] => -1
  | x :: l' => if test x then i else findIndex_from test l' (i + 1)
  end.

Definition findIndex {A : Type} (test : A -> bool) (l : list A) : Z :=
  findIndex_from test l 0.

Definition assets (s : t) : list WebviewAsset.t :=
  PlaylistCycle.assets (currentPlaylist s).

Definition stopCycle (s : t) : t :=
  let s :=
    match cycleTimer s with
    | Some h =>
        let s := clear h s in
        mk (currentPlaylist s) (currentAssetIndex s) None (dateCheckTimer s)
           (pending s) (next_handle s) (changes s)
    | None => s
    end in
  match dateCheckTimer s with
  | Some h =>
      let s := clear h s in
      mk (currentPlaylist s) (currentAssetIndex s) (cycleTimer s) None
         (pending s) (next_handle s) (changes s)
  | None => s
  end.

(** [getCurrentAsset()]; [None] is [null], or the [undefined] of an index
    out of bounds. *)
Definition getCurrentAsset (s : t) : option WebviewAsset.t :=
  if Nat.eqb (List.length (assets s)) 0 then None
  else item (assets s) (currentAssetIndex s).

Section WithPlatform.
Context {P : Platform}.

Definition showCurrentAsset (s : t) : M t :=
  match item (assets s) (currentAssetIndex s) with
  | None =>
      (** [currentAsset.displayTime] of [undefined] *)
      throw (ErrorObject true "Cannot read properties of undefined")
  | Some currentAsset =>
      let displayTime :=
        JsMath.mul (WebviewAsset.displayTime currentAsset) (Num 1000) in
      console level_log "Displaying"
        [WebviewAsset.name currentAsset;
         number_text (WebviewAsset.displayTime currentAsset)] ;;
      let s :=
        mk (currentPlaylist s) (currentAssetIndex s) (cycleTimer s)
           (dateCheckTimer s) (pending s) (next_handle s)
           (changes s
            ++ [(currentAsset, WebviewAsset.displayTime currentAsset)]) in
      let '(h, s) := arm false advance displayTime s in
      ret (mk (currentPlaylist s) (currentAssetIndex s) (Some h)
              (dateCheckTimer s) (pending s) (next_handle s) (changes s))
  end.

Definition nextAsset (s : t) : M t :=
  let s :=
    with_index
      (JsMath.rem (Number.add (currentAssetIndex s) (Num 1))
         (Num (Z.of_nat (List.length (assets s)))))
      s in
  showCurrentAsset s.

Definition startCycle (s : t) : M t :=
  if Nat.eqb (List.length (assets s)) 0 then
    console level_warn "No assets to cycle through" [] ;;
    ret s
  else
    active <- AssetCycler.isPlaylistActive (currentPlaylist s) ;;
    if negb active then
      console level_log "Playlist is not active due to date constraints"
        [PlaylistCycle.playlistName (currentPlaylist s)] ;;
      ret s
    else
      s <- showCurrentAsset s ;;
      let '(h, s) := arm true date_check (Num 60000) s in
      ret (mk (currentPlaylist s) (currentAssetIndex s) (cycleTimer s)
              (Some h) (pending s) (next_handle s) (changes s)).

(** The closure that [startCycle] hands to [setInterval]. *)
Definition checkDate (s : t) : M t :=
  active <- AssetCycler.isPlaylistActive (currentPlaylist s) ;;
  if negb active then
    console level_log "Stopping playlist due to date constraints"
      [PlaylistCycle.playlistName (currentPlaylist s)] ;;
    ret (stopCycle s)
  else ret s.

(** The runtime fires the armed timer of handle [h]: a one-shot timer is
    disarmed, then the action runs.  Nothing happens for a handle that is
    not armed. *)
Definition fire (h : nat) (s : t) : M t :=
  match List.find (fun timer => Nat.eqb (Timer.handle timer) h) (pending s) with
  | None => ret s
  | Some timer =>
      let s := if Timer.repeats timer then s else clear h s in
      match Timer.action timer with
      | advance => nextAsset s
      | date_check => checkDate s
      end
  end.

Definition skipToAsset (assetId : string) (s : t) : M (bool * t) :=
  let index :=
    findIndex (fun asset => String.eqb (WebviewAsset.id asset) assetId)
      (assets s) in
  if index =? -1 then ret (false, s)
  else
    let s := stopCycle s in
    let s := with_index (Num index) s in
    s <- showCurrentAsset s ;;
    ret (true, s).

End WithPlatform.

Module PlaylistInfo.
Record t : Type := mk {
  name : string;
  totalDuration : number;
  assetCount : nat;
  startDate : option string;
  endDate : option string;
  isActive : bool;
}.
End PlaylistInfo.

Module DateStatus.
Record t : Type := mk {
  isActive : bool;
  startDate : option string;
  endDate : option string;
  timeUntilStart : option number;
  timeUntilEnd : option number;
}.
End DateStatus.

Section Queries.
Context {P : Platform}.

Definition getPlaylistInfo (s : t) : M PlaylistInfo.t :=
  isActive <- AssetCycler.isPlaylistActive (currentPlaylist s) ;;
  ret (PlaylistInfo.mk
         (PlaylistCycle.playlistName (currentPlaylist s))
         (PlaylistCycle.totalCycleDuration (currentPlaylist s))
         (List.length (assets s))
         (PlaylistCycle.startDate (currentPlaylist s))
         (PlaylistCycle.endDate (currentPlaylist s))
         isActive).

(** [new Date()] is read here and again inside [isPlaylistActive]: the two
    readings are the one instant [Date_now] of the call. *)
Definition getDateStatus (s : t) : M DateStatus.t :=
  now <- read Date_now ;;
  isActive <- AssetCycler.isPlaylistActive (currentPlaylist s) ;;
  let timeUntil (d : option string) : option number :=
    if truthy_opt d
    then Some (JsMath.max0 (Number.sub (date_time d) (Num now)))
    else None in
  ret (DateStatus.mk isActive
         (PlaylistCycle.startDate (currentPlaylist s))
         (PlaylistCycle.endDate (currentPlaylist s))
         (timeUntil (PlaylistCycle.startDate (currentPlaylist s)))
         (timeUntil (PlaylistCycle.endDate (currentPlaylist s)))).

End Queries.

End Cycler.

(* ================================================================== *)
(** ** The choice of the playlist to show ([app/index.tsx]) *)

Module Index.
Section WithPlatform.
Context {P : Platform}.

(** [array.find(p => test(p))] for a test that reads the clock. *)
Fixpoint find_active (playlistCycles : list PlaylistCycle.t)
  : M (option PlaylistCycle.t) :=
  match playlistCycles with
  | [] => ret None
  | playlist :: rest =>
      active <- dateUtils.isPlaylistActive
                  (PlaylistCycle.startDate playlist)
                  (PlaylistCycle.endDate playlist) ;;
      if active then ret (Some playlist) else find_active rest
  end.

(** The body of the [try] block of [startInitialization] behind the call
    of [initializeDigitalSignage]: the playlist handed to
    [setCurrentPlaylist], or the error thrown. *)
Definition choosePlaylist (result : InitializationResult.t)
  : M PlaylistCycle.t :=
  match InitializationResult.success result,
        InitializationResult.playlistCycles result with
  | true, Some playlistCycles =>
      let defaultPlaylist := List.find PlaylistCycle.isDefault playlistCycles in
      activePlaylist <-
        match defaultPlaylist with
        | Some playlist =>
            active <- dateUtils.isPlaylistActive
                        (PlaylistCycle.startDate playlist)
                        (PlaylistCycle.endDate playlist) ;;
            if active then ret (Some playlist) else ret None
        | None => ret None
        end ;;
      activePlaylist <-
        match activePlaylist with
        | Some playlist => ret (Some playlist)
        | None => find_active playlistCycles
        end ;;
      match activePlaylist with
      | Some playlist =>
          console level_log "Starting digital signage display with playlist"
            [PlaylistCycle.playlistName playlist] ;;
          ret playlist
      | None =>
          nextPlaylist <-
            getNextScheduledPlaylist PlaylistCycle.startDate playlistCycles ;;
          match nextPlaylist with
          | Some next =>
              message <-
                getPlaylistTimingMessage (PlaylistCycle.playlistName next)
                  (PlaylistCycle.startDate next) (PlaylistCycle.endDate next) ;;
              throw (Error ("No active playlists. " ++ message))
          | None =>
              throw (Error
                "No active playlists available and no future playlists scheduled")
          end
      end
  | _, _ =>
      throw (Error
               (match InitializationResult.error result with
                | Some e => if Str.truthy e then e else "Initialization failed"
                | None => "Initialization failed"
                end))
  end.

End WithPlatform.
End Index.

(* ================================================================== *)
(** ** The effect of [components/SignageWebview.tsx]

    What the effect decides when the component is given a playlist: the
    message it hands to [setError] and to [onError], or the cycler it has
    started. *)

Module SignageWebview.

Inductive mounted : Type :=
| Failed (message : string)
| Cycling (cycler : Cycler.t).

(** The message put together for a playlist whose date status is not
    active. *)
Definition not_active_message (playlistName : string)
    (dateStatus : Cycler.DateStatus.t) : string :=
  let message :=
    "Playlist " ++ dquote ++ playlistName ++ dquote ++ " is not active" in
  let ended :=
    match Cycler.DateStatus.timeUntilEnd dateStatus with
    | Some timeUntilEnd =>
        if JsMath.eqb timeUntilEnd (Num 0) then message ++ " - has ended"
        else message
    | None => message
    end in
  match Cycler.DateStatus.timeUntilStart dateStatus with
  | Some timeUntilStart =>
      if JsMath.truthy timeUntilStart then
        let hoursUntilStart :=
          JsMath.floor_div timeUntilStart (1000 * 60 * 60) in
        let minutesUntilStart :=
          JsMath.floor_div
            (JsMath.rem timeUntilStart (Num (1000 * 60 * 60))) (1000 * 60) in
        message ++ " - starts in " ++ number_text hoursUntilStart ++ "h "
        ++ number_text minutesUntilStart ++ "m"
      else ended
  | None => ended
  end.

Section WithPlatform.
Context {P : Platform}.

(** The clock is read in [getDateStatus] and again in [startCycle]: all
    readings of one run of the effect are the one instant [Date_now]. *)
Definition mount (playlistCycle : PlaylistCycle.t) : M mounted :=
  if Nat.eqb (List.length (PlaylistCycle.assets playlistCycle)) 0 then
    ret (Failed "No assets available in playlist")
  else
    let cycler := Cycler.new playlistCycle in
    dateStatus <- Cycler.getDateStatus cycler ;;
    if negb (Cycler.DateStatus.isActive dateStatus) then
      ret (Failed
             (not_active_message (PlaylistCycle.playlistName playlistCycle)
                dateStatus))
    else
      cycler <- Cycler.startCycle cycler ;;
      ret (Cycling cycler).

End WithPlatform.
End SignageWebview.
(* ================================================================== *)
(** * Vocabulary of the properties, and sample inputs *)

(** The classification as the design document words it: the file type is
    [stream], or the source location ends with [.m3u8]. *)
Definition spec_isStream (asset : Asset.t) : bool :=
  String.eqb (Asset.filetype asset) "stream"
  || Str.endsWith (Asset.filepath asset) ".m3u8".

Definition tokenised_stream : Asset.t :=
  Asset.mk "7" "Live feed" "https://cdn.example.com/live.m3u8?token=abc"
    "video" "1" "30".

Section SortVocabulary.
Context {A : Type}.
Variable key : A -> number.

Definition key_le (a b : A) : Prop := Number.le (key a) (key b) = true.

Definition has_key (k : Z) (a : A) : bool :=
  match key a with
  | Num z => z =? k
  | NaN => false
  end.

Definition integer_keys (l : list A) : Prop :=
  Forall (fun a => Number.is_integer (key a)) l.

End SortVocabulary.

Definition starts_with_digit (s : string) : bool :=
  match s with
  | String c _ => Str.is_digit c
  | EmptyString => false
  end.

(** [s] is, behind optional white space, an optionally signed run of
    decimal digits followed by anything. *)
Definition numeral (s : string) : bool :=
  starts_with_digit (snd (strip_sign (trimStart s))).

(** As [numeral], without a minus sign. *)
Definition unsigned_numeral (s : string) : bool :=
  numeral s && (0 <=? fst (strip_sign (trimStart s))).


(** A lobby playlist: an image shown for 5 s and, ordered before it, a
    video shown for 10 s, both fetched. *)
Definition welcome_image : Asset.t :=
  Asset.mk "a1" "Welcome" "https://cdn.example.com/welcome.png" "image" "2" "5".

Definition promo_video : Asset.t :=
  Asset.mk "a2" "Promo" "https://cdn.example.com/promo.mp4" "video" "1" "10".

Definition lobby_playlist : Playlist.t :=
  Playlist.mk "p1" "Lobby" None None None None None true
    [welcome_image; promo_video].

Definition lobby_manifest : ApiResponse.t :=
  ApiResponse.mk (Functions.mk false) [lobby_playlist].

Definition fetched (asset : Asset.t) (localPath : string) : DownloadResult.t :=
  DownloadResult.mk asset true None (Some localPath).

Definition not_fetched (asset : Asset.t) (message : string) : DownloadResult.t :=
  DownloadResult.mk asset false (Some message) None.

Definition lobby_results : list DownloadResult.t :=
  [ fetched welcome_image "assets/main/a1_welcome.png";
    fetched promo_video "assets/main/a2_promo.mp4" ].

Definition lobby_cycle : PlaylistCycle.t :=
  AssetDownloader.toPlaylistCycle lobby_results lobby_playlist.








(** Every asset of [playlist] failed to fetch: no result carrying the id
    of one of its assets is a success. *)
Definition all_failed (results : list DownloadResult.t) (playlist : Playlist.t)
  : Prop :=
  forall asset result,
    In asset (Playlist.assets playlist) -> In result results ->
    Asset.id (DownloadResult.asset result) = Asset.id asset ->
    DownloadResult.success result = false.

(** The sum of a list of integers. *)
Definition sum_Z (l : list Z) : Z := List.fold_right Z.add 0 l.

(** [Number.MAX_SAFE_INTEGER], 2^53 - 1: the integers up to it in absolute
    value are numbers of the program as they are, and the program adds,
    subtracts and compares them without rounding. *)
Definition max_safe_integer : Z := 9007199254740991.

(** Integers that the program adds up without rounding, in whatever order:
    their absolute values together stay within [max_safe_integer], and so
    does every one of them and every sum of some of them. *)
Definition safely_summed (l : list Z) : Prop :=
  sum_Z (List.map Z.abs l) <= max_safe_integer.

(** The number of digits at the head of [s]. *)
Fixpoint leading_digits (s : string) : nat :=
  match s with
  | String c s' => if Str.is_digit c then S (leading_digits s') else O
  | EmptyString => O
  end.

(** The number of digits that [parseInt] reads from [s]: those behind the
    white space and the sign. *)
Definition digits_read (s : string) : nat :=
  leading_digits (snd (strip_sign (trimStart s))).

(** A numeral of at most 15 digits names an integer below 10^15, which is
    below 2^53: [parseInt] returns it as it is.  (Of a longer numeral
    [parseInt] returns the nearest number, and [Infinity] from about 309
    digits on.) *)
Definition exactly_read (s : string) : Prop := (digits_read s <= 15)%nat.

(** *** Reading a trace *)

(** The timers waited for, in milliseconds. *)
Fixpoint sleeps (tr : list event) : list Z :=
  match tr with
  | [] => []
  | Slept ms :: tr' => ms :: sleeps tr'
  | _ :: tr' => sleeps tr'
  end.

(** The files written. *)
Fixpoint writes (tr : list event) : list string :=
  match tr with
  | [] => []
  | Wrote path _ :: tr' => path :: writes tr'
  | _ :: tr' => writes tr'
  end.

(** The requests sent. *)
Fixpoint fetches (tr : list event) : list (string * http_method) :=
  match tr with
  | [] => []
  | Fetched url method :: tr' => (url, method) :: fetches tr'
  | _ :: tr' => fetches tr'
  end.

(** The console calls of one tag. *)
Fixpoint console_calls (tag : string) (tr : list event) : list (list string) :=
  match tr with
  | [] => []
  | Console _ t args :: tr' =>
      if String.eqb t tag then args :: console_calls tag tr'
      else console_calls tag tr'
  | _ :: tr' => console_calls tag tr'
  end.

(** The wait before the retry that follows failed attempt [attempt]:
    [2^attempt] seconds. *)
Definition backoff_ms (attempt : nat) : Z := 2 ^ Z.of_nat attempt * 1000.

Section RunVocabulary.
Context {P : Platform}.
Variable assetsDir : string.

(** [r] behind the events [evs]. *)
Definition prepend {A} (evs : list event) (r : Run.t world A) : Run.t world A :=
  Run.mk (Run.final r) (evs ++ Run.trace r) (Run.result r).

Definition notes {A} (cb : callback A) (x : A) : list event :=
  match cb with
  | Some f => List.map Notified (f x)
  | None => []
  end.

(** The retry policy in the words of the design document, as a relation
    between the attempt about to be made, the world before it, and the
    trace, the result and the world of the rest of the call:
    - an attempt that does not fail ends the call with its result;
    - the last attempt ([attempt = retries]), failing, ends the call with a
      failed result that carries that attempt's error message;
    - an earlier attempt, failing, is followed by a wait of
      [backoff_ms attempt] and by the next attempt. *)
Inductive retry_run (asset : Asset.t) (retries : nat)
    (onProgress : callback DownloadProgress.t)
  : nat -> world -> list event -> DownloadResult.t -> world -> Prop :=
| attempt_returns attempt w r :
    let run :=
      AssetDownloader.downloadAsset_try assetsDir asset attempt retries
        onProgress w in
    Run.result run = Return r ->
    retry_run asset retries onProgress attempt w
      (Run.trace run) r (Run.final run)
| last_attempt_fails w e :
    let run :=
      AssetDownloader.downloadAsset_try assetsDir asset retries retries
        onProgress w in
    Run.result run = Throw e ->
    let errorMessage := message_or "Unknown error" e in
    retry_run asset retries onProgress retries w
      (Run.trace run
       ++ Console level_error "Failed to process"
            [Asset.name asset; Str.of_nat retries; errorMessage]
       :: match onProgress with
          | Some f =>
              List.map Notified (f (DownloadProgress.mk 0 0 asset failed))
          | None => []
          end)
      (DownloadResult.mk asset false (Some errorMessage) None)
      (Run.final run)
| attempt_fails_retry attempt w e tr r w' :
    (attempt < retries)%nat ->
    let run :=
      AssetDownloader.downloadAsset_try assetsDir asset attempt retries
        onProgress w in
    Run.result run = Throw e ->
    retry_run asset retries onProgress (S attempt) (Run.final run) tr r w' ->
    retry_run asset retries onProgress attempt w
      (Run.trace run
       ++ Console level_warn "Attempt failed"
            [Str.of_nat attempt; Asset.name asset;
             message_or "Unknown error" e]
       :: Slept (backoff_ms attempt) :: tr)
      r w'.

(** One call of [downloadAsset] per list element, in order, each followed
    by the pause between downloads when the asset is a file. *)
Inductive batch_run (onProgress : callback DownloadProgress.t)
  : list Asset.t -> world -> list event -> list DownloadResult.t -> world
    -> Prop :=
| batch_done w : batch_run onProgress [] w [] [] w
| batch_next asset rest w r tr results w' :
    let run := AssetDownloader.downloadAsset assetsDir asset 3 onProgress w in
    Run.result run = Return r ->
    batch_run onProgress rest (Run.final run) tr results w' ->
    batch_run onProgress (asset :: rest) w
      (Run.trace run
       ++ (if AssetDownloader.isDownloadable asset then [Slept 100] else [])
       ++ tr)
      (r :: results) w'.

End RunVocabulary.

(** *** A scripted platform *)

(** The world is the list of answers the network will give, in order
    (unreachable once the script is used up), and a clock; the file system
    accepts every call. *)
Module Scripted.

Record state : Type := mk {
  script : list (outcome Response.t);
  clock : Z;
}.

Definition answer (w : state) : state * outcome Response.t :=
  match script w with
  | [] => (w, Throw (ErrorObject true "Network request failed"))
  | o :: rest => (mk rest (clock w), o)
  end.

(** The text behind the first [sep] of [s]. *)
Fixpoint after (sep : ascii) (s : string) : option string :=
  match s with
  | EmptyString => None
  | String c s' => if Ascii.eqb c sep then Some s' else after sep s'
  end.

(** The text before the first [?] or [#]. *)
Fixpoint before_query (s : string) : string :=
  match s with
  | EmptyString => EmptyString
  | String c s' =>
      if Ascii.eqb c "?" || Ascii.eqb c "#" then EmptyString
      else String c (before_query s')
  end.

(** The path of [scheme://host/path?query], read without decoding. *)
Definition pathname (url : string) : outcome string :=
  match after ":" url with
  | Some (String "/" (String "/" rest)) =>
      match after "/" rest with
      | Some path => Return ("/" ++ before_query path)
      | None => Return "/"
      end
  | _ => Throw (ErrorObject true "Invalid URL")
  end.

Definition midnight_2025 : Z := 1735689600000.

Definition parse (s : string) : number :=
  if String.eqb s "2025-01-01T00:00:00.000Z" then Num midnight_2025
  else if String.eqb s "2025-01-02T00:00:00.000Z" then Num (midnight_2025 + 86400000)
  else NaN.

Definition platform : Platform := {|
  world := state;
  fetch := fun _ _ => answer;
  fs_existsSync := fun _ _ => true;
  fs_mkdirSync := fun _ w => (w, Return tt);
  fs_writeFileSync := fun _ _ w => (w, Return tt);
  path_join := fun a b => a ++ "/" ++ b;
  URL_pathname := pathname;
  manifest_json := fun _ _ _ _ => [];
  DeviceInfo_getDeviceName := fun w => (w, Return "Lobby TV");
  clear_directory := fun _ w => (w, Return tt);
  Date_now := clock;
  Date_parse := parse;
|}.

(** Answers of the network. *)
Definition status_only (ok : bool) (status : Z) (text : string) : Response.t :=
  Response.mk ok status text
    (Throw (ErrorObject true "no body")) (Throw (ErrorObject true "no body")).

Definition not_found : outcome Response.t :=
  Return (status_only false 404 "Not Found").

Definition server_error : outcome Response.t :=
  Return (status_only false 500 "Internal Server Error").

Definition file (bytes : list Byte.byte) : outcome Response.t :=
  Return (Response.mk true 200 "OK" (Return bytes)
            (Throw (ErrorObject false "Unexpected token"))).

Definition manifest (data : ApiResponse.t) : outcome Response.t :=
  Return (Response.mk true 200 "OK" (Return []) (Return data)).

End Scripted.

(** A live stream, by file type. *)
Definition news_stream : Asset.t :=
  Asset.mk "s1" "News" "https://live.example.com/news/index.m3u8" "stream"
    "3" "60".











(** The file a result stands for: the local path of a successful
    download of a file asset. *)
Definition written (r : DownloadResult.t) : list string :=
  if DownloadResult.success r
     && AssetDownloader.isDownloadable (DownloadResult.asset r)
  then match DownloadResult.localPath r with
       | Some localPath => [localPath]
       | None => []
       end
  else [].

Definition has_id (i : string) (asset : Asset.t) : bool :=
  String.eqb (Asset.id asset) i.

(** A manifest in which one asset belongs to two playlists. *)
Definition shared_manifest : ApiResponse.t :=
  ApiResponse.mk (Functions.mk false)
    [ lobby_playlist;
      Playlist.mk "p4" "Hall" None None None None None false
        [welcome_image; news_stream] ].

(** A network that serves the three files and answers the probe of the
    stream of [shared_manifest]. *)
Definition shared_world : Scripted.state :=
  Scripted.mk
    [Scripted.file []; Scripted.file []; Scripted.file []; Scripted.not_found]
    0.

(** The instance the constructor makes at world [w]. *)
Definition initializer_of {P : Platform} (config : InitializationConfig.t)
    (w : world) : DigitalSignageInitializer.t :=
  DigitalSignageInitializer.mk
    (DigitalSignageInitializer.or_default
       (InitializationConfig.assetsDir config) "./assets/main")
    (DigitalSignageInitializer.or_default
       (InitializationConfig.clearAssetsOnStart config) true)
    (DigitalSignageInitializer.or_default
       (InitializationConfig.enableProgressTracking config) true)
    (DigitalSignageInitializer.or_default
       (InitializationConfig.maxRetries config) 3%nat)
    (InitializationConfig.apiURL config)
    (Date_now w).

(** The cycle the validation looks at, in the words of the design
    document: the first one flagged default, else the first cycle. *)
Definition selected_cycle (playlistCycles : list PlaylistCycle.t)
  : option PlaylistCycle.t :=
  match List.filter PlaylistCycle.isDefault playlistCycles with
  | cycle :: _ => Some cycle
  | [] => List.hd_error playlistCycles
  end.

(** What the validation rejects in a result. *)
Definition nothing_to_show (result : InitializationResult.t) : Prop :=
  match InitializationResult.playlistCycles result with
  | None => True
  | Some playlistCycles =>
      playlistCycles = []
      \/ exists cycle,
           selected_cycle playlistCycles = Some cycle
           /\ PlaylistCycle.assets cycle = []
  end.

(** A manifest without playlists, and the network that serves it. *)
Definition empty_manifest : ApiResponse.t :=
  ApiResponse.mk (Functions.mk false) [].

Definition signage_config : InitializationConfig.t :=
  InitializationConfig.mk "https://api.example.com/signage" None None None None.

Definition empty_world : Scripted.state :=
  Scripted.mk [Scripted.manifest empty_manifest] 0.

(** What [initialize] returns in [empty_world]. *)
Definition empty_initialization : InitializationResult.t :=
  Eval vm_compute in
    match
      Run.result
        (@DigitalSignageInitializer.initialize Scripted.platform
           (@initializer_of Scripted.platform signage_config empty_world)
           None empty_world)
    with
    | Return result => result
    | Throw _ => InitializationResult.failure ""
    end.

(** A cycle whose window ends at the first instant of 2025, and the world
    at that instant. *)
Definition ending_cycle : PlaylistCycle.t :=
  PlaylistCycle.mk "p1" "Lobby"
    (PlaylistCycle.assets lobby_cycle) (Num 15) true
    None (Some "2025-01-01T00:00:00.000Z").

Definition world_at_end : Scripted.state :=
  Scripted.mk [] Scripted.midnight_2025.
(* ================================================================== *)
(** * Vocabulary of the further properties *)

Section WindowVocabulary.
Context {P : Platform}.

(** The date field is set and names an instant after [now]. *)
Definition starts_after (now : Z) (startDate : option string) : bool :=
  truthy_opt startDate && Number.gt (date_time startDate) (Num now).

(** The date field is set and names an instant at or before [now]. *)
Definition ended_by (now : Z) (endDate : option string) : bool :=
  truthy_opt endDate && Number.le (date_time endDate) (Num now).

(** The date field is set and names an instant before [now]. *)
Definition ended_before (now : Z) (endDate : option string) : bool :=
  truthy_opt endDate && Number.gt (Num now) (date_time endDate).

(** The window of [dateUtils]: closed at the start, open at the end. *)
Definition in_window (now : Z) (startDate endDate : option string) : bool :=
  negb (starts_after now startDate) && negb (ended_by now endDate).

(** The window of the cycler: closed at both ends. *)
Definition in_cycler_window (now : Z) (playlist : PlaylistCycle.t) : bool :=
  negb (starts_after now (PlaylistCycle.startDate playlist))
  && negb (ended_before now (PlaylistCycle.endDate playlist)).

End WindowVocabulary.

(** A whole number of milliseconds split into hours, minutes below 60,
    seconds below 60 and milliseconds below 1000. *)
Definition hours_of (ms : Z) : Z := ms / 3600000.
Definition minutes_of (ms : Z) : Z := (ms mod 3600000) / 60000.
Definition seconds_of (ms : Z) : Z := (ms mod 60000) / 1000.

(** *** The cycler *)

(** The state after [showCurrentAsset] presented [asset]: the handler was
    called with the asset and its full display time, and a fresh one-shot
    timer of that many seconds is armed and kept in [cycleTimer]. *)
Definition shown (asset : WebviewAsset.t) (s : Cycler.t) : Cycler.t :=
  Cycler.mk (Cycler.currentPlaylist s) (Cycler.currentAssetIndex s)
    (Some (Cycler.next_handle s)) (Cycler.dateCheckTimer s)
    (Cycler.pending s
     ++ [Cycler.Timer.mk (Cycler.next_handle s)
           (JsMath.mul (WebviewAsset.displayTime asset) (Num 1000))
           false Cycler.advance])
    (S (Cycler.next_handle s))
    (Cycler.changes s ++ [(asset, WebviewAsset.displayTime asset)]).

(** The state after [startCycle] armed the date check behind a
    presentation. *)
Definition watched (s : Cycler.t) : Cycler.t :=
  Cycler.mk (Cycler.currentPlaylist s) (Cycler.currentAssetIndex s)
    (Cycler.cycleTimer s) (Some (Cycler.next_handle s))
    (Cycler.pending s
     ++ [Cycler.Timer.mk (Cycler.next_handle s) (Num 60000) true
           Cycler.date_check])
    (S (Cycler.next_handle s)) (Cycler.changes s).

(** The index is a position of the asset sequence. *)
Definition index_in_range (s : Cycler.t) : Prop :=
  exists i,
    Cycler.currentAssetIndex s = Num (Z.of_nat i)
    /\ (i < List.length (Cycler.assets s))%nat.

(** An armed timer is the one-shot advance timer kept in [cycleTimer] or
    the repeating date check kept in [dateCheckTimer]. *)
Definition owned_timer (s : Cycler.t) (timer : Cycler.Timer.t) : Prop :=
  (Cycler.cycleTimer s = Some (Cycler.Timer.handle timer)
   /\ Cycler.Timer.action timer = Cycler.advance
   /\ Cycler.Timer.repeats timer = false)
  \/ (Cycler.dateCheckTimer s = Some (Cycler.Timer.handle timer)
      /\ Cycler.Timer.action timer = Cycler.date_check
      /\ Cycler.Timer.repeats timer = true).

Definition handles (s : Cycler.t) : list nat :=
  List.map Cycler.Timer.handle (Cycler.pending s).

(** The cycler is in order: the index is in range, every armed timer is
    owned, no handle is armed twice, and armed handles are older than the
    next fresh one. *)
Record tidy (s : Cycler.t) : Prop := {
  tidy_index : index_in_range s;
  tidy_owned : Forall (owned_timer s) (Cycler.pending s);
  tidy_nodup : NoDup (handles s);
  tidy_fresh : Forall (fun h => (h < Cycler.next_handle s)%nat) (handles s);
}.

(** Every call of the handler so far passed an asset of the playlist and
    its full display time. *)
Definition faithful_changes (s : Cycler.t) : Prop :=
  Forall
    (fun change =>
       In (fst change) (Cycler.assets s)
       /\ snd change = WebviewAsset.displayTime (fst change))
    (Cycler.changes s).

Section CyclerVocabulary.
Context {P : Platform}.

(** One operation on the cycler, completed at some instant: [startCycle]
    on a cycler without armed timers (a new one or a stopped one, as the
    component that owns the cycler calls it), [stopCycle], [skipToAsset],
    or the runtime firing a timer. *)
Inductive cycler_step : Cycler.t -> Cycler.t -> Prop :=
| step_start w s s' :
    Cycler.pending s = [] ->
    Run.result (Cycler.startCycle s w) = Return s' -> cycler_step s s'
| step_stop s : cycler_step s (Cycler.stopCycle s)
| step_skip w assetId s found s' :
    Run.result (Cycler.skipToAsset assetId s w) = Return (found, s') ->
    cycler_step s s'
| step_fire w h s s' :
    Run.result (Cycler.fire h s w) = Return s' -> cycler_step s s'.

Inductive cycler_reachable (playlist : PlaylistCycle.t) : Cycler.t -> Prop :=
| reach_new : cycler_reachable playlist (Cycler.new playlist)
| reach_step s s' :
    cycler_reachable playlist s -> cycler_step s s' ->
    cycler_reachable playlist s'.

(** The advance timer kept in [cycleTimer] fires. *)
Definition tick (s : Cycler.t) : M Cycler.t :=
  match Cycler.cycleTimer s with
  | Some h => Cycler.fire h s
  | None => ret s
  end.

Fixpoint ticks (n : nat) (s : Cycler.t) : M Cycler.t :=
  match n with
  | O => ret s
  | S n' => s' <- tick s ;; ticks n' s'
  end.

End CyclerVocabulary.

(** The asset at position [i] of the cycle, counted round. *)
Definition asset_round (playlist : PlaylistCycle.t) (i : nat)
  : option WebviewAsset.t :=
  List.nth_error (PlaylistCycle.assets playlist)
    (i mod List.length (PlaylistCycle.assets playlist)).

(** The handler calls for the assets at positions [i + 1] ... [i + k]. *)
Fixpoint round_changes (playlist : PlaylistCycle.t) (i k : nat)
  : list (WebviewAsset.t * number) :=
  match k with
  | O => []
  | S k' =>
      match asset_round playlist (S i) with
      | Some asset =>
          (asset, WebviewAsset.displayTime asset)
          :: round_changes playlist (S i) k'
      | None => []
      end
  end.

(** The handle [h] is the one kept in the field [o]. *)
Definition named (o : option nat) (h : nat) : bool :=
  match o with
  | Some x => Nat.eqb h x
  | None => false
  end.

Definition cycle_owned (s : Cycler.t) (timer : Cycler.Timer.t) : Prop :=
  Cycler.cycleTimer s = Some (Cycler.Timer.handle timer)
  /\ Cycler.Timer.action timer = Cycler.advance
  /\ Cycler.Timer.repeats timer = false.

Definition date_owned (s : Cycler.t) (timer : Cycler.Timer.t) : Prop :=
  Cycler.dateCheckTimer s = Some (Cycler.Timer.handle timer)
  /\ Cycler.Timer.action timer = Cycler.date_check
  /\ Cycler.Timer.repeats timer = true.

(** The armed advance timers. *)
Definition advance_timers (s : Cycler.t) : list Cycler.Timer.t :=
  List.filter
    (fun timer =>
       match Cycler.Timer.action timer with
       | Cycler.advance => true
       | Cycler.date_check => false
       end)
    (Cycler.pending s).

(** The armed date checks. *)
Definition date_timers (s : Cycler.t) : list Cycler.Timer.t :=
  List.filter
    (fun timer =>
       match Cycler.Timer.action timer with
       | Cycler.advance => false
       | Cycler.date_check => true
       end)
    (Cycler.pending s).

(** The cycler is tidy and running: the advance timer kept in
    [cycleTimer] is armed. *)
Definition running (s : Cycler.t) : Prop :=
  tidy s
  /\ exists timer,
       In timer (Cycler.pending s)
       /\ Cycler.Timer.action timer = Cycler.advance
       /\ Cycler.cycleTimer s = Some (Cycler.Timer.handle timer).

(** A cycler of the lobby cycle in the middle of its run: the video is on
    screen, the advance timer has handle 1 and the date check handle 2. *)
Definition lobby_running : Cycler.t :=
  Cycler.mk lobby_cycle (Num 0) (Some 1%nat) (Some 2%nat)
    [ Cycler.Timer.mk 1 (Num 10000) false Cycler.advance;
      Cycler.Timer.mk 2 (Num 60000) true Cycler.date_check ]
    3
    [ (WebviewAsset.mk "a2" "Promo" "video" (Num 1) (Num 10)
         (Some "assets/main/a2_promo.mp4") false
         "https://cdn.example.com/promo.mp4", Num 10) ].

Definition idle_world : Scripted.state := Scripted.mk [] 0.

(** The two timers that [startCycle] arms on a new cycler whose first asset
    is [first]. *)
Definition first_advance (first : WebviewAsset.t) : Cycler.Timer.t :=
  Cycler.Timer.mk 1
    (JsMath.mul (WebviewAsset.displayTime first) (Num 1000))
    false Cycler.advance.

Definition first_date_check : Cycler.Timer.t :=
  Cycler.Timer.mk 2 (Num 60000) true Cycler.date_check.

Section CyclerCalls.
Context {P : Platform}.

(** One call of a public method of the cycler, or the runtime firing a
    timer handle, at any instant and in any state. *)
Inductive cycler_call : Cycler.t -> Cycler.t -> Prop :=
| call_start w s s' :
    Run.result (Cycler.startCycle s w) = Return s' -> cycler_call s s'
| call_stop s : cycler_call s (Cycler.stopCycle s)
| call_skip w assetId s found s' :
    Run.result (Cycler.skipToAsset assetId s w) = Return (found, s') ->
    cycler_call s s'
| call_fire w h s s' :
    Run.result (Cycler.fire h s w) = Return s' -> cycler_call s s'.

(** The cyclers that calls lead to from a new one. *)
Inductive cycler_history (playlist : PlaylistCycle.t) : Cycler.t -> Prop :=
| history_new : cycler_history playlist (Cycler.new playlist)
| history_call s s' :
    cycler_history playlist s -> cycler_call s s' ->
    cycler_history playlist s'.

End CyclerCalls.

(** The index is a position of the playlist, or the playlist is empty and
    no timer is armed. *)
Definition safe (s : Cycler.t) : Prop :=
  (Cycler.assets s = [] /\ Cycler.pending s = []) \/ index_in_range s.

Section StatusVocabulary.
Context {P : Platform}.

(** [Math.max(0, date - now)] for a date field that is set, [null] for one
    that is not. *)
Definition time_until (now : Z) (d : option string) : option number :=
  if truthy_opt d
  then Some (JsMath.max0 (Number.sub (date_time d) (Num now)))
  else None.

(** The milliseconds from [now] to the instant a date field names. *)
Definition until (now : Z) (d : option string) : Z :=
  match date_time d with
  | Num t => t - now
  | NaN => 0
  end.

End StatusVocabulary.

Definition not_active_title (playlistName : string) : string :=
  "Playlist " ++ dquote ++ playlistName ++ dquote ++ " is not active".

Section IndexVocabulary.
Context {P : Platform}.

(** The window test of [dateUtils.isPlaylistActive] on a cycle. *)
Definition cycle_active (now : Z) (playlist : PlaylistCycle.t) : bool :=
  in_window now (PlaylistCycle.startDate playlist)
    (PlaylistCycle.endDate playlist).

End IndexVocabulary.

(** A result of the initialization with the lobby cycle. *)
Definition lobby_initialization : InitializationResult.t :=
  InitializationResult.mk true None None None (Some [lobby_cycle])
    (Some lobby_cycle) None None.

(** What the [catch] of [getData] makes of a thrown value: a [TypeError]
    whose message mentions [fetch] becomes a network error that names the
    URL; everything else is thrown on as it is. *)
Definition rethrown (apiURL : string) (error : thrown) : thrown :=
  match error with
  | ErrorObject true message =>
      if Str.includes message "fetch"
      then Error ("Network error: Unable to fetch data from " ++ apiURL)
      else error
  | _ => error
  end.

Section ResultVocabulary.
Context {P : Platform}.

(** A download result in order: a success carries no error and a path, the
    URL of a stream or the place in the assets directory of a file under
    its safe filename; a failure carries an error message and no path. *)
Definition well_formed (assetsDir : string) (r : DownloadResult.t) : Prop :=
  if DownloadResult.success r then
    DownloadResult.error r = None
    /\ if AssetDownloader.isStream (DownloadResult.asset r) then
         DownloadResult.localPath r
         = Some (Asset.filepath (DownloadResult.asset r))
       else
         exists filename,
           AssetDownloader.generateSafeFilename (DownloadResult.asset r)
           = Return filename
           /\ DownloadResult.localPath r = Some (path_join assetsDir filename)
  else
    (exists message, DownloadResult.error r = Some message)
    /\ DownloadResult.localPath r = None.

End ResultVocabulary.

(** The directory that [downloadAssets] works in, and its manifest. *)
Definition main_directory : string := "./assets/main".

Definition manifest_path {P : Platform} : string :=
  path_join main_directory "webview-manifest.json".


(** The statistics add up: every result is a success or a failure, and the
    streams kept are among the successes. *)
Definition consistent (stats : Stats.t) (results : list DownloadResult.t)
    (playlistCycles : list PlaylistCycle.t) : Prop :=
  Stats.totalAssets stats = List.length results
  /\ (Stats.successfulDownloads stats + Stats.failedDownloads stats
      = Stats.totalAssets stats)%nat
  /\ (Stats.streamsKept stats <= Stats.successfulDownloads stats)%nat
  /\ Stats.totalPlaylists stats = List.length playlistCycles.

(** A result of a completed initialization: the manifest as it was
    validated, one download result per asset membership, the cycles
    compiled from them, the first cycle flagged default, and statistics
    that add up. *)
Definition fully_initialized {P : Platform} (result : InitializationResult.t) : Prop :=
  exists apiResponse results stats,
    isValidApiResponse apiResponse = true
    /\ List.map DownloadResult.asset results
       = List.flat_map Playlist.assets (ApiResponse.playlists apiResponse)
    /\ Forall (well_formed main_directory) results
    /\ consistent stats results
         (AssetDownloader.preparePlaylistsForCycling apiResponse results)
    /\ InitializationResult.deviceName result <> Some ""
    /\ InitializationResult.apiResponse result = Some apiResponse
    /\ InitializationResult.downloadResults result = Some results
    /\ InitializationResult.playlistCycles result
       = Some (AssetDownloader.preparePlaylistsForCycling apiResponse results)
    /\ InitializationResult.defaultPlaylist result
       = List.find PlaylistCycle.isDefault
           (AssetDownloader.preparePlaylistsForCycling apiResponse results)
    /\ InitializationResult.error result = None
    /\ InitializationResult.stats result = Some stats.

(** Some successful result carries the id of [asset]. *)
Definition resolved_by (results : list DownloadResult.t) (asset : Asset.t)
  : bool :=
  List.existsb
    (fun r => String.eqb (Asset.id (DownloadResult.asset r)) (Asset.id asset)
              && DownloadResult.success r)
    results.

(** Some asset of the playlist is resolved. *)
Definition has_success (results : list DownloadResult.t)
    (playlist : Playlist.t) : bool :=
  List.existsb (resolved_by results) (Playlist.assets playlist).

(** A progress callback that records what it is told. *)
Definition recorder : callback DownloadProgress.t :=
  Some (fun progress => [DownloadNotified progress]).

(** What the download callback was told in a run, in order. *)
Fixpoint told (tr : list event) : list DownloadProgress.t :=
  match tr with
  | [] => []
  | Notified (DownloadNotified progress) :: tr' => progress :: told tr'
  | _ :: tr' => told tr'
  end.

(** The progress records of [downloadAsset]. *)
Definition tells_downloading (asset : Asset.t) : DownloadProgress.t :=
  DownloadProgress.mk 0 0 asset downloading.

Definition tells_outcome (r : DownloadResult.t) : DownloadProgress.t :=
  if DownloadResult.success r
  then DownloadProgress.mk 1 1 (DownloadResult.asset r) completed
  else DownloadProgress.mk 0 0 (DownloadResult.asset r) failed.

Section StartDateVocabulary.
Context {P : Platform} {T : Type}.
Variable startDate : T -> option string.

(** A start date that is set names an instant. *)
Definition valid_start (p : T) : Prop :=
  truthy_opt (startDate p) = true ->
  exists t, date_time (startDate p) = Num t.

(** [a] starts no later than [b]; a playlist without a start date comes
    behind every playlist with one. *)
Definition starts_no_later (a b : T) : Prop :=
  match truthy_opt (startDate a), truthy_opt (startDate b) with
  | true, true =>
      match date_time (startDate a), date_time (startDate b) with
      | Num x, Num y => x <= y
      | _, _ => False
      end
  | true, false => True
  | false, true => False
  | false, false => True
  end.

(** The playlist starts at the instant [t]. *)
Definition starts_at (t : Z) (p : T) : bool :=
  truthy_opt (startDate p) && JsMath.eqb (date_time (startDate p)) (Num t).

(** The playlist has no start date. *)
Definition undated (p : T) : bool := negb (truthy_opt (startDate p)).

End StartDateVocabulary.
(* ================================================================== *)
(** * Properties *)

(** ** Strings *)

Lemma startsWith_spec (s p : string) :
  Str.startsWith s p = true <-> exists t, s = p ++ t.
Proof.
  revert s; induction p as [|c p IH]; intros s; simpl.
  - split; [intros _; now exists s | reflexivity].
  - destruct s as [|d s].
    + split; [discriminate | intros [t Ht]; discriminate].
    + rewrite andb_true_iff, IH. split.
      * intros [Hc [t ->]]. apply Ascii.eqb_eq in Hc. subst d. now exists t.
      * intros [t Ht]. injection Ht as -> ->. split.
        -- apply Ascii.eqb_refl.
        -- now exists t.
Qed.

Lemma includes_spec (s sub : string) :
  Str.includes s sub = true <-> exists pre post, s = pre ++ sub ++ post.
Proof.
  induction s as [|c s IH].
  - simpl. rewrite orb_false_r, startsWith_spec. split.
    + intros [t Ht]. now exists "", t.
    + intros [pre [post H]]. destruct pre; simpl in H.
      * now exists post.
      * discriminate.
  - cbn [Str.includes]. rewrite orb_true_iff, startsWith_spec, IH. split.
    + intros [[t Ht] | [pre [post Ht]]].
      * now exists "", t.
      * exists (String c pre), post. simpl. now rewrite Ht.
    + intros [pre [post H]]. destruct pre as [|d pre]; simpl in H.
      * left. now exists post.
      * right. injection H as _ H. now exists pre, post.
Qed.

Lemma substring_split (m : nat) (s : string) :
  (m <= String.length s)%nat ->
  s = String.substring 0 m s ++ String.substring m (String.length s - m) s.
Proof.
  revert m; induction s as [|c s IH]; intros m Hm; simpl in Hm.
  - assert (m = 0)%nat by lia. subst. reflexivity.
  - destruct m as [|m].
    + simpl. f_equal. clear. induction s as [|d s IHs]; simpl; [reflexivity|].
      now rewrite <- IHs.
    + simpl. f_equal. apply IH. lia.
Qed.

Lemma endsWith_suffix (s suffix : string) :
  Str.endsWith s suffix = true -> exists pre, s = pre ++ suffix.
Proof.
  unfold Str.endsWith. intros H. apply andb_true_iff in H as [Hle Heq].
  apply Nat.leb_le in Hle. apply String.eqb_eq in Heq.
  exists (String.substring 0 (String.length s - String.length suffix) s).
  pose proof (substring_split (String.length s - String.length suffix) s) as Hs.
  replace (String.length s - (String.length s - String.length suffix))%nat
    with (String.length suffix) in Hs by lia.
  rewrite Heq in Hs. apply Hs. lia.
Qed.

Lemma append_nil_r (s : string) : s ++ "" = s.
Proof. induction s; simpl; congruence. Qed.


(** ** Stream classification *)

(** C2, as stated, fails: a video whose source location carries the
    extension before a query string is classified as a stream, although its
    file type is not [stream] and its location does not end with [.m3u8]. *)
Lemma C2_counterexample :
  AssetDownloader.isStream tokenised_stream = true
  /\ Asset.filetype tokenised_stream <> "stream"
  /\ Str.endsWith (Asset.filepath tokenised_stream) ".m3u8" = false
  /\ spec_isStream tokenised_stream = false.
Proof. repeat split; try reflexivity. discriminate. Qed.

(** C2, amended: an asset is classified as a stream exactly when its file
    type is [stream] or its source location contains [.m3u8] anywhere;
    either condition alone suffices, a location that ends with [.m3u8] is a
    special case, the complementary test the downloader uses for files is
    the negation, and the compiler records the same classification in the
    presentation-ready asset. *)
Theorem C2_stream_classification (asset : Asset.t) :
  (AssetDownloader.isStream asset = true <->
   (Asset.filetype asset = "stream"
    \/ exists pre post, Asset.filepath asset = pre ++ ".m3u8" ++ post))
  /\ (Str.endsWith (Asset.filepath asset) ".m3u8" = true ->
      AssetDownloader.isStream asset = true)
  /\ AssetDownloader.isDownloadable asset = negb (AssetDownloader.isStream asset)
  /\ (forall results w,
        AssetDownloader.toWebviewAsset results asset = Some w ->
        WebviewAsset.isStream w = AssetDownloader.isStream asset).
Proof.
  unfold AssetDownloader.isStream, AssetDownloader.isDownloadable.
  repeat split.
  - intros H. apply orb_true_iff in H as [H | H].
    + left. now apply String.eqb_eq.
    + right. now apply includes_spec.
  - intros [H | H]; apply orb_true_iff.
    + left. now apply String.eqb_eq.
    + right. now apply includes_spec.
  - intros H. apply endsWith_suffix in H as [pre Hpre].
    apply orb_true_iff. right. apply includes_spec.
    exists pre, "". now rewrite append_nil_r.
  - now rewrite negb_orb.
  - intros results w. unfold AssetDownloader.toWebviewAsset.
    destruct (List.find _ results); [|discriminate].
    intros H. injection H as <-. reflexivity.
Qed.

(** ** Sorting by a numeric key *)

Section SortPermutation.
Context {A : Type}.
Variable compare : A -> A -> number.

Lemma insert_perm (x : A) (l : list A) :
  Permutation (x :: l) (insert compare x l).
Proof.
  induction l as [|y l IH]; simpl.
  - reflexivity.
  - destruct (precedes compare x y).
    + reflexivity.
    + rewrite perm_swap. now constructor.
Qed.

Lemma fold_insert_perm (l acc : list A) :
  Permutation (acc ++ l)
    (List.fold_left (fun acc x => insert compare x acc) l acc).
Proof.
  revert acc; induction l as [|x l IH]; intros acc; simpl.
  - now rewrite app_nil_r.
  - rewrite <- IH. rewrite <- insert_perm. symmetry. apply Permutation_middle.
Qed.

Lemma sort_perm (l : list A) : Permutation l (sort compare l).
Proof. exact (fold_insert_perm l []). Qed.

Lemma In_sort (x : A) (l : list A) : In x (sort compare l) <-> In x l.
Proof.
  split; intros Hin.
  - eapply Permutation_in; [symmetry; apply sort_perm | exact Hin].
  - eapply Permutation_in; [apply sort_perm | exact Hin].
Qed.

End SortPermutation.

Section SortFacts.
Context {A : Type}.
Variable key : A -> number.

Let compare (a b : A) : number := Number.sub (key a) (key b).

Local Abbreviation key_le := (key_le key).
Local Abbreviation has_key := (has_key key).
Local Abbreviation integer_keys := (integer_keys key).

Lemma precedes_false_le (x y : A) :
  Number.is_integer (key x) -> Number.is_integer (key y) ->
  precedes compare x y = false -> key_le y x.
Proof.
  intros [a Ha] [b Hb]. unfold precedes, compare, key_le. rewrite Ha, Hb. simpl.
  intros H. apply Z.ltb_ge in H. apply Z.leb_le. lia.
Qed.

Lemma precedes_true_lt (x y : A) :
  precedes compare x y = true ->
  exists a b, key x = Num a /\ key y = Num b /\ a < b.
Proof.
  unfold precedes, compare. destruct (key x) as [|a], (key y) as [|b];
    simpl; try discriminate.
  intros H. apply Z.ltb_lt in H. exists a, b. repeat split; lia.
Qed.

Lemma key_le_trans (x y z : A) : key_le x y -> key_le y z -> key_le x z.
Proof.
  unfold key_le. destruct (key x), (key y), (key z); simpl; try discriminate.
  rewrite !Z.leb_le. lia.
Qed.

Lemma insert_sorted (x : A) (l : list A) :
  integer_keys (x :: l) ->
  StronglySorted key_le l -> StronglySorted key_le (insert compare x l).
Proof.
  intros Hint Hs. induction Hs as [|y l Hs IH Hy]; simpl.
  - constructor; constructor.
  - inversion Hint as [|? ? Hx Hyl]; subst. inversion Hyl as [|? ? Hky Hl]; subst.
    destruct (precedes compare x y) eqn:Hp.
    + constructor. { now constructor. }
      apply precedes_true_lt in Hp as [a [b [Ha [Hb Hab]]]].
      assert (Hxy : key_le x y).
      { unfold key_le. rewrite Ha, Hb. simpl. apply Z.leb_le. lia. }
      constructor; [exact Hxy|].
      eapply Forall_impl; [|exact Hy]. intros z Hz. eapply key_le_trans; eauto.
    + constructor.
      * apply IH. now constructor.
      * rewrite <- insert_perm. constructor; [|exact Hy].
        now apply precedes_false_le.
Qed.

Lemma fold_insert_sorted (l acc : list A) :
  integer_keys (acc ++ l) -> StronglySorted key_le acc ->
  StronglySorted key_le
    (List.fold_left (fun acc x => insert compare x acc) l acc).
Proof.
  revert acc; induction l as [|x l IH]; intros acc Hint Hs; simpl.
  - exact Hs.
  - apply IH.
    + unfold integer_keys in *. rewrite <- insert_perm.
      eapply Permutation_Forall; [|exact Hint].
      symmetry. apply Permutation_middle.
    + apply insert_sorted; [|exact Hs].
      unfold integer_keys in *. apply Forall_app in Hint as [Ha Hl].
      inversion Hl; subst. now constructor.
Qed.

Lemma sort_sorted (l : list A) :
  integer_keys l -> StronglySorted key_le (sort compare l).
Proof. intros H. apply fold_insert_sorted; [exact H | constructor]. Qed.

(** Stability: a new element goes behind the elements of its own key. *)
Lemma insert_stable (k : Z) (x : A) (l : list A) :
  StronglySorted key_le l ->
  List.filter (has_key k) (insert compare x l)
  = (List.filter (has_key k) l ++ List.filter (has_key k) [x])%list.
Proof.
  intros Hs. induction Hs as [|y l Hs IH Hy]; simpl.
  - reflexivity.
  - destruct (precedes compare x y) eqn:Hp.
    + pose proof (precedes_true_lt _ _ Hp) as [a [b [Ha [Hb Hab]]]].
      simpl. destruct (has_key k x) eqn:Hkx; [|now rewrite app_nil_r].
      assert (Hk : a = k).
      { unfold has_key in Hkx. rewrite Ha in Hkx. now apply Z.eqb_eq. }
      subst a.
      assert (Hy0 : has_key k y = false).
      { unfold has_key. rewrite Hb. apply Z.eqb_neq. lia. }
      assert (Hl0 : List.filter (has_key k) l = []).
      { clear IH Hs Hp. induction Hy as [|z l Hz Hy IHy]; simpl; [reflexivity|].
        rewrite IHy. unfold key_le in Hz. rewrite Hb in Hz.
        unfold has_key. destruct (key z) as [|c]; [reflexivity|].
        simpl in Hz. apply Z.leb_le in Hz.
        destruct (c =? k) eqn:E; [apply Z.eqb_eq in E; lia | reflexivity]. }
      rewrite Hy0, Hl0. reflexivity.
    + simpl. rewrite IH. simpl. destruct (has_key k y); reflexivity.
Qed.

Lemma fold_insert_stable (k : Z) (l acc : list A) :
  integer_keys (acc ++ l) -> StronglySorted key_le acc ->
  List.filter (has_key k)
    (List.fold_left (fun acc x => insert compare x acc) l acc)
  = (List.filter (has_key k) acc ++ List.filter (has_key k) l)%list.
Proof.
  revert acc; induction l as [|x l IH]; intros acc Hint Hs; simpl.
  - now rewrite app_nil_r.
  - assert (Hint' : integer_keys (insert compare x acc ++ l)).
    { unfold integer_keys in *. rewrite <- insert_perm.
      eapply Permutation_Forall; [|exact Hint].
      symmetry. apply Permutation_middle. }
    assert (Hxacc : integer_keys (x :: acc)).
    { unfold integer_keys in *. apply Forall_app in Hint as [Ha Hl].
      inversion Hl; subst. now constructor. }
    rewrite IH; [|exact Hint'|now apply insert_sorted].
    rewrite insert_stable by exact Hs. simpl.
    rewrite <- app_assoc. f_equal.
    destruct (has_key k x); reflexivity.
Qed.

Lemma sort_stable (k : Z) (l : list A) :
  integer_keys l ->
  List.filter (has_key k) (sort compare l) = List.filter (has_key k) l.
Proof. intros H. apply (fold_insert_stable k l []); [exact H | constructor]. Qed.


End SortFacts.

(** ** [parseInt] *)












(** ** The playlist compiler *)

Lemma In_filter_non_null {A B} (f : A -> option B) (l : list A) (y : B) :
  In y (filter_non_null (List.map f l)) <-> exists x, In x l /\ f x = Some y.
Proof.
  induction l as [|a l IH]; simpl.
  - split; [intros [] | intros [x [[] _]]].
  - destruct (f a) as [b|] eqn:Hfa; simpl; rewrite IH; split.
    + intros [<- | [x [Hx Hfx]]]; [exists a | exists x]; auto.
    + intros [x [[<- | Hx] Hfx]].
      * left. congruence.
      * right. now exists x.
    + intros [x [Hx Hfx]]. exists x. auto.
    + intros [x [[<- | Hx] Hfx]]; [congruence | now exists x].
Qed.

Lemma In_cycles (apiResponse : ApiResponse.t) (results : list DownloadResult.t)
    (cycle : PlaylistCycle.t) :
  In cycle (AssetDownloader.preparePlaylistsForCycling apiResponse results) <->
  exists playlist,
    In playlist (ApiResponse.playlists apiResponse)
    /\ cycle = AssetDownloader.toPlaylistCycle results playlist
    /\ PlaylistCycle.assets cycle <> [].
Proof.
  unfold AssetDownloader.preparePlaylistsForCycling.
  rewrite filter_In, in_map_iff. split.
  - intros [[playlist [<- Hin]] Hlen]. exists playlist. repeat split; auto.
    intros E. rewrite E in Hlen. discriminate.
  - intros [playlist [Hin [-> Hne]]]. split; [now exists playlist|].
    destruct (PlaylistCycle.assets _); [contradiction | reflexivity].
Qed.

Lemma find_all_failed (results : list DownloadResult.t) (playlist : Playlist.t)
    (asset : Asset.t) :
  all_failed results playlist -> In asset (Playlist.assets playlist) ->
  AssetDownloader.toWebviewAsset results asset = None.
Proof.
  intros Hall Hin. unfold AssetDownloader.toWebviewAsset.
  destruct (List.find _ results) as [r|] eqn:Hfind; [|reflexivity].
  apply find_some in Hfind as [Hr Htest].
  apply andb_true_iff in Htest as [Hid Hok]. apply String.eqb_eq in Hid.
  rewrite (Hall asset r Hin Hr Hid) in Hok. discriminate.
Qed.

Lemma all_failed_no_assets (results : list DownloadResult.t)
    (playlist : Playlist.t) :
  all_failed results playlist ->
  PlaylistCycle.assets (AssetDownloader.toPlaylistCycle results playlist) = [].
Proof.
  intros Hall. simpl.
  destruct (sort _ _) as [|w l] eqn:Hs; [reflexivity|].
  assert (Hin : In w (sort AssetDownloader.by_playing_order
                        (filter_non_null
                           (List.map (AssetDownloader.toWebviewAsset results)
                              (Playlist.assets playlist))))).
  { rewrite Hs. now left. }
  apply In_sort, In_filter_non_null in Hin as [asset [Hin Hw]].
  rewrite (find_all_failed results playlist asset Hall Hin) in Hw. discriminate.
Qed.






(** The lobby playlist compiles to the video, then the image, 15 s in all. *)
Example lobby_cycle_value :
  List.map WebviewAsset.id (PlaylistCycle.assets lobby_cycle) = ["a2"; "a1"]
  /\ PlaylistCycle.totalCycleDuration lobby_cycle = Num 15.
Proof. split; reflexivity. Qed.

(** Its two durations are summed within the safe range. *)
Example lobby_cycle_durations :
  List.map WebviewAsset.displayTime (PlaylistCycle.assets lobby_cycle)
  = List.map Num [10; 5]
  /\ safely_summed [10; 5]
  /\ sum_Z [10; 5] = 15.
Proof.
  split; [reflexivity|]. split; [|reflexivity].
  unfold safely_summed, max_safe_integer. cbn. lia.
Qed.

(** C7: every compiled cycle has at least one asset, and a playlist whose
    every asset failed to fetch contributes no cycle: the compiler's output
    is what it would be without that playlist. *)
Theorem C7_no_empty_cycle
    (functions : Functions.t) (results : list DownloadResult.t) :
  (forall playlists,
     Forall (fun cycle => (1 <= List.length (PlaylistCycle.assets cycle))%nat)
       (AssetDownloader.preparePlaylistsForCycling
          (ApiResponse.mk functions playlists) results))
  /\ (forall before playlist after,
        all_failed results playlist ->
        AssetDownloader.preparePlaylistsForCycling
          (ApiResponse.mk functions (before ++ playlist :: after)) results
        = AssetDownloader.preparePlaylistsForCycling
            (ApiResponse.mk functions (before ++ after)) results).
Proof.
  split.
  - intros playlists. apply Forall_forall. intros cycle Hin.
    apply In_cycles in Hin as [_ [_ [_ Hne]]].
    destruct (PlaylistCycle.assets cycle); [contradiction | simpl; lia].
  - intros before playlist after Hall.
    unfold AssetDownloader.preparePlaylistsForCycling.
    cbn [ApiResponse.playlists].
    rewrite !map_app, !filter_app. f_equal. cbn [List.map List.filter].
    now rewrite (all_failed_no_assets results playlist Hall).
Qed.

(** A playlist none of whose assets was fetched compiles to nothing. *)
Example lobby_all_failed :
  AssetDownloader.preparePlaylistsForCycling lobby_manifest
    [ not_fetched welcome_image "HTTP error! status: 404";
      not_fetched promo_video "HTTP error! status: 500" ]
  = [].
Proof. reflexivity. Qed.




(** The strings of the promo video are numerals that are read exactly;
    a numeral of sixteen digits is no longer claimed to be. *)
Example promo_numerals :
  unsigned_numeral (Asset.time promo_video) = true
  /\ exactly_read (Asset.time promo_video)
  /\ numeral (Asset.playing_order promo_video) = true
  /\ exactly_read (Asset.playing_order promo_video)
  /\ digits_read "  +007 seconds" = 3%nat
  /\ ~ exactly_read "9007199254740993".
Proof.
  unfold exactly_read.
  split; [reflexivity|]. split; [vm_compute; lia|].
  split; [reflexivity|]. split; [vm_compute; lia|].
  split; [reflexivity|]. vm_compute. lia.
Qed.

(** ** Traces *)

Lemma sleeps_app (a b : list event) : sleeps (a ++ b) = (sleeps a ++ sleeps b)%list.
Proof.
  induction a as [|e a IH]; simpl; [reflexivity|].
  destruct e; simpl; now rewrite IH.
Qed.

Lemma writes_app (a b : list event) : writes (a ++ b) = (writes a ++ writes b)%list.
Proof.
  induction a as [|e a IH]; simpl; [reflexivity|].
  destruct e; simpl; now rewrite IH.
Qed.

Lemma fetches_app (a b : list event) :
  fetches (a ++ b) = (fetches a ++ fetches b)%list.
Proof.
  induction a as [|e a IH]; simpl; [reflexivity|].
  destruct e; simpl; now rewrite IH.
Qed.

Lemma sleeps_notified (l : list notification) : sleeps (List.map Notified l) = [].
Proof. induction l; simpl; auto. Qed.

Lemma writes_notified (l : list notification) : writes (List.map Notified l) = [].
Proof. induction l; simpl; auto. Qed.

Lemma fetches_notified (l : list notification) : fetches (List.map Notified l) = [].
Proof. induction l; simpl; auto. Qed.

(** ** Runs *)

Section Runs.
Context {P : Platform}.

Lemma bind_emit_all {B} (evs : list event) (k : unit -> M B) (w : world) :
  bind (emit_all evs) k w = prepend evs (k tt w).
Proof. reflexivity. Qed.

Lemma bind_console {B} (level : console_level) (tag : string)
    (args : list string) (k : unit -> M B) (w : world) :
  bind (console level tag args) k w = prepend [Console level tag args] (k tt w).
Proof. reflexivity. Qed.

Lemma bind_sleep {B} (ms : Z) (k : unit -> M B) (w : world) :
  bind (sleep ms) k w = prepend [Slept ms] (k tt w).
Proof. reflexivity. Qed.

Lemma bind_invoke {A B} (cb : callback A) (x : A) (k : unit -> M B) (w : world) :
  bind (invoke cb x) k w = prepend (notes cb x) (k tt w).
Proof. destruct cb; reflexivity. Qed.

Lemma bind_returns {A B} (m : M A) (k : A -> M B) (w : world) (a : A) :
  Run.result (m w) = Return a ->
  bind m k w = prepend (Run.trace (m w)) (k a (Run.final (m w))).
Proof. intros H. unfold bind. now rewrite H. Qed.

Lemma bind_throws {A B} (m : M A) (k : A -> M B) (w : world) (e : thrown) :
  Run.result (m w) = Throw e ->
  bind m k w = Run.mk (Run.final (m w)) (Run.trace (m w)) (Throw e).
Proof. intros H. unfold bind. now rewrite H. Qed.

Lemma try_returns {A} (m : M A) (h : thrown -> M A) (w : world) (a : A) :
  Run.result (m w) = Return a -> try_catch m h w = m w.
Proof. intros H. unfold try_catch. now rewrite H. Qed.

Lemma try_throws {A} (m : M A) (h : thrown -> M A) (w : world) (e : thrown) :
  Run.result (m w) = Throw e ->
  try_catch m h w = prepend (Run.trace (m w)) (h e (Run.final (m w))).
Proof. intros H. unfold try_catch. now rewrite H. Qed.

Lemma bind_ret {A B} (a : A) (k : A -> M B) (w : world) :
  bind (ret a) k w = prepend [] (k a w).
Proof. reflexivity. Qed.

Lemma bind_call {A B} (record : outcome A -> list event)
    (op : world -> world * outcome A) (k : A -> M B) (w : world) :
  bind (call record op) k w
  = match snd (op w) with
    | Return a => prepend (record (Return a)) (k a (fst (op w)))
    | Throw e => Run.mk (fst (op w)) (record (Throw e)) (Throw e)
    end.
Proof.
  unfold bind, call. destruct (op w) as [w' [a|e]]; reflexivity.
Qed.

Lemma bind_of_outcome {A B} (o : outcome A) (k : A -> M B) (w : world) :
  bind (of_outcome o) k w
  = match o with
    | Return a => prepend [] (k a w)
    | Throw e => Run.mk w [] (Throw e)
    end.
Proof. destruct o; reflexivity. Qed.

Lemma bind_read {A B} (f : world -> A) (k : A -> M B) (w : world) :
  bind (read f) k w = prepend [] (k (f w) w).
Proof. reflexivity. Qed.

Lemma bind_throw {A B} (e : thrown) (k : A -> M B) (w : world) :
  bind (throw e) k w = Run.mk w [] (Throw e).
Proof. reflexivity. Qed.

Lemma prepend_result {A} (evs : list event) (r : Run.t world A) :
  Run.result (prepend evs r) = Run.result r.
Proof. reflexivity. Qed.

Lemma prepend_trace {A} (evs : list event) (r : Run.t world A) :
  Run.trace (prepend evs r) = (evs ++ Run.trace r)%list.
Proof. reflexivity. Qed.

Lemma prepend_final {A} (evs : list event) (r : Run.t world A) :
  Run.final (prepend evs r) = Run.final r.
Proof. reflexivity. Qed.

Lemma sleeps_notes {A} (cb : callback A) (x : A) : sleeps (notes cb x) = [].
Proof. destruct cb; simpl; [apply sleeps_notified | reflexivity]. Qed.

Lemma writes_notes {A} (cb : callback A) (x : A) : writes (notes cb x) = [].
Proof. destruct cb; simpl; [apply writes_notified | reflexivity]. Qed.

Lemma fetches_notes {A} (cb : callback A) (x : A) : fetches (notes cb x) = [].
Proof. destruct cb; simpl; [apply fetches_notified | reflexivity]. Qed.

End Runs.

Create Rewrite HintDb run_db.
Create Rewrite HintDb trace_db.
#[local] Hint Rewrite @prepend_result @prepend_trace @prepend_final : run_db.
#[local] Hint Rewrite sleeps_app writes_app fetches_app
  sleeps_notified writes_notified fetches_notified
  @sleeps_notes @writes_notes @fetches_notes : trace_db.

Ltac read_trace :=
  autorewrite with run_db trace_db; cbn [sleeps writes fetches app].

(** ** One attempt *)

Section Attempt.
Context {P : Platform}.
Variable assetsDir : string.
Variables (asset : Asset.t) (attempt retries : nat).
Variable onProgress : callback DownloadProgress.t.

(** The existence probe, failures logged and dropped. *)
Lemma probe_run (w : world) :
  let run :=
    try_catch
      (response <- call (always (Fetched (Asset.filepath asset) HEAD))
                        (fetch (Asset.filepath asset) HEAD) ;;
       if negb (Response.ok response)
       then throw (Error ("Stream not accessible: "
                          ++ Str.of_Z (Response.status response)))
       else ret tt)
      (fun error =>
         console level_warn "Stream validation failed"
           [Asset.name asset; thrown_text error]) w in
  Run.result run = Return tt
  /\ fetches (Run.trace run) = [(Asset.filepath asset, HEAD)]
  /\ writes (Run.trace run) = []
  /\ sleeps (Run.trace run) = [].
Proof.
  unfold try_catch, bind, call, always, console, emit, throw, ret.
  destruct (fetch (Asset.filepath asset) HEAD w) as [w' [response|e]];
    cbn [Run.result Run.trace Run.final];
    [destruct (Response.ok response); cbn [negb Run.result Run.trace Run.final]|];
    repeat split.
Qed.

Lemma try_stream (w : world) :
  AssetDownloader.isStream asset = true ->
  let run :=
    AssetDownloader.downloadAsset_try assetsDir asset attempt retries
      onProgress w in
  Run.result run
  = Return (DownloadResult.mk asset true None (Some (Asset.filepath asset)))
  /\ fetches (Run.trace run) = [(Asset.filepath asset, HEAD)]
  /\ writes (Run.trace run) = []
  /\ sleeps (Run.trace run) = [].
Proof.
  intros Hs. unfold AssetDownloader.downloadAsset_try. rewrite Hs.
  destruct (probe_run w) as [Hr [Hf [Hw Hz]]].
  rewrite bind_console, bind_invoke, bind_console.
  rewrite (bind_returns _ _ _ tt Hr), bind_invoke.
  cbv zeta. read_trace. rewrite Hf, Hw, Hz. repeat split.
Qed.

Lemma try_file (w : world) :
  AssetDownloader.isStream asset = false ->
  let run :=
    AssetDownloader.downloadAsset_try assetsDir asset attempt retries
      onProgress w in
  fetches (Run.trace run) = [(Asset.filepath asset, GET)]
  /\ sleeps (Run.trace run) = []
  /\ match Run.result run with
     | Return r =>
         exists filename,
           AssetDownloader.generateSafeFilename asset = Return filename
           /\ r = DownloadResult.mk asset true None
                    (Some (path_join assetsDir filename))
           /\ writes (Run.trace run) = [path_join assetsDir filename]
     | Throw _ => writes (Run.trace run) = []
     end.
Proof.
  intros Hs. unfold AssetDownloader.downloadAsset_try. rewrite Hs.
  rewrite bind_console, bind_invoke. cbv zeta. rewrite bind_call.
  destruct (fetch (Asset.filepath asset) GET w) as [w1 [response|e]];
    cbn [fst snd]; [|read_trace; repeat split].
  destruct (Response.ok response); cbn [negb];
    [|rewrite bind_throw; read_trace; repeat split].
  rewrite bind_ret, bind_of_outcome.
  destruct (AssetDownloader.generateSafeFilename asset) as [filename|e];
    [|read_trace; repeat split].
  rewrite bind_of_outcome.
  destruct (Response.arrayBuffer response) as [buffer|e];
    [|read_trace; repeat split].
  rewrite bind_call.
  destruct (fs_writeFileSync (path_join assetsDir filename) buffer w1)
    as [w2 [[]|e]];
    cbn [fst snd]; [|read_trace; repeat split].
  rewrite bind_console, bind_invoke. unfold ret, always, on_return.
  read_trace. repeat split. exists filename. repeat split.
Qed.

(** An attempt never waits, whatever the asset. *)
Lemma try_sleeps (w : world) :
  sleeps
    (Run.trace
       (AssetDownloader.downloadAsset_try assetsDir asset attempt retries
          onProgress w))
  = [].
Proof.
  destruct (AssetDownloader.isStream asset) eqn:Hs.
  - now destruct (try_stream w Hs) as [_ [_ [_ H]]].
  - now destruct (try_file w Hs) as [_ [H _]].
Qed.

(** An attempt that returns returns a success for its asset. *)
Lemma try_result (w : world) (r : DownloadResult.t) :
  Run.result
    (AssetDownloader.downloadAsset_try assetsDir asset attempt retries
       onProgress w)
  = Return r ->
  DownloadResult.asset r = asset /\ DownloadResult.success r = true.
Proof.
  destruct (AssetDownloader.isStream asset) eqn:Hs.
  - destruct (try_stream w Hs) as [H _]. cbv zeta in H. rewrite H.
    intros E. injection E as <-. now split.
  - destruct (try_file w Hs) as [_ [_ H]]. cbv zeta in H. intros E.
    rewrite E in H. destruct H as [filename [_ [-> _]]]. now split.
Qed.

End Attempt.

(** ** The retry loop *)

Section Retry.
Context {P : Platform}.
Variable assetsDir : string.
Variables (asset : Asset.t) (retries : nat).
Variable onProgress : callback DownloadProgress.t.

Local Abbreviation attempt_ :=
  (AssetDownloader.downloadAsset_try assetsDir asset).
Local Abbreviation loop_ :=
  (AssetDownloader.downloadAsset_loop assetsDir asset retries onProgress).

Lemma run_eq {A} (r : Run.t world A) w tr o :
  Run.final r = w -> Run.trace r = tr -> Run.result r = o -> r = Run.mk w tr o.
Proof. destruct r; simpl; intros; subst; reflexivity. Qed.

Lemma catch_last (attempt : nat) (e : thrown) (w : world) :
  attempt = retries ->
  AssetDownloader.downloadAsset_catch asset attempt retries onProgress e w
  = Run.mk w
      (Console level_error "Failed to process"
         [Asset.name asset; Str.of_nat retries; message_or "Unknown error" e]
       :: notes onProgress (DownloadProgress.mk 0 0 asset failed))
      (Return (Some (DownloadResult.mk asset false
                       (Some (message_or "Unknown error" e)) None))).
Proof.
  intros ->. unfold AssetDownloader.downloadAsset_catch.
  rewrite Nat.eqb_refl. cbv zeta. rewrite bind_console, bind_invoke.
  apply run_eq; read_trace; try reflexivity.
  unfold ret. cbn [Run.trace]. now rewrite app_nil_r.
Qed.

Lemma catch_retry (attempt : nat) (e : thrown) (w : world) :
  attempt <> retries ->
  AssetDownloader.downloadAsset_catch asset attempt retries onProgress e w
  = Run.mk w
      [Console level_warn "Attempt failed"
         [Str.of_nat attempt; Asset.name asset; message_or "Unknown error" e];
       Slept (backoff_ms attempt)]
      (Return None).
Proof.
  intros Hne. unfold AssetDownloader.downloadAsset_catch.
  apply Nat.eqb_neq in Hne. rewrite Hne. cbv zeta.
  rewrite bind_console, bind_sleep. reflexivity.
Qed.

(** One iteration of the loop, by the outcome of its attempt. *)
Lemma loop_step_returns (remaining attempt : nat) (w : world)
    (r : DownloadResult.t) :
  Run.result (attempt_ attempt retries onProgress w) = Return r ->
  loop_ (S remaining) attempt w
  = Run.mk (Run.final (attempt_ attempt retries onProgress w))
      (Run.trace (attempt_ attempt retries onProgress w)) (Return r).
Proof.
  intros Hr. cbn [AssetDownloader.downloadAsset_loop].
  assert (Hb : Run.result
                 (bind (attempt_ attempt retries onProgress)
                    (fun result => ret (Some result)) w)
               = Return (Some r)).
  { now rewrite (bind_returns _ _ _ r Hr). }
  rewrite (bind_returns _ _ _ (Some r)); [|now rewrite (try_returns _ _ _ _ Hb)].
  rewrite (try_returns _ _ _ _ Hb), (bind_returns _ _ _ r Hr).
  apply run_eq; read_trace; try reflexivity.
  unfold ret. cbn [Run.trace]. now rewrite !app_nil_r.
Qed.

Lemma loop_step_throws (remaining attempt : nat) (w : world) (e : thrown) :
  Run.result (attempt_ attempt retries onProgress w) = Throw e ->
  let run := attempt_ attempt retries onProgress w in
  loop_ (S remaining) attempt w
  = if Nat.eqb attempt retries then
      Run.mk (Run.final run)
        (Run.trace run
         ++ Console level_error "Failed to process"
              [Asset.name asset; Str.of_nat retries;
               message_or "Unknown error" e]
         :: notes onProgress (DownloadProgress.mk 0 0 asset failed))
        (Return (DownloadResult.mk asset false
                   (Some (message_or "Unknown error" e)) None))
    else
      prepend
        (Run.trace run
         ++ [Console level_warn "Attempt failed"
               [Str.of_nat attempt; Asset.name asset;
                message_or "Unknown error" e];
             Slept (backoff_ms attempt)])
        (loop_ remaining (S attempt) (Run.final run)).
Proof.
  intros Hr run. cbn [AssetDownloader.downloadAsset_loop].
  assert (Hb : Run.result
                 (bind (attempt_ attempt retries onProgress)
                    (fun result => ret (Some result)) w)
               = Throw e).
  { now rewrite (bind_throws _ _ _ e Hr). }
  assert (Ht : try_catch
                 (bind (attempt_ attempt retries onProgress)
                    (fun result => ret (Some result)))
                 (AssetDownloader.downloadAsset_catch asset attempt retries
                    onProgress) w
               = prepend (Run.trace run)
                   (AssetDownloader.downloadAsset_catch asset attempt retries
                      onProgress e (Run.final run))).
  { rewrite (try_throws _ _ _ _ Hb), (bind_throws _ _ _ e Hr). reflexivity. }
  destruct (Nat.eqb attempt retries) eqn:Heq.
  - apply Nat.eqb_eq in Heq.
    rewrite (bind_returns _ _ _
               (Some (DownloadResult.mk asset false
                        (Some (message_or "Unknown error" e)) None)));
      rewrite Ht, (catch_last _ _ _ Heq); [|reflexivity].
    apply run_eq; read_trace; try reflexivity.
    unfold ret. cbn [Run.trace]. now rewrite !app_nil_r.
  - apply Nat.eqb_neq in Heq.
    rewrite (bind_returns _ _ _ None);
      rewrite Ht, (catch_retry _ _ _ Heq); [|reflexivity].
    apply run_eq; read_trace; reflexivity.
Qed.

(** The loop follows the retry policy. *)
Lemma loop_retry_run (remaining attempt : nat) (w : world) :
  (remaining + attempt = retries + 1)%nat -> (1 <= remaining)%nat ->
  exists r,
    loop_ remaining attempt w
    = Run.mk (Run.final (loop_ remaining attempt w))
        (Run.trace (loop_ remaining attempt w)) (Return r)
    /\ retry_run assetsDir asset retries onProgress attempt w
         (Run.trace (loop_ remaining attempt w)) r
         (Run.final (loop_ remaining attempt w)).
Proof.
  revert attempt w. induction remaining as [|k IH]; intros attempt w Hsum Hk.
  - lia.
  - destruct (Run.result (attempt_ attempt retries onProgress w))
      as [r|e] eqn:Hr.
    + exists r. rewrite (loop_step_returns k attempt w r Hr).
      split; [reflexivity|]. cbn [Run.trace Run.final].
      now apply attempt_returns.
    + pose proof (loop_step_throws k attempt w e Hr) as Hstep.
      cbv zeta in Hstep. rewrite Hstep. clear Hstep.
      destruct (Nat.eqb attempt retries) eqn:Heq.
      * apply Nat.eqb_eq in Heq. subst attempt.
        eexists. split; [reflexivity|]. cbn [Run.trace Run.final].
        destruct onProgress; now apply last_attempt_fails.
      * apply Nat.eqb_neq in Heq.
        destruct (IH (S attempt)
                    (Run.final (attempt_ attempt retries onProgress w)))
          as [r [Heqr Hrun]]; [lia | lia |].
        exists r. split.
        -- rewrite Heqr at 1. reflexivity.
        -- read_trace. rewrite <- app_assoc. cbn [app].
           apply attempt_fails_retry; [lia | exact Hr | exact Hrun].
Qed.

End Retry.

Section Download.
Context {P : Platform}.
Variable assetsDir : string.
Variable onProgress : callback DownloadProgress.t.

Lemma retry_run_facts (asset : Asset.t) (retries attempt : nat) (w w' : world)
    (tr : list event) (r : DownloadResult.t) :
  retry_run assetsDir asset retries onProgress attempt w tr r w' ->
  (attempt <= retries)%nat ->
  DownloadResult.asset r = asset
  /\ (exists waits,
        (attempt + waits <= retries)%nat
        /\ sleeps tr = List.map backoff_ms (List.seq attempt waits)
        /\ (DownloadResult.success r = false ->
            (attempt + waits = retries)%nat))
  /\ (DownloadResult.success r = false ->
      exists w_last e,
        Run.result
          (AssetDownloader.downloadAsset_try assetsDir asset retries retries
             onProgress w_last) = Throw e
        /\ DownloadResult.error r = Some (message_or "Unknown error" e)
        /\ DownloadResult.localPath r = None).
Proof.
  induction 1 as [attempt w r run Hr | w e run Hr msg
                 | attempt w e tr r w' Hlt run Hr Hrest IH]; intros Hle.
  - destruct (try_result assetsDir asset attempt retries onProgress w r Hr)
      as [Ha Hs].
    split; [exact Ha|]. split.
    + exists 0%nat. repeat split; [lia | | rewrite Hs; discriminate].
      subst run. now rewrite try_sleeps.
    + rewrite Hs. discriminate.
  - split; [reflexivity|]. split.
    + exists 0%nat. repeat split; [lia | | lia].
      subst run. read_trace. rewrite try_sleeps.
      destruct onProgress; simpl; [apply sleeps_notified | reflexivity].
    + intros _. exists w, e. repeat split. exact Hr.
  - destruct IH as [Ha [[waits [Hw [Hs Hf]]] Hlast]]; [lia|].
    split; [exact Ha|]. split; [|exact Hlast].
    exists (S waits). repeat split; [lia | | intros Hfail; specialize (Hf Hfail); lia].
    subst run. read_trace. rewrite try_sleeps, Hs. reflexivity.
Qed.

(** [downloadAsset] returns, for every retry bound. *)
Lemma downloadAsset_returns (asset : Asset.t) (retries : nat) (w : world) :
  exists r,
    Run.result (AssetDownloader.downloadAsset assetsDir asset retries
                  onProgress w) = Return r
    /\ DownloadResult.asset r = asset.
Proof.
  unfold AssetDownloader.downloadAsset. destruct retries as [|k].
  - eexists. split; reflexivity.
  - destruct (loop_retry_run assetsDir asset (S k) onProgress (S k) 1 w)
      as [r [Heq Hrun]]; [lia | lia |].
    exists r. split; [now rewrite Heq|].
    eapply retry_run_facts; [exact Hrun | lia].
Qed.

End Download.

(** C4: for a stream-classified asset and a retry bound of at least one,
    [downloadAsset] returns a success whose local path is the original
    source location, whatever the probe answers; the call sends one
    header-only request, writes no file and never waits. *)
Theorem C4_stream_always_succeeds {P : Platform}
    (assetsDir : string) (asset : Asset.t) (retries : nat)
    (onProgress : callback DownloadProgress.t) (w : world) :
  AssetDownloader.isStream asset = true ->
  (1 <= retries)%nat ->
  let run :=
    AssetDownloader.downloadAsset assetsDir asset retries onProgress w in
  Run.result run
  = Return (DownloadResult.mk asset true None (Some (Asset.filepath asset)))
  /\ fetches (Run.trace run) = [(Asset.filepath asset, HEAD)]
  /\ writes (Run.trace run) = []
  /\ sleeps (Run.trace run) = [].
Proof.
  intros Hs Hn. destruct retries as [|k]; [lia|].
  destruct (try_stream assetsDir asset 1 (S k) onProgress w Hs)
    as [Hr Hrest].
  cbv zeta in *. unfold AssetDownloader.downloadAsset.
  rewrite (loop_step_returns assetsDir asset (S k) onProgress k 1 w _ Hr).
  cbn [Run.result Run.trace]. split; [reflexivity | exact Hrest].
Qed.

(** A stream whose probe is answered with 404 is an instance. *)
Lemma C4_witness :
  let w := Scripted.mk [Scripted.not_found] 0 in
  let run :=
    @AssetDownloader.downloadAsset Scripted.platform "assets/main"
      news_stream 3 None w in
  (AssetDownloader.isStream news_stream = true /\ (1 <= 3)%nat)
  /\ Run.result run
     = Return (DownloadResult.mk news_stream true None
                 (Some (Asset.filepath news_stream)))
  /\ fetches (Run.trace run) = [(Asset.filepath news_stream, HEAD)]
  /\ writes (Run.trace run) = []
  /\ sleeps (Run.trace run) = [].
Proof.
  split; [split; [reflexivity | lia]|].
  apply (@C4_stream_always_succeeds Scripted.platform "assets/main"
           news_stream 3 None (Scripted.mk [Scripted.not_found] 0)).
  - reflexivity.
  - lia.
Defined.

(** The probe of the witness is answered with 404, and logged. *)
Example probe_404_logged :
  console_calls "Stream validation failed"
    (Run.trace
       (@AssetDownloader.downloadAsset Scripted.platform "assets/main"
          news_stream 3 None (Scripted.mk [Scripted.not_found] 0)))
  = [["News"; "Error: Stream not accessible: 404"]].
Proof. reflexivity. Qed.

(** C5: for a retry bound of at least one, [downloadAsset] returns a
    result for its asset and never raises; its run follows the retry
    policy ([retry_run]): each failed attempt before the last is followed by
    a wait of [2^attempt] seconds and the next attempt, so the waits of the
    run are 2 s, 4 s, ... for the attempts that failed; and a failed result
    means that every attempt failed, all [retries - 1] waits were made, and
    the result carries the error message of the last attempt. *)
Theorem C5_retry_with_backoff {P : Platform}
    (assetsDir : string) (asset : Asset.t) (retries : nat)
    (onProgress : callback DownloadProgress.t) (w : world) :
  (1 <= retries)%nat ->
  let run :=
    AssetDownloader.downloadAsset assetsDir asset retries onProgress w in
  exists r,
    Run.result run = Return r
    /\ DownloadResult.asset r = asset
    /\ retry_run assetsDir asset retries onProgress 1 w
         (Run.trace run) r (Run.final run)
    /\ (exists waits,
          (waits <= retries - 1)%nat
          /\ sleeps (Run.trace run) = List.map backoff_ms (List.seq 1 waits)
          /\ (DownloadResult.success r = false -> waits = (retries - 1)%nat))
    /\ (DownloadResult.success r = false ->
        exists w_last e,
          Run.result
            (AssetDownloader.downloadAsset_try assetsDir asset retries retries
               onProgress w_last) = Throw e
          /\ DownloadResult.error r = Some (message_or "Unknown error" e)
          /\ DownloadResult.localPath r = None).
Proof.
  intros Hn. cbv zeta. unfold AssetDownloader.downloadAsset.
  destruct (loop_retry_run assetsDir asset retries onProgress retries 1 w)
    as [r [Heq Hrun]]; [lia | lia |].
  destruct (retry_run_facts assetsDir onProgress asset retries 1 _ _ _ _ Hrun)
    as [Ha [[waits [Hw [Hs Hf]]] Hlast]]; [lia|].
  exists r. split; [now rewrite Heq|]. split; [exact Ha|].
  split; [exact Hrun|]. split; [|exact Hlast].
  exists waits. repeat split; [lia | exact Hs |].
  intros Hfail. specialize (Hf Hfail). lia.
Qed.

(** An image whose three attempts are answered with 404, 500 and 500 is an
    instance. *)
Lemma C5_witness :
  (1 <= 3)%nat
  /\ let run :=
       @AssetDownloader.downloadAsset Scripted.platform "assets/main"
         welcome_image 3 None
         (Scripted.mk
            [Scripted.not_found; Scripted.server_error; Scripted.server_error]
            0) in
     exists r,
       Run.result run = Return r
       /\ DownloadResult.asset r = welcome_image
       /\ @retry_run Scripted.platform "assets/main" welcome_image 3 None 1
            (Scripted.mk
               [Scripted.not_found; Scripted.server_error;
                Scripted.server_error] 0)
            (Run.trace run) r (Run.final run)
       /\ (exists waits,
             (waits <= 3 - 1)%nat
             /\ sleeps (Run.trace run) = List.map backoff_ms (List.seq 1 waits)
             /\ (DownloadResult.success r = false -> waits = (3 - 1)%nat))
       /\ (DownloadResult.success r = false ->
           exists w_last e,
             Run.result
               (@AssetDownloader.downloadAsset_try Scripted.platform
                  "assets/main" welcome_image 3 3 None w_last) = Throw e
             /\ DownloadResult.error r = Some (message_or "Unknown error" e)
             /\ DownloadResult.localPath r = None).
Proof.
  split; [lia|].
  apply (@C5_retry_with_backoff Scripted.platform "assets/main"
           welcome_image 3 None). lia.
Defined.

(** Three failures in a row: waits of 2 s and 4 s, and the message of the
    third failure. *)
Example three_failures :
  let run :=
    @AssetDownloader.downloadAsset Scripted.platform "assets/main"
      welcome_image 3 None
      (Scripted.mk
         [Scripted.not_found; Scripted.server_error; Scripted.server_error] 0) in
  sleeps (Run.trace run) = [2000; 4000]
  /\ Run.result run
     = Return (DownloadResult.mk welcome_image false
                 (Some "HTTP error! status: 500") None).
Proof. split; reflexivity. Qed.

(** With a retry bound of zero the loop body never runs. *)
Example no_attempt :
  Run.result
    (@AssetDownloader.downloadAsset Scripted.platform "assets/main"
       news_stream 0 None (Scripted.mk [] 0))
  = Return (DownloadResult.mk news_stream false
              (Some "Unexpected error in retry loop") None).
Proof. reflexivity. Qed.

(** ** File names *)





Section Filename.
Context {P : Platform}.


End Filename.


Section DownloadedFile.
Context {P : Platform}.
Variable assetsDir : string.
Variable onProgress : callback DownloadProgress.t.

Lemma retry_run_file (asset : Asset.t) (retries attempt : nat) (w w' : world)
    (tr : list event) (r : DownloadResult.t) :
  retry_run assetsDir asset retries onProgress attempt w tr r w' ->
  AssetDownloader.isStream asset = false ->
  if DownloadResult.success r then
    exists filename,
      AssetDownloader.generateSafeFilename asset = Return filename
      /\ DownloadResult.localPath r = Some (path_join assetsDir filename)
      /\ writes tr = [path_join assetsDir filename]
  else writes tr = [].
Proof.
  intros Hrun Hs.
  induction Hrun as [attempt w r run Hr | w e run Hr msg
                    | attempt w e tr r w' Hlt run Hr Hrest IH].
  - destruct (try_file assetsDir asset attempt retries onProgress w Hs)
      as [_ [_ H]]. cbv zeta in H. fold run in H. rewrite Hr in H.
    destruct H as [filename [Hf [-> Hw]]]. cbn [DownloadResult.success].
    exists filename. repeat split; assumption.
  - cbn [DownloadResult.success].
    destruct (try_file assetsDir asset retries retries onProgress w Hs)
      as [_ [_ H]]. cbv zeta in H. fold run in H. rewrite Hr in H.
    read_trace. rewrite H.
    destruct onProgress; simpl; [apply writes_notified | reflexivity].
  - destruct (try_file assetsDir asset attempt retries onProgress w Hs)
      as [_ [_ H]]. cbv zeta in H. fold run in H. rewrite Hr in H.
    destruct (DownloadResult.success r).
    + destruct IH as [filename [Hf [Hl Hw]]]. exists filename.
      repeat split; try assumption. read_trace. now rewrite H, Hw.
    + read_trace. now rewrite H, IH.
Qed.

Lemma retry_run_stream (asset : Asset.t) (retries attempt : nat) (w w' : world)
    (tr : list event) (r : DownloadResult.t) :
  retry_run assetsDir asset retries onProgress attempt w tr r w' ->
  AssetDownloader.isStream asset = true ->
  writes tr = [].
Proof.
  intros Hrun Hs.
  destruct Hrun as [attempt w r run Hr | w e run Hr msg
                   | attempt w e tr r w' Hlt run Hr Hrest].
  - now destruct (try_stream assetsDir asset attempt retries onProgress w Hs)
      as [_ [_ [H _]]].
  - destruct (try_stream assetsDir asset retries retries onProgress w Hs)
      as [H _]. cbv zeta in H. fold run in H. congruence.
  - destruct (try_stream assetsDir asset attempt retries onProgress w Hs)
      as [H _]. cbv zeta in H. fold run in H. congruence.
Qed.

(** Every attempt sends one request. *)
Lemma retry_run_fetches (asset : Asset.t) (retries attempt : nat) (w w' : world)
    (tr : list event) (r : DownloadResult.t) :
  retry_run assetsDir asset retries onProgress attempt w tr r w' ->
  (attempt <= retries)%nat ->
  exists attempts,
    (1 <= attempts)%nat /\ (attempt + attempts <= retries + 1)%nat
    /\ fetches tr
       = List.repeat
           (Asset.filepath asset,
            if AssetDownloader.isStream asset then HEAD else GET)
           attempts.
Proof.
  assert (Hone : forall k w,
             fetches (Run.trace
                        (AssetDownloader.downloadAsset_try assetsDir asset k
                           retries onProgress w))
             = [(Asset.filepath asset,
                 if AssetDownloader.isStream asset then HEAD else GET)]).
  { intros k w0. destruct (AssetDownloader.isStream asset) eqn:Hs.
    - now destruct (try_stream assetsDir asset k retries onProgress w0 Hs)
        as [_ [H _]].
    - now destruct (try_file assetsDir asset k retries onProgress w0 Hs)
        as [H _]. }
  induction 1 as [attempt w r run Hr | w e run Hr msg
                 | attempt w e tr r w' Hlt run Hr Hrest IH]; intros Hle.
  - exists 1%nat. repeat split; [lia | lia | apply Hone].
  - exists 1%nat. repeat split; [lia | lia |].
    read_trace. subst run. rewrite Hone.
    destruct onProgress; simpl; [now rewrite fetches_notified | reflexivity].
  - destruct IH as [n [H1 [H2 Hf]]]; [lia|].
    exists (S n). repeat split; [lia | lia |].
    read_trace. subst run. rewrite Hone, Hf. reflexivity.
Qed.

End DownloadedFile.




(** File names of the samples: the URL segment is preferred when it holds
    a dot, the file type is matched in lower case, and an inherited
    property name is no file type. *)
Example sample_filenames :
  @AssetDownloader.generateSafeFilename Scripted.platform welcome_image
  = Return "a1_welcome.png"
  /\ @AssetDownloader.generateSafeFilename Scripted.platform
       (Asset.mk "9" "Jingle" "https://cdn.example.com/audio/9" "AUDIO" "1" "5")
     = Return "9_Jingle.mp3"
  /\ @AssetDownloader.generateSafeFilename Scripted.platform
       (Asset.mk "9" "Chart" "https://cdn.example.com/doc/9" "pdf" "1" "5")
     = Return "9_Chart.bin"
  /\ AssetDownloader.getExtensionFromFiletype "constructor" <> ".bin"
  /\ @AssetDownloader.generateSafeFilename Scripted.platform
       (Asset.mk "9" "Chart" "https://cdn.example.com/doc/9" "Constructor"
          "1" "5")
     = Return "9_Chartfunction Object() { [native code] }".
Proof. repeat split. discriminate. Qed.

(** ** The batch *)

Lemma isDownloadable_negb (asset : Asset.t) :
  AssetDownloader.isDownloadable asset = negb (AssetDownloader.isStream asset).
Proof.
  unfold AssetDownloader.isDownloadable, AssetDownloader.isStream.
  now rewrite negb_orb.
Qed.

Lemma count_app {A} (f : A -> bool) (a b : list A) :
  AssetDownloader.count f (a ++ b)
  = (AssetDownloader.count f a + AssetDownloader.count f b)%nat.
Proof.
  unfold AssetDownloader.count. now rewrite filter_app, length_app.
Qed.

Lemma count_flat_map {A B} (f : B -> bool) (g : A -> list B) (l : list A) :
  AssetDownloader.count f (List.flat_map g l)
  = list_sum (List.map (fun x => AssetDownloader.count f (g x)) l).
Proof.
  induction l as [|x l IH]; simpl; [reflexivity|].
  now rewrite count_app, IH.
Qed.

Lemma length_flat_map {A B} (g : A -> list B) (l : list A) :
  List.length (List.flat_map g l)
  = list_sum (List.map (fun x => List.length (g x)) l).
Proof.
  induction l as [|x l IH]; simpl; [reflexivity|].
  now rewrite length_app, IH.
Qed.

Lemma count_map {A B} (f : B -> bool) (g : A -> B) (l : list A) :
  AssetDownloader.count f (List.map g l)
  = AssetDownloader.count (fun x => f (g x)) l.
Proof.
  unfold AssetDownloader.count. induction l as [|x l IH]; simpl; [reflexivity|].
  destruct (f (g x)); simpl; now rewrite IH.
Qed.

Section Batch.
Context {P : Platform}.
Variable assetsDir : string.
Variable onProgress : callback DownloadProgress.t.

(** One call of [downloadAsset] with the retry bound of the batch. *)
Lemma downloadAsset_3 (asset : Asset.t) (w : world) :
  let run := AssetDownloader.downloadAsset assetsDir asset 3 onProgress w in
  exists r,
    Run.result run = Return r
    /\ DownloadResult.asset r = asset
    /\ writes (Run.trace run) = written r
    /\ (1 <= List.length (fetches (Run.trace run)) <= 3)%nat.
Proof.
  cbv zeta. unfold AssetDownloader.downloadAsset.
  destruct (loop_retry_run assetsDir asset 3 onProgress 3 1 w)
    as [r [Heq Hrun]]; [lia | lia |].
  destruct (retry_run_facts assetsDir onProgress asset 3 1 _ _ _ _ Hrun)
    as [Ha _]; [lia|].
  destruct (retry_run_fetches assetsDir onProgress asset 3 1 _ _ _ _ Hrun)
    as [n [H1 [H2 Hf]]]; [lia|].
  exists r. split; [now rewrite Heq|]. split; [exact Ha|]. split.
  - unfold written. rewrite Ha, isDownloadable_negb.
    destruct (AssetDownloader.isStream asset) eqn:Hs.
    + rewrite andb_false_r. eapply retry_run_stream; eassumption.
    + pose proof (retry_run_file assetsDir onProgress asset 3 1 _ _ _ _ Hrun Hs)
        as Hfile.
      destruct (DownloadResult.success r); cbn [andb negb]; [|exact Hfile].
      destruct Hfile as [filename [_ [-> Hw]]]. exact Hw.
  - rewrite Hf, repeat_length. lia.
Qed.

Lemma batch_loop (allAssets : list Asset.t) (acc : list DownloadResult.t)
    (w : world) :
  let run :=
    AssetDownloader.downloadAllAssets_loop assetsDir allAssets onProgress acc w in
  exists results,
    Run.result run = Return (acc ++ results)%list
    /\ batch_run assetsDir onProgress allAssets w
         (Run.trace run) results (Run.final run).
Proof.
  cbv zeta. revert acc w. induction allAssets as [|asset rest IH]; intros acc w.
  - exists []. cbn. rewrite app_nil_r. split; [reflexivity | constructor].
  - cbn [AssetDownloader.downloadAllAssets_loop].
    destruct (downloadAsset_3 asset w) as [r [Hr _]]. cbv zeta in Hr.
    rewrite (bind_returns _ _ _ r Hr).
    set (w1 := Run.final
                 (AssetDownloader.downloadAsset assetsDir asset 3 onProgress w)).
    destruct (IH (acc ++ [r])%list
                 w1) as [results [Hres Hrun]].
    exists (r :: results).
    destruct (AssetDownloader.isDownloadable asset) eqn:Hd.
    + rewrite bind_sleep. read_trace. split.
      * rewrite Hres, <- app_assoc. reflexivity.
      * pose proof (batch_next assetsDir onProgress asset rest w r _ _ _
                      Hr Hrun) as Hb.
        cbv zeta in Hb. rewrite Hd in Hb. exact Hb.
    + rewrite bind_ret. read_trace. split.
      * rewrite Hres, <- app_assoc. reflexivity.
      * pose proof (batch_next assetsDir onProgress asset rest w r _ _ _
                      Hr Hrun) as Hb.
        cbv zeta in Hb. rewrite Hd in Hb. exact Hb.
Qed.

Lemma batch_run_facts (allAssets : list Asset.t) (w w' : world)
    (tr : list event) (results : list DownloadResult.t) :
  batch_run assetsDir onProgress allAssets w tr results w' ->
  List.map DownloadResult.asset results = allAssets
  /\ writes tr = List.flat_map written results
  /\ (List.length allAssets <= List.length (fetches tr)
      <= 3 * List.length allAssets)%nat.
Proof.
  induction 1 as [w | asset rest w r tr results w' run Hr Hrest IH].
  - repeat split; simpl; lia.
  - destruct IH as [Hmap [Hw Hf]].
    destruct (downloadAsset_3 asset w) as [r' [Hr' [Ha [Hwr Hfe]]]].
    cbv zeta in *. subst run.
    assert (r' = r) as -> by congruence.
    split; [simpl; now rewrite Ha, Hmap|]. split.
    + read_trace. rewrite Hwr, Hw.
      destruct (AssetDownloader.isDownloadable asset); reflexivity.
    + read_trace. rewrite !length_app. cbn [List.length].
      destruct (AssetDownloader.isDownloadable asset);
        cbn [fetches List.length]; lia.
Qed.

End Batch.

Section AllAssets.
Context {P : Platform}.
Variable assetsDir : string.
Variable onProgress : callback DownloadProgress.t.

Lemma ensureDirectoryExists_trace (w : world) :
  writes (Run.trace (AssetDownloader.ensureDirectoryExists assetsDir w)) = []
  /\ fetches (Run.trace (AssetDownloader.ensureDirectoryExists assetsDir w)) = [].
Proof.
  unfold AssetDownloader.ensureDirectoryExists. rewrite bind_read.
  destruct (fs_existsSync assetsDir w); cbn [negb].
  - repeat split.
  - rewrite bind_call. unfold on_return.
    destruct (fs_mkdirSync assetsDir w) as [w' [[]|e]]; cbn [fst snd];
      repeat split.
Qed.

Lemma downloadAllAssets_run (apiResponse : ApiResponse.t) (w : world) :
  Run.result (AssetDownloader.ensureDirectoryExists assetsDir w) = Return tt ->
  let allAssets :=
    List.flat_map Playlist.assets (ApiResponse.playlists apiResponse) in
  let run :=
    AssetDownloader.downloadAllAssets assetsDir apiResponse onProgress w in
  exists results tr,
    Run.result run = Return results
    /\ batch_run assetsDir onProgress allAssets
         (Run.final (AssetDownloader.ensureDirectoryExists assetsDir w))
         tr results (Run.final run)
    /\ writes (Run.trace run) = writes tr
    /\ fetches (Run.trace run) = fetches tr.
Proof.
  intros Hens. cbv zeta. unfold AssetDownloader.downloadAllAssets.
  destruct (ensureDirectoryExists_trace w) as [Hew Hef].
  rewrite (bind_returns _ _ _ tt Hens). cbv zeta.
  set (w0 := Run.final (AssetDownloader.ensureDirectoryExists assetsDir w)).
  set (allAssets :=
         List.flat_map Playlist.assets (ApiResponse.playlists apiResponse)).
  rewrite !bind_console.
  destruct (batch_loop assetsDir onProgress allAssets [] w0)
    as [results [Hres Hrun]].
  cbv zeta in Hres, Hrun. cbn [app] in Hres.
  rewrite (bind_returns _ _ _ results Hres), !bind_console.
  exists results.
  exists (Run.trace
            (AssetDownloader.downloadAllAssets_loop assetsDir allAssets
               onProgress [] w0)).
  destruct (Nat.ltb 0 _).
  - rewrite bind_emit_all. unfold ret. read_trace.
    cbn [Run.result Run.trace Run.final].
    rewrite Hew, Hef. repeat split; try assumption.
    + cbn [app]. f_equal.
      assert (Hc : forall l : list DownloadResult.t,
                 writes
                   (List.map
                      (fun r =>
                         Console level_log "Failed asset"
                           [Asset.name (DownloadResult.asset r);
                            match DownloadResult.error r with
                            | Some e => e
                            | None => "undefined"
                            end]) l) = []).
      { induction l; simpl; auto. }
      rewrite Hc. now rewrite !app_nil_r.
    + cbn [app]. f_equal.
      assert (Hc : forall l : list DownloadResult.t,
                 fetches
                   (List.map
                      (fun r =>
                         Console level_log "Failed asset"
                           [Asset.name (DownloadResult.asset r);
                            match DownloadResult.error r with
                            | Some e => e
                            | None => "undefined"
                            end]) l) = []).
      { induction l; simpl; auto. }
      rewrite Hc. now rewrite !app_nil_r.
  - rewrite bind_ret. unfold ret. read_trace.
    cbn [Run.result Run.trace Run.final].
    rewrite Hew, Hef. repeat split; try assumption.
    + cbn [app]. now rewrite !app_nil_r.
    + cbn [app]. now rewrite !app_nil_r.
Qed.

End AllAssets.

(** C10: [downloadAllAssets] makes one call of [downloadAsset] per
    membership, in manifest order, whether or not an identifier was seen
    before.  When the assets directory is there or can be made, it returns
    one result per membership: the assets of the results are the
    concatenated asset lists, so their number is the sum of the playlists'
    asset counts and an identifier that occurs in [k] memberships has [k]
    results; each successful download of a file is written once per
    membership, each membership sends between one and three requests; and
    the [totalAssets] statistic is the number of results. *)
Theorem C10_one_result_per_membership {P : Platform}
    (assetsDir : string) (apiResponse : ApiResponse.t)
    (onProgress : callback DownloadProgress.t) (w : world) :
  Run.result (AssetDownloader.ensureDirectoryExists assetsDir w) = Return tt ->
  let playlists := ApiResponse.playlists apiResponse in
  let allAssets := List.flat_map Playlist.assets playlists in
  let run :=
    AssetDownloader.downloadAllAssets assetsDir apiResponse onProgress w in
  exists results,
    Run.result run = Return results
    /\ List.map DownloadResult.asset results = allAssets
    /\ List.length results
       = list_sum (List.map (fun p => List.length (Playlist.assets p)) playlists)
    /\ (forall i,
          AssetDownloader.count
            (fun r => has_id i (DownloadResult.asset r)) results
          = list_sum
              (List.map
                 (fun p => AssetDownloader.count (has_id i) (Playlist.assets p))
                 playlists))
    /\ (exists tr,
          batch_run assetsDir onProgress allAssets
            (Run.final (AssetDownloader.ensureDirectoryExists assetsDir w))
            tr results (Run.final run))
    /\ writes (Run.trace run) = List.flat_map written results
    /\ (List.length allAssets <= List.length (fetches (Run.trace run))
        <= 3 * List.length allAssets)%nat
    /\ (forall this deviceName playlistCycles w',
          exists result stats,
            Run.result
              (DigitalSignageInitializer.prepareFinalResult this deviceName
                 apiResponse results playlistCycles w') = Return result
            /\ InitializationResult.stats result = Some stats
            /\ Stats.totalAssets stats = List.length results).
Proof.
  intros Hens. cbv zeta.
  destruct (downloadAllAssets_run assetsDir onProgress apiResponse w Hens)
    as [results [tr [Hres [Hrun [Hw Hf]]]]].
  cbv zeta in *.
  destruct (batch_run_facts assetsDir onProgress _ _ _ _ _ Hrun)
    as [Hmap [Hwr Hfe]].
  exists results. split; [exact Hres|]. split; [exact Hmap|]. split.
  { rewrite <- (length_map DownloadResult.asset), Hmap. apply length_flat_map. }
  split.
  { intros i. rewrite <- (count_map (has_id i) DownloadResult.asset), Hmap.
    apply count_flat_map. }
  split; [now exists tr|]. split; [now rewrite Hw|]. split; [now rewrite Hf|].
  intros this deviceName playlistCycles w'.
  eexists. eexists. split; [reflexivity|]. split; reflexivity.
Qed.


(** The manifest in which the welcome image belongs to two playlists is an
    instance. *)
Lemma C10_witness :
  let playlists := ApiResponse.playlists shared_manifest in
  let allAssets := List.flat_map Playlist.assets playlists in
  let run :=
    @AssetDownloader.downloadAllAssets Scripted.platform "assets/main"
      shared_manifest None shared_world in
  Run.result
    (@AssetDownloader.ensureDirectoryExists Scripted.platform "assets/main"
       shared_world) = Return tt
  /\ exists results,
    Run.result run = Return results
    /\ List.map DownloadResult.asset results = allAssets
    /\ List.length results
       = list_sum (List.map (fun p => List.length (Playlist.assets p)) playlists)
    /\ (forall i,
          AssetDownloader.count
            (fun r => has_id i (DownloadResult.asset r)) results
          = list_sum
              (List.map
                 (fun p => AssetDownloader.count (has_id i) (Playlist.assets p))
                 playlists))
    /\ (exists tr,
          @batch_run Scripted.platform "assets/main" None allAssets
            (Run.final
               (@AssetDownloader.ensureDirectoryExists Scripted.platform
                  "assets/main" shared_world))
            tr results (Run.final run))
    /\ writes (Run.trace run) = List.flat_map written results
    /\ (List.length allAssets <= List.length (fetches (Run.trace run))
        <= 3 * List.length allAssets)%nat
    /\ (forall this deviceName playlistCycles w',
          exists result stats,
            Run.result
              (@DigitalSignageInitializer.prepareFinalResult Scripted.platform
                 this deviceName shared_manifest results playlistCycles w')
            = Return result
            /\ InitializationResult.stats result = Some stats
            /\ Stats.totalAssets stats = List.length results).
Proof.
  split; [reflexivity|].
  apply (@C10_one_result_per_membership Scripted.platform "assets/main"
           shared_manifest None shared_world).
  reflexivity.
Defined.

(** The image that belongs to two playlists is fetched, written and
    counted twice. *)
Example shared_asset_twice :
  let run :=
    @AssetDownloader.downloadAllAssets Scripted.platform "assets/main"
      shared_manifest None shared_world in
  writes (Run.trace run)
  = ["assets/main/a1_welcome.png"; "assets/main/a2_promo.mp4";
     "assets/main/a1_welcome.png"]
  /\ fetches (Run.trace run)
     = [("https://cdn.example.com/welcome.png", GET);
        ("https://cdn.example.com/promo.mp4", GET);
        ("https://cdn.example.com/welcome.png", GET);
        ("https://live.example.com/news/index.m3u8", HEAD)]
  /\ match Run.result run with
     | Return results =>
         List.length results = 4%nat
         /\ AssetDownloader.count
              (fun r => has_id "a1" (DownloadResult.asset r)) results = 2%nat
     | Throw _ => False
     end.
Proof. repeat split. Qed.

(** ** Validation of the initialization *)

Lemma selected_cycle_spec (playlistCycles : list PlaylistCycle.t) :
  DigitalSignageInitializer.getDefaultPlaylist playlistCycles
  = selected_cycle playlistCycles.
Proof.
  unfold DigitalSignageInitializer.getDefaultPlaylist, selected_cycle.
  assert (H : List.find PlaylistCycle.isDefault playlistCycles
              = List.hd_error (List.filter PlaylistCycle.isDefault playlistCycles)).
  { induction playlistCycles as [|c l IH]; simpl; [reflexivity|].
    destruct (PlaylistCycle.isDefault c); [reflexivity | exact IH]. }
  rewrite H.
  destruct (List.filter PlaylistCycle.isDefault playlistCycles); simpl;
    [|reflexivity].
  destruct playlistCycles; reflexivity.
Qed.

Section Validation.
Context {P : Platform}.

Lemma validateResult_returns (result : InitializationResult.t) (w : world) :
  exists valid,
    Run.result (DigitalSignageInitializer.validateResult result w)
    = Return valid
    /\ Run.final (DigitalSignageInitializer.validateResult result w) = w
    /\ (nothing_to_show result -> valid = false)
    /\ (InitializationResult.success result = false -> valid = false).
Proof.
  unfold DigitalSignageInitializer.validateResult, nothing_to_show.
  destruct (InitializationResult.success result); cbn [negb].
  2:{ exists false. rewrite bind_console. repeat split. }
  destruct (InitializationResult.playlistCycles result) as [cycles|].
  2:{ exists false. rewrite bind_console. repeat split. }
  destruct cycles as [|c cycles].
  { exists false. cbn [List.length Nat.eqb]. rewrite bind_console.
    repeat split. }
  cbn [List.length Nat.eqb].
  rewrite selected_cycle_spec.
  destruct (selected_cycle (c :: cycles)) as [selected|] eqn:Hsel.
  2:{ exists false. rewrite bind_console. repeat split. }
  destruct (PlaylistCycle.assets selected) as [|a l] eqn:Ha.
  { exists false. cbn [List.length Nat.eqb]. rewrite bind_console.
    repeat split. }
  exists true. cbn [List.length Nat.eqb]. rewrite bind_console.
  repeat split; try discriminate.
  intros [Hnil | [cycle [Hc Hassets]]]; [discriminate|].
  injection Hc as <-. congruence.
Qed.

End Validation.

(** C9: when [initialize] returns a result without playlist cycles, or one
    whose selected cycle (the first one flagged default, else the first
    cycle) has no assets, [initializeDigitalSignage] returns a failure,
    with the message of the validation; the cycle that [getDefaultPlaylist]
    selects is that cycle. *)
Theorem C9_validation_rejects {P : Platform}
    (config : InitializationConfig.t) (onProgress : callback InitProgress.t)
    (w : world) (result : InitializationResult.t) :
  Run.result
    (DigitalSignageInitializer.initialize (initializer_of config w)
       onProgress w) = Return result ->
  nothing_to_show result ->
  Run.result (initializeDigitalSignage config onProgress w)
  = Return (InitializationResult.failure "Initialization validation failed")
  /\ forall playlistCycles,
       DigitalSignageInitializer.getDefaultPlaylist playlistCycles
       = selected_cycle playlistCycles.
Proof.
  intros Hinit Hnothing. split; [|apply selected_cycle_spec].
  unfold initializeDigitalSignage.
  assert (Hnew : Run.result (DigitalSignageInitializer.new config w)
                 = Return (initializer_of config w)) by reflexivity.
  rewrite (bind_returns _ _ _ _ Hnew).
  change (Run.final (DigitalSignageInitializer.new config w)) with w.
  rewrite prepend_result, (bind_returns _ _ _ result Hinit).
  destruct (validateResult_returns result
              (Run.final
                 (DigitalSignageInitializer.initialize (initializer_of config w)
                    onProgress w)))
    as [valid [Hv [_ [Hfalse _]]]].
  rewrite (bind_returns _ _ _ valid Hv). rewrite (Hfalse Hnothing).
  reflexivity.
Qed.

(** A manifest without playlists initializes without a fault and is
    rejected. *)
Lemma C9_witness :
  (Run.result
     (@DigitalSignageInitializer.initialize Scripted.platform
        (@initializer_of Scripted.platform signage_config empty_world)
        None empty_world) = Return empty_initialization
   /\ nothing_to_show empty_initialization)
  /\ Run.result
       (@initializeDigitalSignage Scripted.platform signage_config None
          empty_world)
     = Return (InitializationResult.failure "Initialization validation failed")
  /\ forall playlistCycles,
       DigitalSignageInitializer.getDefaultPlaylist playlistCycles
       = selected_cycle playlistCycles.
Proof.
  assert (H1 : Run.result
                 (@DigitalSignageInitializer.initialize Scripted.platform
                    (@initializer_of Scripted.platform signage_config
                       empty_world)
                    None empty_world) = Return empty_initialization).
  { vm_compute. reflexivity. }
  assert (H2 : nothing_to_show empty_initialization).
  { simpl. left. reflexivity. }
  split; [split; assumption|].
  exact (@C9_validation_rejects Scripted.platform signage_config None
           empty_world empty_initialization H1 H2).
Defined.

(** A result whose selected cycle is empty is rejected as well, also when
    a later cycle has assets. *)
Example empty_default_rejected :
  let empty_cycle :=
    PlaylistCycle.mk "p0" "Empty" [] (Num 0) true None None in
  let result :=
    InitializationResult.mk true None None None
      (Some [lobby_cycle; empty_cycle; lobby_cycle]) None None None in
  DigitalSignageInitializer.getDefaultPlaylist [lobby_cycle; empty_cycle]
  = Some lobby_cycle
  /\ Run.result
       (@DigitalSignageInitializer.validateResult Scripted.platform
          (InitializationResult.mk true None None None
             (Some [empty_cycle; lobby_cycle]) None None None)
          empty_world)
     = Return false.
Proof. split; reflexivity. Qed.

(** ** Activity windows *)

(** C1 fails for the cycle scheduler: when the clock reads exactly the end
    timestamp of a playlist that has started, the scheduler's own check
    answers [true], because it compares with [>]; the helper of
    [dateUtils], which compares with [<=], answers [false] at that instant
    whatever the start date. *)
Theorem C1_end_instant {P : Platform}
    (playlist : PlaylistCycle.t) (endDate : string) (w : world) :
  PlaylistCycle.endDate playlist = Some endDate ->
  Str.truthy endDate = true ->
  Date_parse endDate = Num (Date_now w) ->
  dateUtils.and_then (PlaylistCycle.startDate playlist)
    (fun s => Number.gt (Date_parse s) (Num (Date_now w))) = false ->
  Run.result (AssetCycler.isPlaylistActive playlist w) = Return true
  /\ forall startDate,
       Run.result
         (dateUtils.isPlaylistActive startDate
            (PlaylistCycle.endDate playlist) w) = Return false.
Proof.
  intros He Ht Hp Hs. split.
  - unfold AssetCycler.isPlaylistActive. rewrite bind_read.
    assert (Hstart :
      forall k : bool -> M bool,
        Run.result
          (bind
             match PlaylistCycle.startDate playlist with
             | Some s =>
                 if Str.truthy s then
                   if Number.lt (Num (Date_now w)) (Date_parse s) then
                     console level_log "Playlist not yet active"
                       [PlaylistCycle.playlistName playlist; s] ;;
                     ret false
                   else ret true
                 else ret true
             | None => ret true
             end k w)
        = Run.result (k true w)).
    { intros k. unfold dateUtils.and_then, Number.gt in Hs.
      destruct (PlaylistCycle.startDate playlist) as [s|]; [|reflexivity].
      destruct (Str.truthy s); [|reflexivity].
      cbn [andb] in Hs. rewrite Hs. reflexivity. }
    rewrite prepend_result, Hstart. cbn [negb].
    rewrite He, Ht, Hp. unfold Number.gt, Number.lt.
    rewrite Z.ltb_irrefl. reflexivity.
  - intros startDate.
    unfold dateUtils.isPlaylistActive. rewrite bind_read, prepend_result.
    destruct (dateUtils.and_then startDate _); [reflexivity|].
    rewrite He. unfold dateUtils.and_then. rewrite Ht, Hp.
    unfold Number.le. rewrite Z.leb_refl. reflexivity.
Qed.

(** A cycle that ends at the first instant of 2025, checked at that
    instant, is an instance. *)
Lemma C1_witness :
  (PlaylistCycle.endDate ending_cycle = Some "2025-01-01T00:00:00.000Z"
   /\ Str.truthy "2025-01-01T00:00:00.000Z" = true
   /\ @Date_parse Scripted.platform "2025-01-01T00:00:00.000Z"
      = Num (@Date_now Scripted.platform world_at_end)
   /\ @dateUtils.and_then (PlaylistCycle.startDate ending_cycle)
        (fun s =>
           Number.gt (@Date_parse Scripted.platform s)
             (Num (@Date_now Scripted.platform world_at_end))) = false)
  /\ Run.result
       (@AssetCycler.isPlaylistActive Scripted.platform ending_cycle
          world_at_end) = Return true
  /\ forall startDate,
       Run.result
         (@dateUtils.isPlaylistActive Scripted.platform startDate
            (PlaylistCycle.endDate ending_cycle) world_at_end) = Return false.
Proof.
  split; [repeat split|].
  apply (@C1_end_instant Scripted.platform ending_cycle
           "2025-01-01T00:00:00.000Z" world_at_end); reflexivity.
Defined.

(* ================================================================== *)
(** * Further properties *)

(** ** Activity windows *)

Section MoreRuns.
Context {P : Platform}.

Lemma bind_assoc {A B C} (m : M A) (f : A -> M B) (g : B -> M C) (w : world) :
  bind (bind m f) g w = bind m (fun x => bind (f x) g) w.
Proof.
  unfold bind. destruct (Run.result (m w)) as [a|e]; cbn; [|reflexivity].
  destruct (Run.result (f a (Run.final (m w)))) as [b|e]; cbn;
    [|reflexivity].
  now rewrite app_assoc.
Qed.

(** A [try] whose handler returns, returns. *)
Lemma try_catch_returns {A} (m : M A) (h : thrown -> M A) (w : world) :
  (forall e w', exists a, Run.result (h e w') = Return a) ->
  exists a, Run.result (try_catch m h w) = Return a.
Proof.
  intros Hh. unfold try_catch.
  destruct (Run.result (m w)) as [a|e] eqn:Hr.
  - exists a. exact Hr.
  - destruct (Hh e (Run.final (m w))) as [a Ha]. exists a. exact Ha.
Qed.

End MoreRuns.

Ltac step_run :=
  repeat first
    [ rewrite bind_assoc | rewrite bind_console | rewrite bind_ret
    | rewrite bind_read | rewrite bind_sleep | rewrite bind_invoke
    | rewrite bind_emit_all | rewrite bind_throw ].

Section Windows.
Context {P : Platform}.

Lemma and_then_truthy (d : option string) (test : string -> bool) :
  dateUtils.and_then d test = truthy_opt d && test (date_text d).
Proof. destruct d; reflexivity. Qed.

Lemma dateUtils_isPlaylistActive_run (startDate endDate : option string)
    (w : world) :
  dateUtils.isPlaylistActive startDate endDate w
  = Run.mk w [] (Return (in_window (Date_now w) startDate endDate)).
Proof.
  unfold dateUtils.isPlaylistActive, in_window, starts_after, ended_by.
  rewrite bind_read, !and_then_truthy. unfold date_time.
  destruct (truthy_opt startDate && _); [reflexivity|].
  destruct (truthy_opt endDate && _); reflexivity.
Qed.

Lemma cycler_isPlaylistActive_run (playlist : PlaylistCycle.t) (w : world) :
  let run := AssetCycler.isPlaylistActive playlist w in
  Run.result run = Return (in_cycler_window (Date_now w) playlist)
  /\ Run.final run = w
  /\ writes (Run.trace run) = [] /\ fetches (Run.trace run) = []
  /\ sleeps (Run.trace run) = [].
Proof.
  cbv zeta. unfold AssetCycler.isPlaylistActive, in_cycler_window,
    starts_after, ended_before, date_time, Number.gt.
  rewrite bind_read.
  destruct (PlaylistCycle.startDate playlist) as [s|];
    cbn [truthy_opt date_text];
    [destruct (Str.truthy s); cbn [andb negb];
     [destruct (Number.lt (Num (Date_now w)) (Date_parse s))|]|];
    step_run; cbn [negb];
    try (destruct (PlaylistCycle.endDate playlist) as [e|];
         cbn [truthy_opt date_text];
         [destruct (Str.truthy e); cbn [andb negb];
          [destruct (Number.lt (Date_parse e) (Num (Date_now w)))|]|]);
    step_run; repeat split.
Qed.

End Windows.

(** ** Durations and timing messages *)


(** X1: for a whole number of milliseconds from 0 to 2^53 - 1 (the range
    in which the program divides and takes remainders of integers without
    rounding, and prints them in decimal) [formatDuration] shows the two
    leading units that apply (hours and minutes, else minutes and seconds,
    else seconds); minutes and seconds stay below 60, and the duration
    shown never exceeds the real one and falls short of it by less than one
    unit of its last field. *)
Theorem formatDuration_truncates (ms : Z) :
  0 <= ms <= max_safe_integer ->
  let h := hours_of ms in
  let m := minutes_of ms in
  let s := seconds_of ms in
  formatDuration (Num ms)
  = (if 0 <? h then Str.of_Z h ++ "h " ++ Str.of_Z m ++ "m"
     else if 0 <? m then Str.of_Z m ++ "m " ++ Str.of_Z s ++ "s"
     else Str.of_Z s ++ "s")
  /\ 0 <= h /\ 0 <= m < 60 /\ 0 <= s < 60
  /\ h * 3600000 + m * 60000 <= ms < h * 3600000 + (m + 1) * 60000
  /\ (h = 0 -> m * 60000 + s * 1000 <= ms < m * 60000 + (s + 1) * 1000).
Proof.
  intros [Hms _]. cbv zeta. unfold hours_of, minutes_of, seconds_of.
  split.
  - unfold formatDuration, JsMath.floor_div, JsMath.rem, Number.gt, Number.lt,
      number_text.
    change (1000 * 60 * 60) with 3600000. change (1000 * 60) with 60000.
    cbn [Z.eqb]. rewrite !Z.rem_mod_nonneg by lia. reflexivity.
  - repeat split; try (Z.div_mod_to_equations; lia).
Qed.

Lemma formatDuration_witness :
  0 <= 5400000 <= max_safe_integer
  /\ let h := hours_of 5400000 in
     let m := minutes_of 5400000 in
     let s := seconds_of 5400000 in
     formatDuration (Num 5400000)
     = (if 0 <? h then Str.of_Z h ++ "h " ++ Str.of_Z m ++ "m"
        else if 0 <? m then Str.of_Z m ++ "m " ++ Str.of_Z s ++ "s"
        else Str.of_Z s ++ "s")
     /\ 0 <= h /\ 0 <= m < 60 /\ 0 <= s < 60
     /\ h * 3600000 + m * 60000 <= 5400000 < h * 3600000 + (m + 1) * 60000
     /\ (h = 0 -> m * 60000 + s * 1000 <= 5400000
                  < m * 60000 + (s + 1) * 1000).
Proof.
  split; [unfold max_safe_integer; lia|].
  apply (formatDuration_truncates 5400000). unfold max_safe_integer. lia.
Defined.

(** Ninety minutes, ninety seconds, and what is no duration. *)
Example formatDuration_samples :
  formatDuration (Num 5400000) = "1h 30m"
  /\ formatDuration (Num 90500) = "1m 30s"
  /\ formatDuration (Num 999) = "0s"
  /\ formatDuration NaN = "NaNs"
  /\ formatDuration (Num (-1)) = "-1s".
Proof. repeat split. Qed.

Section TimingMessage.
Context {P : Platform}.

Lemma getTimeUntilStart_run (startDate : string) (w : world) :
  getTimeUntilStart startDate w
  = Run.mk w []
      (Return (JsMath.max0 (Number.sub (Date_parse startDate)
                              (Num (Date_now w))))).
Proof. reflexivity. Qed.

Lemma getTimeUntilEnd_run (endDate : string) (w : world) :
  getTimeUntilEnd endDate w
  = Run.mk w []
      (Return (JsMath.max0 (Number.sub (Date_parse endDate)
                              (Num (Date_now w))))).
Proof. reflexivity. Qed.


End TimingMessage.

(** ** The next scheduled playlist *)

Section SortExt.
Context {A : Type}.
Variables compare1 compare2 : A -> A -> number.

Lemma insert_ext (x : A) (l : list A) :
  (forall y, In y l -> compare1 x y = compare2 x y) ->
  insert compare1 x l = insert compare2 x l.
Proof.
  induction l as [|y l IH]; intros H; simpl; [reflexivity|].
  unfold precedes. rewrite (H y (or_introl eq_refl)).
  destruct (Number.lt (compare2 x y) (Num 0)); [reflexivity|].
  f_equal. apply IH. intros z Hz. apply H. now right.
Qed.

Lemma fold_insert_ext (l acc : list A) :
  (forall a b, In a (acc ++ l) -> In b (acc ++ l) ->
               compare1 a b = compare2 a b) ->
  List.fold_left (fun acc x => insert compare1 x acc) l acc
  = List.fold_left (fun acc x => insert compare2 x acc) l acc.
Proof.
  revert acc; induction l as [|x l IH]; intros acc H; simpl; [reflexivity|].
  rewrite (insert_ext x acc).
  - apply IH. intros a b Ha Hb.
    assert (Hsub : forall c, In c (insert compare2 x acc ++ l) ->
                             In c (acc ++ x :: l)).
    { intros c Hc. apply in_app_or in Hc as [Hc | Hc].
      - apply (Permutation_in c (Permutation_sym (insert_perm compare2 x acc)))
          in Hc.
        destruct Hc as [<- | Hc]; apply in_or_app; [right; now left | now left].
      - apply in_or_app. right. now right. }
    apply H; apply Hsub; assumption.
  - intros y Hy. apply H; apply in_or_app; [right; now left | now left].
Qed.

Lemma sort_ext_in (l : list A) :
  (forall a b, In a l -> In b l -> compare1 a b = compare2 a b) ->
  sort compare1 l = sort compare2 l.
Proof. intros H. apply fold_insert_ext. exact H. Qed.

End SortExt.

Lemma find_hd_filter {A} (g : A -> bool) (l : list A) :
  List.find g l = List.hd_error (List.filter g l).
Proof.
  induction l as [|x l IH]; simpl; [reflexivity|].
  destruct (g x); [reflexivity | exact IH].
Qed.

Lemma filter_filter {A} (f g : A -> bool) (l : list A) :
  List.filter g (List.filter f l) = List.filter (fun x => f x && g x) l.
Proof.
  induction l as [|x l IH]; simpl; [reflexivity|].
  destruct (f x); simpl; [destruct (g x); now rewrite IH | exact IH].
Qed.

Section NextScheduled.
Context {P : Platform} {T : Type}.
Variable startDate : T -> option string.

Let key (p : T) : number := date_time (startDate p).

Lemma starts_after_key (now : Z) (p : T) :
  starts_after now (startDate p) = true ->
  truthy_opt (startDate p) = true /\ exists t, key p = Num t /\ now < t.
Proof.
  unfold starts_after, key. intros H. apply andb_true_iff in H as [Ht Hg].
  split; [exact Ht|]. unfold Number.gt, Number.lt in Hg.
  destruct (date_time (startDate p)) as [|t]; [discriminate|].
  apply Z.ltb_lt in Hg. now exists t.
Qed.

(** X3: [getNextScheduledPlaylist] answers [null] exactly when no playlist
    starts after the instant of the call; otherwise it answers a playlist
    of the list that starts after that instant, no later than any other
    that does, and the first in list order among those that start with
    it. *)
Theorem next_scheduled_is_earliest (playlists : list T) (w : world) :
  let now := Date_now w in
  match Run.result (getNextScheduledPlaylist startDate playlists w) with
  | Return None =>
      forall p, In p playlists -> starts_after now (startDate p) = false
  | Return (Some p) =>
      In p playlists
      /\ exists t,
           date_time (startDate p) = Num t /\ now < t
           /\ truthy_opt (startDate p) = true
           /\ (forall q, In q playlists ->
                 starts_after now (startDate q) = true ->
                 exists u, date_time (startDate q) = Num u /\ t <= u)
           /\ List.find
                (fun q => starts_after now (startDate q)
                          && JsMath.eqb (date_time (startDate q)) (Num t))
                playlists = Some p
  | Throw _ => False
  end.
Proof.
  cbv zeta. unfold getNextScheduledPlaylist. rewrite bind_read, prepend_result.
  cbv zeta.
  change (fun playlist : T =>
            truthy_opt (startDate playlist)
            && Number.gt (date_time (startDate playlist)) (Num (Date_now w)))
    with (fun playlist : T => starts_after (Date_now w) (startDate playlist)).
  set (now := Date_now w).
  set (future := List.filter (fun p => starts_after now (startDate p)) playlists).
  destruct future as [|f0 future0] eqn:Hfuture.
  { cbn. intros p Hp. destruct (starts_after now (startDate p)) eqn:E;
      [|reflexivity].
    assert (Hin : In p future).
    { apply filter_In. now split. }
    rewrite Hfuture in Hin. destruct Hin. }
  rewrite <- Hfuture. cbn [List.length Nat.eqb].
  assert (Hlen : Nat.eqb (List.length future) 0 = false).
  { rewrite Hfuture. reflexivity. }
  rewrite Hlen. unfold ret. cbn [Run.result].
  unfold sortPlaylistsByStartDate.
  assert (Hkeys : integer_keys key future).
  { apply Forall_forall. intros p Hp. apply filter_In in Hp as [_ Hp].
    destruct (starts_after_key now p Hp) as [_ [t [Ht _]]]. now exists t. }
  assert (Hext : sort (by_start_date startDate) future
                 = sort (fun a b => Number.sub (key a) (key b)) future).
  { apply sort_ext_in. intros a b Ha Hb.
    apply filter_In in Ha as [_ Ha]. apply filter_In in Hb as [_ Hb].
    destruct (starts_after_key now a Ha) as [Hta _].
    destruct (starts_after_key now b Hb) as [Htb _].
    unfold by_start_date. rewrite Hta, Htb. reflexivity. }
  rewrite Hext.
  pose proof (sort_perm (fun a b => Number.sub (key a) (key b)) future) as Hperm.
  pose proof (sort_sorted key future Hkeys) as Hsorted.
  destruct (sort (fun a b => Number.sub (key a) (key b)) future)
    as [|p rest] eqn:Hsort.
  { apply Permutation_sym, Permutation_nil in Hperm. rewrite Hfuture in Hperm.
    discriminate. }
  cbn [List.nth_error].
  assert (Hp : In p future).
  { eapply Permutation_in; [symmetry; exact Hperm | now left]. }
  pose proof Hp as Hp'. apply filter_In in Hp' as [Hpl Hpf].
  destruct (starts_after_key now p Hpf) as [Htp [t [Ht Hnt]]].
  split; [exact Hpl|]. exists t. repeat split; try assumption.
  - intros q Hq Hqf.
    destruct (starts_after_key now q Hqf) as [_ [u [Hu _]]].
    exists u. split; [exact Hu|].
    assert (Hqs : In q (p :: rest)).
    { eapply Permutation_in; [exact Hperm|]. apply filter_In. now split. }
    inversion Hsorted as [|? ? _ Hall]; subst.
    destruct Hqs as [<- | Hqs].
    + rewrite Ht in Hu. injection Hu as <-. lia.
    + rewrite Forall_forall in Hall. specialize (Hall q Hqs).
      unfold key_le in Hall. fold (key p) in Ht. fold (key q) in Hu.
      rewrite Ht, Hu in Hall. simpl in Hall. now apply Z.leb_le.
  - pose proof (sort_stable key t future Hkeys) as Hstable.
    rewrite Hsort in Hstable. cbn [List.filter] in Hstable.
    assert (Hkp : has_key key t p = true).
    { unfold has_key. fold (key p) in Ht. rewrite Ht. apply Z.eqb_refl. }
    rewrite Hkp in Hstable. unfold future in Hstable.
    rewrite filter_filter in Hstable.
    rewrite find_hd_filter.
    assert (Hsame : forall q,
               (starts_after now (startDate q) && has_key key t q)%bool
               = (starts_after now (startDate q)
                  && JsMath.eqb (date_time (startDate q)) (Num t))%bool).
    { intros q. reflexivity. }
    rewrite <- (filter_ext _ _ Hsame), <- Hstable. reflexivity.
Qed.

End NextScheduled.

(** ** The cycler *)

Section CyclerRuns.
Context {P : Platform}.

Lemma item_in_range {A} (l : list A) (i : nat) :
  (i < List.length l)%nat ->
  exists a, Cycler.item l (Num (Z.of_nat i)) = Some a
            /\ List.nth_error l i = Some a.
Proof.
  intros Hi. unfold Cycler.item.
  assert (Hneg : (Z.of_nat i <? 0) = false) by (apply Z.ltb_ge; lia).
  rewrite Hneg, Nat2Z.id.
  destruct (List.nth_error l i) as [a|] eqn:Ha.
  - now exists a.
  - apply nth_error_None in Ha. lia.
Qed.

Lemma showCurrentAsset_run (s : Cycler.t) (asset : WebviewAsset.t) (w : world) :
  Cycler.item (Cycler.assets s) (Cycler.currentAssetIndex s) = Some asset ->
  Cycler.showCurrentAsset s w
  = Run.mk w
      [Console level_log "Displaying"
         [WebviewAsset.name asset;
          number_text (WebviewAsset.displayTime asset)]]
      (Return (shown asset s)).
Proof.
  intros Hitem. unfold Cycler.showCurrentAsset. rewrite Hitem.
  rewrite bind_console. reflexivity.
Qed.

Lemma showCurrentAsset_throws (s : Cycler.t) (w : world) :
  Cycler.item (Cycler.assets s) (Cycler.currentAssetIndex s) = None ->
  Cycler.showCurrentAsset s w
  = Run.mk w []
      (Throw (ErrorObject true "Cannot read properties of undefined")).
Proof.
  intros Hitem. unfold Cycler.showCurrentAsset. now rewrite Hitem.
Qed.

End CyclerRuns.

Lemma stopCycle_spec (s : Cycler.t) :
  Cycler.stopCycle s
  = Cycler.mk (Cycler.currentPlaylist s) (Cycler.currentAssetIndex s)
      None None
      (List.filter
         (fun timer =>
            negb (named (Cycler.cycleTimer s) (Cycler.Timer.handle timer))
            && negb (named (Cycler.dateCheckTimer s)
                       (Cycler.Timer.handle timer)))
         (Cycler.pending s))
      (Cycler.next_handle s) (Cycler.changes s).
Proof.
  unfold Cycler.stopCycle, Cycler.clear.
  assert (Htrue : forall l : list Cycler.Timer.t,
             l = List.filter (fun _ => true) l).
  { induction l as [|t l IH]; simpl; [reflexivity | now f_equal]. }
  destruct s as [pl i [c|] [d|] pend next ch]; cbn; f_equal;
    rewrite ?filter_filter;
    try (apply filter_ext; intros t; cbn; now rewrite ?andb_true_r).
  apply Htrue.
Qed.

(** On a cycler whose armed timers are all owned, the two clears of
    [stopCycle] disarm every timer. *)
Lemma stop_disarms (s : Cycler.t) :
  Forall (owned_timer s) (Cycler.pending s) ->
  List.filter
    (fun timer =>
       negb (named (Cycler.cycleTimer s) (Cycler.Timer.handle timer))
       && negb (named (Cycler.dateCheckTimer s) (Cycler.Timer.handle timer)))
    (Cycler.pending s) = [].
Proof.
  intros Howned. induction Howned as [|t l Ht _ IH]; simpl; [reflexivity|].
  rewrite IH.
  destruct Ht as [[Hc _] | [Hd _]].
  - rewrite Hc. cbn. now rewrite Nat.eqb_refl.
  - rewrite Hd. cbn. rewrite Nat.eqb_refl. now rewrite andb_false_r.
Qed.

(** X4: [stopCycle] clears both timer fields and leaves the index, the
    playlist and the handler calls alone; it is idempotent; and on a tidy
    cycler no timer stays armed behind it. *)
Theorem stopCycle_clears (s : Cycler.t) :
  Cycler.cycleTimer (Cycler.stopCycle s) = None
  /\ Cycler.dateCheckTimer (Cycler.stopCycle s) = None
  /\ Cycler.currentAssetIndex (Cycler.stopCycle s) = Cycler.currentAssetIndex s
  /\ Cycler.currentPlaylist (Cycler.stopCycle s) = Cycler.currentPlaylist s
  /\ Cycler.changes (Cycler.stopCycle s) = Cycler.changes s
  /\ Cycler.stopCycle (Cycler.stopCycle s) = Cycler.stopCycle s
  /\ (Forall (owned_timer s) (Cycler.pending s) ->
      Cycler.pending (Cycler.stopCycle s) = []).
Proof.
  rewrite !stopCycle_spec. cbn. repeat split.
  - f_equal. rewrite filter_filter. apply filter_ext. intros t.
    now rewrite andb_true_r.
  - intros Howned. induction Howned as [|t l Ht _ IH]; simpl; [reflexivity|].
    rewrite IH.
    destruct Ht as [[Hc _] | [Hd _]].
    + rewrite Hc. cbn. now rewrite Nat.eqb_refl.
    + rewrite Hd. cbn. rewrite Nat.eqb_refl. now rewrite andb_false_r.
Qed.

Lemma tidy_shown (asset : WebviewAsset.t) (s : Cycler.t) :
  index_in_range s ->
  Forall (date_owned s) (Cycler.pending s) ->
  NoDup (handles s) ->
  Forall (fun h => (h < Cycler.next_handle s)%nat) (handles s) ->
  tidy (shown asset s).
Proof.
  intros Hi Ho Hn Hf. constructor.
  - exact Hi.
  - cbn. apply Forall_app. split.
    + eapply Forall_impl; [|exact Ho]. intros t Ht. right. exact Ht.
    + constructor; [|constructor]. left. repeat split.
  - unfold handles in *. cbn. rewrite map_app. cbn.
    apply NoDup_app; [exact Hn | repeat constructor; intros [] |].
    intros h Hh [<- | []]. rewrite Forall_forall in Hf.
    specialize (Hf _ Hh). lia.
  - unfold handles in *. cbn. rewrite map_app. apply Forall_app. split.
    + eapply Forall_impl; [|exact Hf]. intros h Hh. cbn in Hh. lia.
    + repeat constructor.
Qed.

Lemma tidy_watched (s : Cycler.t) :
  tidy s -> Forall (cycle_owned s) (Cycler.pending s) -> tidy (watched s).
Proof.
  intros [Hi _ Hn Hf] Ho. constructor.
  - exact Hi.
  - cbn. apply Forall_app. split.
    + eapply Forall_impl; [|exact Ho]. intros t Ht. left. exact Ht.
    + constructor; [|constructor]. right. repeat split.
  - unfold handles in *. cbn. rewrite map_app. cbn.
    apply NoDup_app; [exact Hn | repeat constructor; intros [] |].
    intros h Hh [<- | []]. rewrite Forall_forall in Hf.
    specialize (Hf _ Hh). lia.
  - unfold handles in *. cbn. rewrite map_app. apply Forall_app. split.
    + eapply Forall_impl; [|exact Hf]. intros h Hh. cbn in Hh. lia.
    + repeat constructor.
Qed.

Lemma tidy_idle (s : Cycler.t) :
  index_in_range s -> Cycler.pending s = [] -> tidy s.
Proof.
  intros Hi Hp. constructor; unfold handles; rewrite ?Hp; try constructor.
  exact Hi.
Qed.

Lemma find_handle (l : list Cycler.Timer.t) (timer : Cycler.Timer.t) :
  NoDup (List.map Cycler.Timer.handle l) -> In timer l ->
  List.find
    (fun t => Nat.eqb (Cycler.Timer.handle t) (Cycler.Timer.handle timer)) l
  = Some timer.
Proof.
  induction l as [|t l IH]; intros Hn Hin; [destruct Hin|].
  cbn in Hn. inversion Hn as [|? ? Hnot Hn']; subst. cbn.
  destruct Hin as [-> | Hin].
  - now rewrite Nat.eqb_refl.
  - destruct (Nat.eqb_spec (Cycler.Timer.handle t) (Cycler.Timer.handle timer))
      as [E|_]; [|now apply IH].
    exfalso. apply Hnot. rewrite E. now apply in_map.
Qed.

Lemma findIndex_from_spec {A} (test : A -> bool) (l : list A) (start : Z) :
  let index := Cycler.findIndex_from test l start in
  (index = -1 /\ 0 <= start -> forall x, In x l -> test x = false)
  /\ (0 <= start -> index <> -1 ->
      exists k x,
        index = start + Z.of_nat k /\ (k < List.length l)%nat
        /\ List.nth_error l k = Some x /\ test x = true
        /\ forall j y, (j < k)%nat -> List.nth_error l j = Some y ->
                       test y = false).
Proof.
  cbv zeta. revert start. induction l as [|a l IH]; intros start; cbn.
  - split; [intros _ x [] | intros _ H; contradiction].
  - destruct (test a) eqn:Ha.
    + split.
      * intros [E Hs]. lia.
      * intros Hs _. exists 0%nat, a.
        split; [lia|]. split; [cbn; lia|]. split; [reflexivity|].
        split; [exact Ha|]. intros j y Hj. lia.
    + destruct (IH (start + 1)) as [IH1 IH2]. split.
      * intros [E Hs] x [<- | Hx]; [exact Ha|]. apply IH1; [split; [exact E | lia] | exact Hx].
      * intros Hs Hne. destruct IH2 as [k [x [E [Hk [Hn [Ht Hfirst]]]]]];
          [lia | exact Hne |].
        exists (S k), x.
        split; [lia|]. split; [cbn; lia|]. split; [exact Hn|].
        split; [exact Ht|].
        intros [|j] y Hj Hy; cbn in Hy.
        -- injection Hy as <-. exact Ha.
        -- apply (Hfirst j y); [lia | exact Hy].
Qed.

Section CyclerOperations.
Context {P : Platform}.

Lemma nextAsset_run (s : Cycler.t) (i : nat) (w : world) :
  Cycler.currentAssetIndex s = Num (Z.of_nat i) ->
  (i < List.length (Cycler.assets s))%nat ->
  exists asset,
    List.nth_error (Cycler.assets s) (S i mod List.length (Cycler.assets s))
    = Some asset
    /\ Cycler.nextAsset s w
       = Run.mk w
           [Console level_log "Displaying"
              [WebviewAsset.name asset;
               number_text (WebviewAsset.displayTime asset)]]
           (Return
              (shown asset
                 (Cycler.with_index
                    (Num (Z.of_nat
                            (S i mod List.length (Cycler.assets s))))
                    s))).
Proof.
  intros Hi Hlt. set (n := List.length (Cycler.assets s)) in *.
  assert (Hmod : (S i mod n < n)%nat) by (apply Nat.mod_upper_bound; lia).
  destruct (item_in_range (Cycler.assets s) (S i mod n) Hmod)
    as [asset [Hitem Hnth]].
  exists asset. split; [exact Hnth|].
  unfold Cycler.nextAsset. rewrite Hi. fold n.
  assert (Hrem : JsMath.rem (Number.add (Num (Z.of_nat i)) (Num 1))
                   (Num (Z.of_nat n))
                 = Num (Z.of_nat (S i mod n))).
  { cbn [Number.add JsMath.rem].
    assert (Hn0 : (Z.of_nat n =? 0) = false) by (apply Z.eqb_neq; lia).
    rewrite Hn0. f_equal. rewrite Z.rem_mod_nonneg by lia.
    rewrite Nat2Z.inj_mod. f_equal. lia. }
  rewrite Hrem. apply showCurrentAsset_run. exact Hitem.
Qed.

Lemma startCycle_run (s : Cycler.t) (w : world) :
  let run := Cycler.startCycle s w in
  Run.final run = w
  /\ (List.length (Cycler.assets s) = 0%nat -> Run.result run = Return s)
  /\ (in_cycler_window (Date_now w) (Cycler.currentPlaylist s) = false ->
      Run.result run = Return s)
  /\ (forall asset,
        List.length (Cycler.assets s) <> 0%nat ->
        in_cycler_window (Date_now w) (Cycler.currentPlaylist s) = true ->
        Cycler.item (Cycler.assets s) (Cycler.currentAssetIndex s)
        = Some asset ->
        Run.result run = Return (watched (shown asset s))).
Proof.
  cbv zeta. unfold Cycler.startCycle.
  destruct (Nat.eqb_spec (List.length (Cycler.assets s)) 0) as [Hz|Hnz].
  { rewrite bind_console. repeat split; intros; contradiction. }
  destruct (cycler_isPlaylistActive_run (Cycler.currentPlaylist s) w)
    as [Hr [Hf _]].
  cbv zeta in Hr, Hf. rewrite (bind_returns _ _ _ _ Hr), Hf.
  destruct (in_cycler_window (Date_now w) (Cycler.currentPlaylist s));
    cbn [negb].
  - destruct (Cycler.item (Cycler.assets s) (Cycler.currentAssetIndex s))
      as [asset|] eqn:Hitem.
    + rewrite (bind_returns _ _ _ (shown asset s));
        rewrite (showCurrentAsset_run s asset w Hitem); [|reflexivity].
      cbn [Run.final Run.trace]. repeat split; try (intros; congruence).
      intros a _ _ E. injection E as <-. reflexivity.
    + rewrite (bind_throws _ _ _
                 (ErrorObject true "Cannot read properties of undefined"));
        rewrite (showCurrentAsset_throws s w Hitem); [|reflexivity].
      cbn [Run.final Run.trace]. repeat split; try (intros; congruence).
  - rewrite bind_console. repeat split; try (intros; congruence).
Qed.

Lemma checkDate_run (s : Cycler.t) (w : world) :
  Run.result (Cycler.checkDate s w)
  = Return (if in_cycler_window (Date_now w) (Cycler.currentPlaylist s)
            then s else Cycler.stopCycle s)
  /\ Run.final (Cycler.checkDate s w) = w.
Proof.
  unfold Cycler.checkDate.
  destruct (cycler_isPlaylistActive_run (Cycler.currentPlaylist s) w)
    as [Hr [Hf _]].
  cbv zeta in Hr, Hf. rewrite (bind_returns _ _ _ _ Hr), Hf.
  destruct (in_cycler_window (Date_now w) (Cycler.currentPlaylist s));
    cbn [negb]; [|rewrite bind_console]; split; reflexivity.
Qed.

Lemma skipToAsset_unknown (assetId : string) (s : Cycler.t) (w : world) :
  (forall asset, In asset (Cycler.assets s) ->
                 String.eqb (WebviewAsset.id asset) assetId = false) ->
  Cycler.skipToAsset assetId s w = Run.mk w [] (Return (false, s)).
Proof.
  intros Hnone. unfold Cycler.skipToAsset.
  destruct (Z.eqb_spec
              (Cycler.findIndex
                 (fun asset => String.eqb (WebviewAsset.id asset) assetId)
                 (Cycler.assets s)) (-1)) as [_|Hne]; [reflexivity|].
  destruct (findIndex_from_spec
              (fun asset => String.eqb (WebviewAsset.id asset) assetId)
              (Cycler.assets s) 0) as [_ H].
  destruct (H (Z.le_refl 0) Hne) as [k [x [_ [_ [Hn [Ht _]]]]]].
  apply nth_error_In in Hn. rewrite (Hnone x Hn) in Ht. discriminate.
Qed.

Lemma skipToAsset_known (assetId : string) (s : Cycler.t) (w : world)
    (asset : WebviewAsset.t) :
  In asset (Cycler.assets s) -> WebviewAsset.id asset = assetId ->
  exists k target,
    List.nth_error (Cycler.assets s) k = Some target
    /\ WebviewAsset.id target = assetId
    /\ (forall j other, (j < k)%nat ->
          List.nth_error (Cycler.assets s) j = Some other ->
          WebviewAsset.id other <> assetId)
    /\ Cycler.skipToAsset assetId s w
       = Run.mk w
           [Console level_log "Displaying"
              [WebviewAsset.name target;
               number_text (WebviewAsset.displayTime target)]]
           (Return
              (true,
               shown target
                 (Cycler.with_index (Num (Z.of_nat k)) (Cycler.stopCycle s)))).
Proof.
  intros Hin Hid. unfold Cycler.skipToAsset.
  destruct (findIndex_from_spec
              (fun a => String.eqb (WebviewAsset.id a) assetId)
              (Cycler.assets s) 0) as [Hnone Hsome].
  cbv zeta in Hnone, Hsome. fold (@Cycler.findIndex WebviewAsset.t) in *.
  destruct (Z.eqb_spec
              (Cycler.findIndex
                 (fun a => String.eqb (WebviewAsset.id a) assetId)
                 (Cycler.assets s)) (-1)) as [E|Hne].
  { specialize (Hnone (conj E (Z.le_refl 0)) asset Hin). cbn in Hnone.
    rewrite Hid, String.eqb_refl in Hnone. discriminate. }
  destruct (Hsome (Z.le_refl 0) Hne) as [k [x [E [Hk [Hn [Ht Hfirst]]]]]].
  exists k, x. split; [exact Hn|]. split; [now apply String.eqb_eq|]. split.
  { intros j other Hj Ho Heq. specialize (Hfirst j other Hj Ho). cbn in Hfirst.
    rewrite Heq, String.eqb_refl in Hfirst. discriminate. }
  unfold Cycler.findIndex in *. rewrite E. cbn [Z.add].
  assert (Hitem : Cycler.item
                    (Cycler.assets
                       (Cycler.with_index (Num (Z.of_nat k))
                          (Cycler.stopCycle s)))
                    (Cycler.currentAssetIndex
                       (Cycler.with_index (Num (Z.of_nat k))
                          (Cycler.stopCycle s))) = Some x).
  { destruct (item_in_range (Cycler.assets s) k Hk) as [a [Ha Hna]].
    rewrite stopCycle_spec. unfold Cycler.with_index, Cycler.assets in *.
    cbn [Cycler.currentPlaylist Cycler.currentAssetIndex].
    rewrite Ha. congruence. }
  rewrite (bind_returns _ _ _ _
             (f_equal Run.result (showCurrentAsset_run _ x w Hitem))).
  rewrite (showCurrentAsset_run _ x w Hitem). reflexivity.
Qed.

End CyclerOperations.

Lemma NoDup_map_inj {A B} (f : A -> B) (l : list A) (a b : A) :
  NoDup (List.map f l) -> In a l -> In b l -> f a = f b -> a = b.
Proof.
  induction l as [|x l IH]; intros Hn Ha Hb E; [destruct Ha|].
  cbn in Hn. inversion Hn as [|? ? Hnot Hn']; subst.
  destruct Ha as [-> | Ha], Hb as [-> | Hb]; try reflexivity.
  - exfalso. apply Hnot. rewrite E. now apply in_map.
  - exfalso. apply Hnot. rewrite <- E. now apply in_map.
  - now apply IH.
Qed.

Lemma NoDup_map_filter {A B} (f : A -> B) (g : A -> bool) (l : list A) :
  NoDup (List.map f l) -> NoDup (List.map f (List.filter g l)).
Proof.
  induction l as [|x l IH]; intros Hn; cbn; [constructor|].
  cbn in Hn. inversion Hn as [|? ? Hnot Hn']; subst.
  destruct (g x); [|now apply IH]. cbn. constructor; [|now apply IH].
  intros Hin. apply Hnot. apply in_map_iff in Hin as [y [E Hy]].
  apply filter_In in Hy as [Hy _]. rewrite <- E. now apply in_map.
Qed.

Section CyclerTimers.
Context {P : Platform}.

Lemma fire_unarmed (h : nat) (s : Cycler.t) (w : world) :
  ~ In h (handles s) -> Cycler.fire h s w = Run.mk w [] (Return s).
Proof.
  intros Hnot. unfold Cycler.fire.
  destruct (List.find _ (Cycler.pending s)) as [timer|] eqn:Hfind;
    [|reflexivity].
  apply find_some in Hfind as [Hin Heq]. apply Nat.eqb_eq in Heq.
  exfalso. apply Hnot. rewrite <- Heq. unfold handles. now apply in_map.
Qed.

Lemma fire_advance (timer : Cycler.Timer.t) (s : Cycler.t) (i : nat)
    (w : world) :
  NoDup (handles s) -> In timer (Cycler.pending s) ->
  Cycler.Timer.action timer = Cycler.advance ->
  Cycler.Timer.repeats timer = false ->
  Cycler.currentAssetIndex s = Num (Z.of_nat i) ->
  (i < List.length (Cycler.assets s))%nat ->
  exists asset,
    List.nth_error (Cycler.assets s) (S i mod List.length (Cycler.assets s))
    = Some asset
    /\ Cycler.fire (Cycler.Timer.handle timer) s w
       = Run.mk w
           [Console level_log "Displaying"
              [WebviewAsset.name asset;
               number_text (WebviewAsset.displayTime asset)]]
           (Return
              (shown asset
                 (Cycler.with_index
                    (Num (Z.of_nat (S i mod List.length (Cycler.assets s))))
                    (Cycler.clear (Cycler.Timer.handle timer) s)))).
Proof.
  intros Hn Hin Ha Hr Hi Hlt. unfold Cycler.fire.
  rewrite (find_handle _ timer Hn Hin), Hr, Ha.
  exact (nextAsset_run (Cycler.clear (Cycler.Timer.handle timer) s) i w Hi Hlt).
Qed.

Lemma fire_date_check (timer : Cycler.Timer.t) (s : Cycler.t) (w : world) :
  NoDup (handles s) -> In timer (Cycler.pending s) ->
  Cycler.Timer.action timer = Cycler.date_check ->
  Cycler.Timer.repeats timer = true ->
  Run.result (Cycler.fire (Cycler.Timer.handle timer) s w)
  = Return (if in_cycler_window (Date_now w) (Cycler.currentPlaylist s)
            then s else Cycler.stopCycle s)
  /\ Run.final (Cycler.fire (Cycler.Timer.handle timer) s w) = w.
Proof.
  intros Hn Hin Ha Hr. unfold Cycler.fire.
  rewrite (find_handle _ timer Hn Hin), Hr, Ha. apply checkDate_run.
Qed.

(** What stays armed when the owned advance timer of handle [h] is
    cleared: date checks, all of them. *)
Lemma clear_advance (timer : Cycler.Timer.t) (s : Cycler.t) :
  tidy s -> In timer (Cycler.pending s) ->
  Cycler.Timer.action timer = Cycler.advance ->
  let s' := Cycler.clear (Cycler.Timer.handle timer) s in
  Cycler.cycleTimer s = Some (Cycler.Timer.handle timer)
  /\ Cycler.Timer.repeats timer = false
  /\ Forall (date_owned s') (Cycler.pending s')
  /\ NoDup (handles s')
  /\ Forall (fun h => (h < Cycler.next_handle s')%nat) (handles s')
  /\ date_timers s' = date_timers s
  /\ advance_timers s' = [].
Proof.
  intros [Hi Ho Hn Hf] Hin Ha. cbv zeta.
  assert (Hc : cycle_owned s timer).
  { rewrite Forall_forall in Ho. destruct (Ho timer Hin) as [H | [_ [H _]]];
      [exact H | congruence]. }
  destruct Hc as [Hc [_ Hr]]. split; [exact Hc|]. split; [exact Hr|].
  assert (Hkeep : forall t, In t (Cycler.pending s) ->
            negb (Nat.eqb (Cycler.Timer.handle t) (Cycler.Timer.handle timer))
            = true ->
            date_owned s t).
  { intros t Ht Hne. rewrite Forall_forall in Ho.
    destruct (Ho t Ht) as [[Hct _] | H]; [|exact H].
    rewrite Hc in Hct. injection Hct as E. rewrite E, Nat.eqb_refl in Hne.
    discriminate. }
  split.
  { apply Forall_forall. intros t Ht. cbn in Ht. apply filter_In in Ht as [Ht Hne].
    exact (Hkeep t Ht Hne). }
  split; [unfold handles; cbn; now apply NoDup_map_filter|].
  split.
  { unfold handles in *. cbn. rewrite Forall_forall in *. intros h Hh.
    apply in_map_iff in Hh as [t [<- Ht]]. apply filter_In in Ht as [Ht _].
    apply Hf. now apply in_map. }
  unfold date_timers, advance_timers. cbn. rewrite !filter_filter. split.
  - apply filter_ext_in. intros t Ht.
    destruct (Nat.eqb_spec (Cycler.Timer.handle t) (Cycler.Timer.handle timer))
      as [E|_]; [|reflexivity].
    assert (t = timer) as ->
        by (eapply NoDup_map_inj; [exact Hn | exact Ht | exact Hin | exact E]).
    now rewrite Ha.
  - assert (Hnone : forall l,
              (forall t, In t l -> In t (Cycler.pending s)) ->
              List.filter
                (fun x =>
                   negb (Nat.eqb (Cycler.Timer.handle x)
                           (Cycler.Timer.handle timer))
                   && match Cycler.Timer.action x with
                      | Cycler.advance => true
                      | Cycler.date_check => false
                      end) l = []).
    { induction l as [|t l IH]; intros Hsub; cbn; [reflexivity|].
      rewrite IH by (intros x Hx; apply Hsub; now right).
      destruct (negb _) eqn:Hne; cbn; [|reflexivity].
      destruct (Hkeep t (Hsub t (or_introl eq_refl)) Hne) as [_ [Hd _]].
      now rewrite Hd. }
    apply Hnone. auto.
Qed.

End CyclerTimers.

Lemma lobby_running_tidy : tidy lobby_running.
Proof.
  constructor.
  - exists 0%nat. split; [reflexivity | vm_compute; lia].
  - constructor; [left; repeat split|].
    constructor; [right; repeat split | constructor].
  - unfold handles. cbn. repeat constructor; cbn; intuition congruence.
  - unfold handles. cbn. repeat constructor.
Qed.

Lemma advance_step {P : Platform}
    (timer : Cycler.Timer.t) (s : Cycler.t) (w : world) :
  tidy s ->
  In timer (Cycler.pending s) ->
  Cycler.Timer.action timer = Cycler.advance ->
  exists i asset s',
    Cycler.currentAssetIndex s = Num (Z.of_nat i)
    /\ Run.result (Cycler.fire (Cycler.Timer.handle timer) s w) = Return s'
    /\ Run.final (Cycler.fire (Cycler.Timer.handle timer) s w) = w
    /\ Cycler.currentAssetIndex s'
       = Num (Z.of_nat (S i mod List.length (Cycler.assets s)))
    /\ List.nth_error (Cycler.assets s) (S i mod List.length (Cycler.assets s))
       = Some asset
    /\ Cycler.changes s'
       = (Cycler.changes s ++ [(asset, WebviewAsset.displayTime asset)])%list
    /\ advance_timers s'
       = [Cycler.Timer.mk (Cycler.next_handle s)
            (JsMath.mul (WebviewAsset.displayTime asset) (Num 1000))
            false Cycler.advance]
    /\ Cycler.cycleTimer s' = Some (Cycler.next_handle s)
    /\ date_timers s' = date_timers s
    /\ Cycler.dateCheckTimer s' = Cycler.dateCheckTimer s
    /\ running s'.
Proof.
  intros Ht Hin Ha.
  destruct (clear_advance timer s Ht Hin Ha)
    as [Hc [Hr [Ho [Hn [Hf [Hd Hadv]]]]]].
  cbv zeta in *. destruct Ht as [[i [Hi Hlt]] _ Hnd _].
  destruct (fire_advance timer s i w Hnd Hin Ha Hr Hi Hlt)
    as [asset [Hnth Hrun]].
  exists i, asset. eexists. split; [exact Hi|].
  split; [rewrite Hrun; reflexivity|].
  split; [rewrite Hrun; reflexivity|].
  split; [reflexivity|]. split; [exact Hnth|]. split; [reflexivity|].
  split.
  { unfold advance_timers in *. cbn in *. rewrite filter_app, Hadv.
    reflexivity. }
  split; [reflexivity|]. split.
  { unfold date_timers in *. cbn in *. rewrite filter_app, Hd. cbn.
    now rewrite app_nil_r. }
  split; [reflexivity|].
  split.
  - apply tidy_shown; try assumption.
    exists (S i mod List.length (Cycler.assets s))%nat. split; [reflexivity|].
    change (Cycler.assets
              (Cycler.with_index
                 (Num (Z.of_nat (S i mod List.length (Cycler.assets s))))
                 (Cycler.clear (Cycler.Timer.handle timer) s)))
      with (Cycler.assets s).
    apply Nat.mod_upper_bound. lia.
  - eexists. split; [cbn; apply in_or_app; right; left; reflexivity|].
    split; reflexivity.
Qed.


(** X5: when the armed advance timer of a tidy cycler fires, the index
    moves forward by one and wraps to 0 behind the last asset; the handler
    is called once, with the asset now current and its full display time;
    the fired timer is gone and a fresh one-shot timer of that duration is
    the only advance timer armed; the date check is untouched; and the
    cycler is tidy again. *)
Theorem advance_wraps {P : Platform}
    (timer : Cycler.Timer.t) (s : Cycler.t) (w : world) :
  tidy s ->
  In timer (Cycler.pending s) ->
  Cycler.Timer.action timer = Cycler.advance ->
  exists i asset s',
    Cycler.currentAssetIndex s = Num (Z.of_nat i)
    /\ Run.result (Cycler.fire (Cycler.Timer.handle timer) s w) = Return s'
    /\ Cycler.currentAssetIndex s'
       = Num (Z.of_nat (S i mod List.length (Cycler.assets s)))
    /\ List.nth_error (Cycler.assets s) (S i mod List.length (Cycler.assets s))
       = Some asset
    /\ Cycler.changes s'
       = (Cycler.changes s ++ [(asset, WebviewAsset.displayTime asset)])%list
    /\ advance_timers s'
       = [Cycler.Timer.mk (Cycler.next_handle s)
            (JsMath.mul (WebviewAsset.displayTime asset) (Num 1000))
            false Cycler.advance]
    /\ Cycler.cycleTimer s' = Some (Cycler.next_handle s)
    /\ date_timers s' = date_timers s
    /\ Cycler.dateCheckTimer s' = Cycler.dateCheckTimer s
    /\ running s'.
Proof.
  intros Ht Hin Ha.
  destruct (advance_step timer s w Ht Hin Ha)
    as [i [asset [s' [H1 [H2 [_ H3]]]]]].
  exists i, asset, s'. split; [exact H1|]. split; [exact H2 | exact H3].
Qed.

Lemma advance_wraps_witness :
  (tidy lobby_running
   /\ In (Cycler.Timer.mk 1 (Num 10000) false Cycler.advance)
        (Cycler.pending lobby_running)
   /\ Cycler.Timer.action (Cycler.Timer.mk 1 (Num 10000) false Cycler.advance)
      = Cycler.advance)
  /\ exists i asset s',
    Cycler.currentAssetIndex lobby_running = Num (Z.of_nat i)
    /\ Run.result (@Cycler.fire Scripted.platform 1 lobby_running idle_world)
       = Return s'
    /\ Cycler.currentAssetIndex s'
       = Num (Z.of_nat (S i mod List.length (Cycler.assets lobby_running)))
    /\ List.nth_error (Cycler.assets lobby_running)
         (S i mod List.length (Cycler.assets lobby_running))
       = Some asset
    /\ Cycler.changes s'
       = (Cycler.changes lobby_running
          ++ [(asset, WebviewAsset.displayTime asset)])%list
    /\ advance_timers s'
       = [Cycler.Timer.mk (Cycler.next_handle lobby_running)
            (JsMath.mul (WebviewAsset.displayTime asset) (Num 1000))
            false Cycler.advance]
    /\ Cycler.cycleTimer s' = Some (Cycler.next_handle lobby_running)
    /\ date_timers s' = date_timers lobby_running
    /\ Cycler.dateCheckTimer s' = Cycler.dateCheckTimer lobby_running
    /\ running s'.
Proof.
  assert (H : In (Cycler.Timer.mk 1 (Num 10000) false Cycler.advance)
                (Cycler.pending lobby_running)) by (left; reflexivity).
  split; [split; [exact lobby_running_tidy | split; [exact H | reflexivity]]|].
  exact (@advance_wraps Scripted.platform _ lobby_running idle_world
           lobby_running_tidy H eq_refl).
Defined.

Lemma round_changes_congr (playlist : PlaylistCycle.t) (a b k : nat) :
  (a mod List.length (PlaylistCycle.assets playlist)
   = b mod List.length (PlaylistCycle.assets playlist))%nat ->
  round_changes playlist a k = round_changes playlist b k.
Proof.
  set (n := List.length (PlaylistCycle.assets playlist)).
  revert a b; induction k as [|k IH]; intros a b Hab; cbn; [reflexivity|].
  assert (Hs : (S a mod n = S b mod n)%nat).
  { destruct n as [|n']; [cbn in *; congruence|].
    rewrite <- (Nat.add_1_r a), <- (Nat.add_1_r b).
    rewrite <- (Nat.Div0.add_mod_idemp_l a), <- (Nat.Div0.add_mod_idemp_l b).
    now rewrite Hab. }
  unfold asset_round. fold n. rewrite Hs.
  destruct (List.nth_error _ _); [|reflexivity].
  f_equal. apply IH. exact Hs.
Qed.

Section CycleOrder.
Context {P : Platform}.

Lemma ticks_round (k : nat) :
  forall (s : Cycler.t) (i : nat) (w : world),
    running s ->
    Cycler.currentAssetIndex s = Num (Z.of_nat i) ->
    exists s',
      Run.result (ticks k s w) = Return s'
      /\ Cycler.currentAssetIndex s'
         = Num (Z.of_nat ((i + k) mod List.length (Cycler.assets s)))
      /\ Cycler.changes s'
         = (Cycler.changes s
            ++ round_changes (Cycler.currentPlaylist s) i k)%list
      /\ List.length (round_changes (Cycler.currentPlaylist s) i k) = k
      /\ Cycler.currentPlaylist s' = Cycler.currentPlaylist s
      /\ running s'.
Proof.
  induction k as [|k IH]; intros s i w Hrun Hi.
  - exists s. cbn. rewrite Nat.add_0_r, app_nil_r.
    destruct Hrun as [Ht Htimer]. pose proof Ht as [[j [Hj Hlt]] _ _ _].
    rewrite Hi in Hj. injection Hj as Hj. apply Nat2Z.inj in Hj. subst j.
    rewrite Nat.mod_small by exact Hlt.
    split; [reflexivity|]. split; [exact Hi|]. split; [reflexivity|].
    split; [reflexivity|]. split; [reflexivity|]. split; assumption.
  - destruct Hrun as [Ht [timer [Hin [Ha Hc]]]].
    destruct (advance_step timer s w Ht Hin Ha)
      as [j [asset [s1 [Hj [Hres [Hfin [Hidx [Hnth [Hch [_ [_ [_ [_ Hrun1]]]]]]]]]]]]].
    rewrite Hi in Hj. injection Hj as Hj. apply Nat2Z.inj in Hj. subst j.
    assert (Hpl : Cycler.currentPlaylist s1 = Cycler.currentPlaylist s).
    { unfold Cycler.fire in Hres.
      rewrite (find_handle _ timer (tidy_nodup s Ht) Hin) in Hres.
      destruct Ht as [[j [Hj Hlt]] Ho _ _].
      assert (Hr : Cycler.Timer.repeats timer = false).
      { rewrite Forall_forall in Ho.
        destruct (Ho timer Hin) as [[_ [_ H]] | [_ [H _]]];
          [exact H | congruence]. }
      rewrite Hr, Ha in Hres.
      destruct (nextAsset_run (Cycler.clear (Cycler.Timer.handle timer) s)
                  j w Hj Hlt) as [a [_ E]].
      rewrite E in Hres. cbn in Hres. injection Hres as <-. reflexivity. }
    assert (Hassets : Cycler.assets s1 = Cycler.assets s).
    { unfold Cycler.assets. now rewrite Hpl. }
    destruct (IH s1 (S i mod List.length (Cycler.assets s))%nat w Hrun1 Hidx)
      as [s' [Hres' [Hidx' [Hch' [Hlen' [Hpl' Hrun']]]]]].
    exists s'. cbn [ticks].
    assert (Htick : Run.result (tick s w) = Return s1
                    /\ Run.final (tick s w) = w).
    { unfold tick. rewrite Hc. now split. }
    destruct Htick as [Htr Htf].
    rewrite (bind_returns _ _ _ s1 Htr), Htf, prepend_result.
    split; [exact Hres'|].
    rewrite Hassets in Hidx'. rewrite Hpl in Hch', Hlen'.
    assert (Hround : round_changes (Cycler.currentPlaylist s)
                       (S i mod List.length (Cycler.assets s)) k
                     = round_changes (Cycler.currentPlaylist s) (S i) k).
    { apply round_changes_congr. unfold Cycler.assets.
      apply Nat.Div0.mod_mod. }
    split.
    { rewrite Hidx'. do 2 f_equal.
      rewrite Nat.Div0.add_mod_idemp_l. f_equal. lia. }
    cbn [round_changes]. unfold asset_round.
    unfold Cycler.assets in Hnth. rewrite Hnth.
    split.
    { rewrite Hch', Hch, Hround, <- app_assoc. reflexivity. }
    split; [cbn; rewrite <- Hround; now rewrite Hlen'|].
    split; [congruence | exact Hrun'].
Qed.

End CycleOrder.

(** X6: a running cycler presents its assets in cyclic order without end:
    when the advance timer has fired [k] times the index stands [k]
    positions further, counted round, and the handler has been called
    exactly [k] more times, with the assets at the positions in between, in
    order, each with its full display time. *)
Theorem cycle_goes_round {P : Platform}
    (k : nat) (s : Cycler.t) (i : nat) (w : world) :
  running s ->
  Cycler.currentAssetIndex s = Num (Z.of_nat i) ->
  exists s',
    Run.result (ticks k s w) = Return s'
    /\ Cycler.currentAssetIndex s'
       = Num (Z.of_nat ((i + k) mod List.length (Cycler.assets s)))
    /\ Cycler.changes s'
       = (Cycler.changes s ++ round_changes (Cycler.currentPlaylist s) i k)%list
    /\ List.length (round_changes (Cycler.currentPlaylist s) i k) = k
    /\ running s'.
Proof.
  intros Hrun Hi.
  destruct (ticks_round k s i w Hrun Hi) as [s' [H1 [H2 [H3 [H4 [_ H5]]]]]].
  exists s'. split; [exact H1|]. split; [exact H2|]. split; [exact H3|].
  split; [exact H4 | exact H5].
Qed.

Lemma lobby_running_running : running lobby_running.
Proof.
  split; [exact lobby_running_tidy|].
  exists (Cycler.Timer.mk 1 (Num 10000) false Cycler.advance).
  split; [left; reflexivity | split; reflexivity].
Qed.

Lemma cycle_goes_round_witness :
  (running lobby_running
   /\ Cycler.currentAssetIndex lobby_running = Num (Z.of_nat 0))
  /\ exists s',
    Run.result (@ticks Scripted.platform 5 lobby_running idle_world)
    = Return s'
    /\ Cycler.currentAssetIndex s'
       = Num (Z.of_nat ((0 + 5) mod List.length (Cycler.assets lobby_running)))
    /\ Cycler.changes s'
       = (Cycler.changes lobby_running
          ++ round_changes (Cycler.currentPlaylist lobby_running) 0 5)%list
    /\ List.length (round_changes (Cycler.currentPlaylist lobby_running) 0 5)
       = 5%nat
    /\ running s'.
Proof.
  split; [split; [exact lobby_running_running | reflexivity]|].
  exact (@cycle_goes_round Scripted.platform 5 lobby_running 0 idle_world
           lobby_running_running eq_refl).
Defined.

(** Five advances of the lobby cycle: image, video, image, video, image. *)
Example lobby_five_advances :
  match Run.result (@ticks Scripted.platform 5 lobby_running idle_world) with
  | Return s =>
      List.map (fun change => (WebviewAsset.id (fst change), snd change))
        (Cycler.changes s)
      = [("a2", Num 10); ("a1", Num 5); ("a2", Num 10); ("a1", Num 5);
         ("a2", Num 10); ("a1", Num 5)]
      /\ Cycler.currentAssetIndex s = Num 1
      /\ List.length (Cycler.pending s) = 2%nat
  | Throw _ => False
  end.
Proof. vm_compute. repeat split. Qed.

(** X7: [skipToAsset] with an id that no asset of the playlist carries
    answers [false] and does nothing: no console call, no timer cleared or
    armed, no call of the handler, the index where it was. *)
Theorem skip_unknown_is_inert {P : Platform}
    (assetId : string) (s : Cycler.t) (w : world) :
  (forall asset, In asset (Cycler.assets s) ->
                 WebviewAsset.id asset <> assetId) ->
  Cycler.skipToAsset assetId s w = Run.mk w [] (Return (false, s)).
Proof.
  intros Hnone. apply skipToAsset_unknown. intros asset Hin.
  apply String.eqb_neq. now apply Hnone.
Qed.

Lemma skip_unknown_is_inert_witness :
  (forall asset, In asset (Cycler.assets lobby_running) ->
                 WebviewAsset.id asset <> "zz")
  /\ @Cycler.skipToAsset Scripted.platform "zz" lobby_running idle_world
     = Run.mk idle_world [] (Return (false, lobby_running)).
Proof.
  assert (H : forall asset, In asset (Cycler.assets lobby_running) ->
                            WebviewAsset.id asset <> "zz").
  { intros asset Hin. vm_compute in Hin.
    destruct Hin as [<- | [<- | []]]; discriminate. }
  split; [exact H|].
  exact (@skip_unknown_is_inert Scripted.platform "zz" lobby_running
           idle_world H).
Defined.

(** X8: [skipToAsset] with an id of the playlist answers [true], jumps to
    the first asset of that id and presents it: the handler is called once
    with that asset and its full display time, and one advance timer of
    that duration is armed.  On a tidy cycler nothing else stays armed: the
    date check is cleared and not armed again, so a cycle that was skipped
    is no longer stopped when its window closes. *)
Theorem skip_jumps_and_drops_date_check {P : Platform}
    (assetId : string) (s : Cycler.t) (w : world) (asset : WebviewAsset.t) :
  tidy s ->
  In asset (Cycler.assets s) ->
  WebviewAsset.id asset = assetId ->
  exists k target s',
    Run.result (Cycler.skipToAsset assetId s w) = Return (true, s')
    /\ List.nth_error (Cycler.assets s) k = Some target
    /\ WebviewAsset.id target = assetId
    /\ (forall j other, (j < k)%nat ->
          List.nth_error (Cycler.assets s) j = Some other ->
          WebviewAsset.id other <> assetId)
    /\ Cycler.currentAssetIndex s' = Num (Z.of_nat k)
    /\ Cycler.changes s'
       = (Cycler.changes s ++ [(target, WebviewAsset.displayTime target)])%list
    /\ Cycler.pending s'
       = [Cycler.Timer.mk (Cycler.next_handle s)
            (JsMath.mul (WebviewAsset.displayTime target) (Num 1000))
            false Cycler.advance]
    /\ Cycler.cycleTimer s' = Some (Cycler.next_handle s)
    /\ Cycler.dateCheckTimer s' = None
    /\ running s'.
Proof.
  intros Ht Hin Hid.
  destruct (skipToAsset_known assetId s w asset Hin Hid)
    as [k [target [Hnth [Htid [Hfirst Hrun]]]]].
  pose proof (stop_disarms s (tidy_owned s Ht)) as Hclear.
  exists k, target. eexists. split; [rewrite Hrun; reflexivity|].
  split; [exact Hnth|]. split; [exact Htid|]. split; [exact Hfirst|].
  rewrite stopCycle_spec.
  split; [reflexivity|]. split; [reflexivity|].
  split; [cbn; now rewrite Hclear|].
  split; [reflexivity|]. split; [reflexivity|].
  assert (Htidy : tidy
            (shown target
               (Cycler.with_index (Num (Z.of_nat k))
                  (Cycler.mk (Cycler.currentPlaylist s)
                     (Cycler.currentAssetIndex s) None None
                     (List.filter
                        (fun timer =>
                           negb (named (Cycler.cycleTimer s)
                                   (Cycler.Timer.handle timer))
                           && negb (named (Cycler.dateCheckTimer s)
                                      (Cycler.Timer.handle timer)))
                        (Cycler.pending s))
                     (Cycler.next_handle s) (Cycler.changes s))))).
  { apply tidy_shown.
    - exists k. split; [reflexivity|]. apply nth_error_Some.
      change (List.nth_error (Cycler.assets s) k <> None).
      rewrite Hnth. discriminate.
    - cbn. rewrite Hclear. constructor.
    - unfold handles. cbn. rewrite Hclear. constructor.
    - unfold handles. cbn. rewrite Hclear. constructor. }
  split; [exact Htidy|].
  eexists. split; [cbn; apply in_or_app; right; left; reflexivity|].
  split; reflexivity.
Qed.

Lemma skip_jumps_and_drops_date_check_witness :
  let promo :=
    WebviewAsset.mk "a2" "Promo" "video" (Num 1) (Num 10)
      (Some "assets/main/a2_promo.mp4") false
      "https://cdn.example.com/promo.mp4" in
  (tidy lobby_running
   /\ In promo (Cycler.assets lobby_running)
   /\ WebviewAsset.id promo = "a2")
  /\ exists k target s',
    Run.result
      (@Cycler.skipToAsset Scripted.platform "a2" lobby_running idle_world)
    = Return (true, s')
    /\ List.nth_error (Cycler.assets lobby_running) k = Some target
    /\ WebviewAsset.id target = "a2"
    /\ (forall j other, (j < k)%nat ->
          List.nth_error (Cycler.assets lobby_running) j = Some other ->
          WebviewAsset.id other <> "a2")
    /\ Cycler.currentAssetIndex s' = Num (Z.of_nat k)
    /\ Cycler.changes s'
       = (Cycler.changes lobby_running
          ++ [(target, WebviewAsset.displayTime target)])%list
    /\ Cycler.pending s'
       = [Cycler.Timer.mk (Cycler.next_handle lobby_running)
            (JsMath.mul (WebviewAsset.displayTime target) (Num 1000))
            false Cycler.advance]
    /\ Cycler.cycleTimer s' = Some (Cycler.next_handle lobby_running)
    /\ Cycler.dateCheckTimer s' = None
    /\ running s'.
Proof.
  cbv zeta.
  assert (H : In (WebviewAsset.mk "a2" "Promo" "video" (Num 1) (Num 10)
                    (Some "assets/main/a2_promo.mp4") false
                    "https://cdn.example.com/promo.mp4")
                (Cycler.assets lobby_running)) by (left; reflexivity).
  split; [split; [exact lobby_running_tidy | split; [exact H | reflexivity]]|].
  exact (@skip_jumps_and_drops_date_check Scripted.platform "a2"
           lobby_running idle_world _ lobby_running_tidy H eq_refl).
Defined.

(** ** Starting, stopping on a date, and what every cycler keeps *)

Section CyclerInvariant.
Context {P : Platform}.

Lemma start_result (s : Cycler.t) (w : world) :
  index_in_range s ->
  exists asset,
    Cycler.item (Cycler.assets s) (Cycler.currentAssetIndex s) = Some asset
    /\ In asset (Cycler.assets s)
    /\ Run.result (Cycler.startCycle s w)
       = Return (if in_cycler_window (Date_now w) (Cycler.currentPlaylist s)
                 then watched (shown asset s) else s).
Proof.
  intros [i [Hi Hlt]].
  destruct (item_in_range (Cycler.assets s) i Hlt) as [asset [Hitem Hnth]].
  exists asset. rewrite Hi. split; [exact Hitem|].
  split; [eapply nth_error_In; exact Hnth|].
  destruct (startCycle_run s w) as [_ [_ [Hout Hin]]]. cbv zeta in *.
  destruct (in_cycler_window (Date_now w) (Cycler.currentPlaylist s)) eqn:Hw.
  - apply Hin; [lia | reflexivity | rewrite Hi; exact Hitem].
  - apply Hout. reflexivity.
Qed.

Lemma tidy_started (asset : WebviewAsset.t) (s : Cycler.t) :
  tidy s -> Cycler.pending s = [] -> tidy (watched (shown asset s)).
Proof.
  intros Ht Hp. apply tidy_watched.
  - apply tidy_shown; unfold handles; rewrite ?Hp; try constructor.
    apply Ht.
  - cbn. rewrite Hp. cbn. constructor; [|constructor]. repeat split.
Qed.

Lemma tidy_stopped (s : Cycler.t) : tidy s -> tidy (Cycler.stopCycle s).
Proof.
  intros Ht. rewrite stopCycle_spec. apply tidy_idle.
  - destruct (tidy_index s Ht) as [i [Hi Hlt]]. exists i. split; assumption.
  - cbn. apply stop_disarms. apply Ht.
Qed.

Lemma tidy_skipped (k : nat) (target : WebviewAsset.t) (s : Cycler.t) :
  tidy s -> (k < List.length (Cycler.assets s))%nat ->
  tidy (shown target
          (Cycler.with_index (Num (Z.of_nat k)) (Cycler.stopCycle s))).
Proof.
  intros Ht Hk. pose proof (stop_disarms s (tidy_owned s Ht)) as Hclear.
  rewrite stopCycle_spec.
  apply tidy_shown; unfold handles; cbn; rewrite ?Hclear; try constructor.
  exists k. split; [reflexivity | exact Hk].
Qed.

Lemma faithful_same (s s' : Cycler.t) :
  Cycler.currentPlaylist s' = Cycler.currentPlaylist s ->
  Cycler.changes s' = Cycler.changes s ->
  faithful_changes s -> faithful_changes s'.
Proof.
  unfold faithful_changes, Cycler.assets. intros -> ->. trivial.
Qed.

Lemma faithful_shown (asset : WebviewAsset.t) (s : Cycler.t) :
  In asset (Cycler.assets s) -> faithful_changes s ->
  faithful_changes (shown asset s).
Proof.
  unfold faithful_changes. intros Hin Hf. cbn. apply Forall_app. split.
  - exact Hf.
  - constructor; [|constructor]. split; [exact Hin | reflexivity].
Qed.

Lemma stopCycle_playlist (s : Cycler.t) :
  Cycler.currentPlaylist (Cycler.stopCycle s) = Cycler.currentPlaylist s
  /\ Cycler.changes (Cycler.stopCycle s) = Cycler.changes s
  /\ Cycler.currentAssetIndex (Cycler.stopCycle s) = Cycler.currentAssetIndex s.
Proof. rewrite stopCycle_spec. repeat split. Qed.

Lemma faithful_stopped (s : Cycler.t) :
  faithful_changes s -> faithful_changes (Cycler.stopCycle s).
Proof.
  destruct (stopCycle_playlist s) as [Hp [Hc _]]. now apply faithful_same.
Qed.

(** What one operation keeps. *)
Lemma step_sound (s s' : Cycler.t) :
  tidy s -> faithful_changes s -> cycler_step s s' ->
  tidy s' /\ Cycler.currentPlaylist s' = Cycler.currentPlaylist s
  /\ faithful_changes s'.
Proof.
  intros Ht Hf Hstep.
  destruct Hstep as [w s s' Hp Hres | s | w assetId s found s' Hres
                    | w h s s' Hres].
  - destruct (start_result s w (tidy_index s Ht)) as [asset [_ [Hin E]]].
    rewrite E in Hres. injection Hres as <-.
    destruct (in_cycler_window (Date_now w) (Cycler.currentPlaylist s)).
    + split; [now apply tidy_started|]. split; [reflexivity|].
      apply (faithful_same (shown asset s)); try reflexivity.
      now apply faithful_shown.
    + split; [assumption | split; [reflexivity | assumption]].
  - split; [now apply tidy_stopped|].
    split; [apply stopCycle_playlist | now apply faithful_stopped].
  - destruct (List.existsb
                (fun a => String.eqb (WebviewAsset.id a) assetId)
                (Cycler.assets s)) eqn:Hex.
    + apply existsb_exists in Hex as [asset [Hin Heq]].
      apply String.eqb_eq in Heq.
      destruct (skipToAsset_known assetId s w asset Hin Heq)
        as [k [target [Hnth [_ [_ Hrun]]]]].
      rewrite Hrun in Hres. cbn in Hres. injection Hres as _ <-.
      assert (Hk : (k < List.length (Cycler.assets s))%nat).
      { apply nth_error_Some. rewrite Hnth. discriminate. }
      destruct (stopCycle_playlist s) as [Hpl [Hch _]].
      split; [now apply tidy_skipped|]. split; [exact Hpl|].
      apply faithful_shown.
      * change (In target (PlaylistCycle.assets
                             (Cycler.currentPlaylist (Cycler.stopCycle s)))).
        rewrite Hpl. eapply nth_error_In. exact Hnth.
      * apply (faithful_same (Cycler.stopCycle s)); try reflexivity.
        now apply faithful_stopped.
    + assert (Hnone : forall asset, In asset (Cycler.assets s) ->
                String.eqb (WebviewAsset.id asset) assetId = false).
      { intros asset Hin.
        destruct (String.eqb (WebviewAsset.id asset) assetId) eqn:E;
          [|reflexivity].
        assert (Htrue : List.existsb
                          (fun a => String.eqb (WebviewAsset.id a) assetId)
                          (Cycler.assets s) = true)
          by (apply existsb_exists; now exists asset).
        congruence. }
      rewrite (skipToAsset_unknown assetId s w Hnone) in Hres.
      cbn in Hres. injection Hres as _ <-. split; [assumption | split; [reflexivity | assumption]].
  - destruct (in_dec Nat.eq_dec h (handles s)) as [Harmed | Hnot].
    2:{ rewrite (fire_unarmed h s w Hnot) in Hres. cbn in Hres.
        injection Hres as <-. split; [assumption | split; [reflexivity | assumption]]. }
    unfold handles in Harmed. apply in_map_iff in Harmed as [timer [<- Hin]].
    destruct (Cycler.Timer.action timer) eqn:Ha.
    + destruct (clear_advance timer s Ht Hin Ha)
        as [Hc [Hr [Ho [Hn [Hfr _]]]]].
      cbv zeta in *. destruct (tidy_index s Ht) as [i [Hi Hlt]].
      destruct (fire_advance timer s i w (tidy_nodup s Ht) Hin Ha Hr Hi Hlt)
        as [asset [Hnth Hrun]].
      rewrite Hrun in Hres. cbn in Hres. injection Hres as <-.
      split.
      { apply tidy_shown; try assumption.
        exists (S i mod List.length (Cycler.assets s))%nat.
        split; [reflexivity|].
        change (Cycler.assets
                  (Cycler.with_index
                     (Num (Z.of_nat (S i mod List.length (Cycler.assets s))))
                     (Cycler.clear (Cycler.Timer.handle timer) s)))
          with (Cycler.assets s).
        apply Nat.mod_upper_bound. lia. }
      split; [reflexivity|].
      apply faithful_shown.
      * change (In asset (Cycler.assets s)). eapply nth_error_In. exact Hnth.
      * apply (faithful_same s); [reflexivity | reflexivity | exact Hf].
    + assert (Hr : Cycler.Timer.repeats timer = true).
      { pose proof (tidy_owned s Ht) as Ho. rewrite Forall_forall in Ho.
        destruct (Ho timer Hin) as [[_ [H _]] | [_ [_ H]]];
          [congruence | exact H]. }
      destruct (fire_date_check timer s w (tidy_nodup s Ht) Hin Ha Hr)
        as [E _].
      rewrite E in Hres. injection Hres as <-.
      destruct (in_cycler_window (Date_now w) (Cycler.currentPlaylist s)).
      * split; [assumption | split; [reflexivity | assumption]].
      * split; [now apply tidy_stopped|].
        split; [apply stopCycle_playlist | now apply faithful_stopped].
Qed.

Lemma reachable_sound (playlist : PlaylistCycle.t) (s : Cycler.t) :
  PlaylistCycle.assets playlist <> [] ->
  cycler_reachable playlist s ->
  tidy s /\ Cycler.currentPlaylist s = playlist /\ faithful_changes s.
Proof.
  intros Hne Hreach. induction Hreach as [|s s' _ [Ht [Hp Hf]] Hstep].
  - split.
    { apply tidy_idle; [|reflexivity]. exists 0%nat. split; [reflexivity|].
      unfold Cycler.assets. cbn.
      destruct (PlaylistCycle.assets playlist); [contradiction | cbn; lia]. }
    split; [reflexivity | constructor].
  - destruct (step_sound s s' Ht Hf Hstep) as [Ht' [Hp' Hf']].
    split; [exact Ht'|]. split; [congruence | exact Hf'].
Qed.

End CyclerInvariant.

Lemma at_most_one (o : option nat) (test : Cycler.Timer.t -> bool)
    (l : list Cycler.Timer.t) :
  NoDup (List.map Cycler.Timer.handle l) ->
  (forall t, In t l -> test t = true -> o = Some (Cycler.Timer.handle t)) ->
  (List.length (List.filter test l) <= 1)%nat.
Proof.
  induction l as [|x l IH]; intros Hn Hc; cbn; [lia|].
  inversion Hn as [|? ? Hnot Hn']; subst.
  destruct (test x) eqn:Hx.
  - assert (Hrest : List.filter test l = []).
    { destruct (List.filter test l) as [|y r] eqn:E; [reflexivity|].
      assert (Hy : In y (List.filter test l)) by (rewrite E; now left).
      apply filter_In in Hy as [Hy Hty]. exfalso. apply Hnot.
      pose proof (Hc x (or_introl eq_refl) Hx) as Hox.
      pose proof (Hc y (or_intror Hy) Hty) as Hoy.
      rewrite Hox in Hoy. injection Hoy as ->. now apply in_map. }
    rewrite Hrest. cbn. lia.
  - apply IH; [exact Hn'|]. intros t Hin. apply Hc. now right.
Qed.

(** X9: [startCycle] on a new cycler.  With an empty playlist, or at an
    instant outside the window of the playlist, it leaves the cycler as it
    was: the handler is not called and no timer is armed.  Otherwise it
    presents the first asset (one handler call, with its full display
    time), arms the advance timer of that duration and a date check that
    repeats every 60000 ms. *)
Theorem start_presents_first_asset {P : Platform}
    (playlist : PlaylistCycle.t) (w : world) :
  Run.result (Cycler.startCycle (Cycler.new playlist) w)
  = Return
      (match PlaylistCycle.assets playlist with
       | first :: _ =>
           if in_cycler_window (Date_now w) playlist
           then Cycler.mk playlist (Num 0) (Some 1%nat) (Some 2%nat)
                  [first_advance first; first_date_check] 3
                  [(first, WebviewAsset.displayTime first)]
           else Cycler.new playlist
       | [] => Cycler.new playlist
       end)
  /\ Run.final (Cycler.startCycle (Cycler.new playlist) w) = w.
Proof.
  destruct (startCycle_run (Cycler.new playlist) w)
    as [Hfin [Hempty [Hout Hin]]].
  cbv zeta in *. split; [|exact Hfin].
  destruct (PlaylistCycle.assets playlist) as [|first rest] eqn:Hassets.
  - apply Hempty. unfold Cycler.assets. cbn. now rewrite Hassets.
  - destruct (in_cycler_window (Date_now w) playlist) eqn:Hw.
    + rewrite (Hin first).
      * reflexivity.
      * unfold Cycler.assets. cbn. rewrite Hassets. discriminate.
      * exact Hw.
      * unfold Cycler.assets. cbn. now rewrite Hassets.
    + apply Hout. exact Hw.
Qed.

(** X10: when the date check of a tidy cycler fires inside the window of
    the playlist nothing changes; when it fires outside the window the
    cycle is stopped: no timer stays armed and both timer fields are
    cleared, while the index and the handler calls stay as they were (the
    handler is not told that the cycle stopped). *)
Theorem date_check_stops_outside_window {P : Platform}
    (timer : Cycler.Timer.t) (s : Cycler.t) (w : world) :
  tidy s ->
  In timer (Cycler.pending s) ->
  Cycler.Timer.action timer = Cycler.date_check ->
  exists s',
    Run.result (Cycler.fire (Cycler.Timer.handle timer) s w) = Return s'
    /\ (in_cycler_window (Date_now w) (Cycler.currentPlaylist s) = true ->
        s' = s)
    /\ (in_cycler_window (Date_now w) (Cycler.currentPlaylist s) = false ->
        Cycler.pending s' = []
        /\ Cycler.cycleTimer s' = None
        /\ Cycler.dateCheckTimer s' = None
        /\ Cycler.currentAssetIndex s' = Cycler.currentAssetIndex s
        /\ Cycler.changes s' = Cycler.changes s).
Proof.
  intros Ht Hin Ha.
  assert (Hr : Cycler.Timer.repeats timer = true).
  { pose proof (tidy_owned s Ht) as Ho. rewrite Forall_forall in Ho.
    destruct (Ho timer Hin) as [[_ [H _]] | [_ [_ H]]];
      [congruence | exact H]. }
  destruct (fire_date_check timer s w (tidy_nodup s Ht) Hin Ha Hr) as [E _].
  eexists. split; [exact E|].
  destruct (in_cycler_window (Date_now w) (Cycler.currentPlaylist s)).
  - split; [reflexivity | discriminate].
  - split; [discriminate|]. intros _.
    pose proof (stop_disarms s (tidy_owned s Ht)) as Hclear.
    rewrite stopCycle_spec. cbn. rewrite Hclear. repeat split.
Qed.

Lemma date_check_stops_outside_window_witness :
  (tidy lobby_running
   /\ In first_date_check (Cycler.pending lobby_running)
   /\ Cycler.Timer.action first_date_check = Cycler.date_check)
  /\ exists s',
    Run.result (@Cycler.fire Scripted.platform
                  (Cycler.Timer.handle first_date_check) lobby_running
                  idle_world) = Return s'
    /\ (@in_cycler_window Scripted.platform (@Date_now Scripted.platform idle_world)
          (Cycler.currentPlaylist lobby_running) = true ->
        s' = lobby_running)
    /\ (@in_cycler_window Scripted.platform (@Date_now Scripted.platform idle_world)
          (Cycler.currentPlaylist lobby_running) = false ->
        Cycler.pending s' = []
        /\ Cycler.cycleTimer s' = None
        /\ Cycler.dateCheckTimer s' = None
        /\ Cycler.currentAssetIndex s'
           = Cycler.currentAssetIndex lobby_running
        /\ Cycler.changes s' = Cycler.changes lobby_running).
Proof.
  assert (H : In first_date_check (Cycler.pending lobby_running))
    by (right; left; reflexivity).
  split; [split; [exact lobby_running_tidy | split; [exact H | reflexivity]]|].
  exact (@date_check_stops_outside_window Scripted.platform first_date_check
           lobby_running idle_world lobby_running_tidy H eq_refl).
Defined.

(** X11: [startCycle] does not stop a cycle that is running.  Called a
    second time it presents the current asset again and arms a second
    advance timer and a second date check; the timer fields then name the
    second pair only, so a later [stopCycle] clears that pair and leaves
    the first advance timer and the first date check armed. *)
Theorem second_start_leaks_timers {P : Platform}
    (playlist : PlaylistCycle.t) (first : WebviewAsset.t)
    (rest : list WebviewAsset.t) (w1 w2 : world) :
  PlaylistCycle.assets playlist = first :: rest ->
  in_cycler_window (Date_now w1) playlist = true ->
  in_cycler_window (Date_now w2) playlist = true ->
  exists s1 s2,
    Run.result (Cycler.startCycle (Cycler.new playlist) w1) = Return s1
    /\ Run.result (Cycler.startCycle s1 w2) = Return s2
    /\ Cycler.pending s1 = [first_advance first; first_date_check]
    /\ Cycler.changes s2
       = [(first, WebviewAsset.displayTime first);
          (first, WebviewAsset.displayTime first)]
    /\ List.length (Cycler.pending s2) = 4%nat
    /\ Cycler.cycleTimer (Cycler.stopCycle s2) = None
    /\ Cycler.dateCheckTimer (Cycler.stopCycle s2) = None
    /\ Cycler.pending (Cycler.stopCycle s2)
       = [first_advance first; first_date_check].
Proof.
  intros Hassets Hw1 Hw2.
  assert (Hrange : forall s, Cycler.currentPlaylist s = playlist ->
            Cycler.currentAssetIndex s = Num 0 ->
            exists asset,
              Cycler.item (Cycler.assets s) (Cycler.currentAssetIndex s)
              = Some asset /\ asset = first).
  { intros s Hp Hi. exists first. unfold Cycler.assets.
    rewrite Hp, Hi, Hassets. split; reflexivity. }
  assert (Hstart : forall s w, Cycler.currentPlaylist s = playlist ->
            Cycler.currentAssetIndex s = Num 0 ->
            in_cycler_window (Date_now w) playlist = true ->
            Run.result (Cycler.startCycle s w)
            = Return (watched (shown first s))).
  { intros s w Hp Hi Hw.
    destruct (startCycle_run s w) as [_ [_ [_ Hin]]]. cbv zeta in Hin.
    apply Hin.
    - unfold Cycler.assets. rewrite Hp, Hassets. discriminate.
    - now rewrite Hp.
    - destruct (Hrange s Hp Hi) as [asset [E ->]]. exact E. }
  exists (watched (shown first (Cycler.new playlist))).
  exists (watched (shown first (watched (shown first (Cycler.new playlist))))).
  split; [now apply Hstart|]. split; [now apply Hstart|].
  rewrite stopCycle_spec. cbn. repeat split.
Qed.

Lemma second_start_leaks_timers_witness :
  let promo :=
    WebviewAsset.mk "a2" "Promo" "video" (Num 1) (Num 10)
      (Some "assets/main/a2_promo.mp4") false
      "https://cdn.example.com/promo.mp4" in
  exists rest,
    (PlaylistCycle.assets lobby_cycle = promo :: rest
     /\ @in_cycler_window Scripted.platform (@Date_now Scripted.platform idle_world) lobby_cycle
        = true)
    /\ exists s1 s2,
      Run.result
        (@Cycler.startCycle Scripted.platform (Cycler.new lobby_cycle)
           idle_world) = Return s1
      /\ Run.result (@Cycler.startCycle Scripted.platform s1 idle_world)
         = Return s2
      /\ Cycler.pending s1 = [first_advance promo; first_date_check]
      /\ Cycler.changes s2
         = [(promo, WebviewAsset.displayTime promo);
            (promo, WebviewAsset.displayTime promo)]
      /\ List.length (Cycler.pending s2) = 4%nat
      /\ Cycler.cycleTimer (Cycler.stopCycle s2) = None
      /\ Cycler.dateCheckTimer (Cycler.stopCycle s2) = None
      /\ Cycler.pending (Cycler.stopCycle s2)
         = [first_advance promo; first_date_check].
Proof.
  cbv zeta. eexists. split; [split; reflexivity|].
  exact (@second_start_leaks_timers Scripted.platform lobby_cycle _ _
           idle_world idle_world eq_refl eq_refl eq_refl).
Defined.

(** X12: what every cycler over a playlist with at least one asset keeps,
    whatever sequence of [startCycle] (on a cycler without armed timers),
    [stopCycle], [skipToAsset] and timer firings led to it: the playlist is
    the one it was made with; the index is a position of the playlist; at
    most one advance timer and at most one date check are armed, each the
    one named by its field; and every call of the handler passed an asset
    of the playlist with its full display time. *)
Theorem reachable_cycler_is_tidy {P : Platform}
    (playlist : PlaylistCycle.t) (s : Cycler.t) :
  PlaylistCycle.assets playlist <> [] ->
  cycler_reachable playlist s ->
  Cycler.currentPlaylist s = playlist
  /\ index_in_range s
  /\ Forall (owned_timer s) (Cycler.pending s)
  /\ (List.length (advance_timers s) <= 1)%nat
  /\ (List.length (date_timers s) <= 1)%nat
  /\ faithful_changes s.
Proof.
  intros Hne Hreach.
  destruct (reachable_sound playlist s Hne Hreach) as [Ht [Hp Hf]].
  split; [exact Hp|]. split; [apply Ht|]. split; [apply Ht|].
  pose proof (tidy_owned s Ht) as Ho. rewrite Forall_forall in Ho.
  split; [|split; [|exact Hf]].
  - apply (at_most_one (Cycler.cycleTimer s)); [apply Ht|].
    intros t Hin Ha.
    destruct (Ho t Hin) as [[H _] | [_ [H _]]]; [exact H|].
    rewrite H in Ha. discriminate.
  - apply (at_most_one (Cycler.dateCheckTimer s)); [apply Ht|].
    intros t Hin Ha.
    destruct (Ho t Hin) as [[_ [H _]] | [H _]]; [|exact H].
    rewrite H in Ha. discriminate.
Qed.

(** The running lobby cycler is the new one, started. *)
Lemma lobby_running_reachable :
  @cycler_reachable Scripted.platform lobby_cycle lobby_running.
Proof.
  apply (reach_step lobby_cycle (Cycler.new lobby_cycle) lobby_running).
  - apply reach_new.
  - apply (@step_start Scripted.platform idle_world); reflexivity.
Defined.

Lemma lobby_cycle_not_empty : PlaylistCycle.assets lobby_cycle <> [].
Proof. vm_compute. discriminate. Defined.

Lemma reachable_cycler_is_tidy_witness :
  (PlaylistCycle.assets lobby_cycle <> []
   /\ @cycler_reachable Scripted.platform lobby_cycle lobby_running)
  /\ Cycler.currentPlaylist lobby_running = lobby_cycle
  /\ index_in_range lobby_running
  /\ Forall (owned_timer lobby_running) (Cycler.pending lobby_running)
  /\ (List.length (advance_timers lobby_running) <= 1)%nat
  /\ (List.length (date_timers lobby_running) <= 1)%nat
  /\ faithful_changes lobby_running.
Proof.
  split; [split; [exact lobby_cycle_not_empty | exact lobby_running_reachable]|].
  exact (@reachable_cycler_is_tidy Scripted.platform lobby_cycle lobby_running
           lobby_cycle_not_empty lobby_running_reachable).
Defined.

(** ** No operation of the cycler throws *)

Section CyclerSafety.
Context {P : Platform}.

Lemma no_asset_unknown (assetId : string) (s : Cycler.t) :
  List.existsb (fun a => String.eqb (WebviewAsset.id a) assetId)
    (Cycler.assets s) = false ->
  forall asset, In asset (Cycler.assets s) ->
                String.eqb (WebviewAsset.id asset) assetId = false.
Proof.
  intros Hex asset Hin.
  destruct (String.eqb (WebviewAsset.id asset) assetId) eqn:E; [|reflexivity].
  assert (Htrue : List.existsb
                    (fun a => String.eqb (WebviewAsset.id a) assetId)
                    (Cycler.assets s) = true)
    by (apply existsb_exists; now exists asset).
  congruence.
Qed.

Lemma safe_same (s s' : Cycler.t) :
  Cycler.currentPlaylist s' = Cycler.currentPlaylist s ->
  Cycler.currentAssetIndex s' = Cycler.currentAssetIndex s ->
  (Cycler.pending s = [] -> Cycler.pending s' = []) ->
  safe s -> safe s'.
Proof.
  unfold safe, index_in_range, Cycler.assets. intros -> -> Hp [[Ha Hq] | Hi].
  - left. split; [exact Ha | now apply Hp].
  - right. exact Hi.
Qed.

Lemma start_safe (s : Cycler.t) (w : world) :
  safe s ->
  exists s', Run.result (Cycler.startCycle s w) = Return s'
             /\ safe s'
             /\ Cycler.currentPlaylist s' = Cycler.currentPlaylist s.
Proof.
  intros [[Ha Hp] | Hi].
  - destruct (startCycle_run s w) as [_ [Hempty _]]. cbv zeta in Hempty.
    exists s. split; [apply Hempty; now rewrite Ha|].
    split; [left; now split | reflexivity].
  - destruct (start_result s w Hi) as [asset [_ [_ E]]].
    eexists. split; [exact E|].
    destruct (in_cycler_window (Date_now w) (Cycler.currentPlaylist s)).
    + split; [right; exact Hi | reflexivity].
    + split; [right; exact Hi | reflexivity].
Qed.

Lemma stop_safe (s : Cycler.t) :
  safe s ->
  safe (Cycler.stopCycle s)
  /\ Cycler.currentPlaylist (Cycler.stopCycle s) = Cycler.currentPlaylist s.
Proof.
  intros Hs. destruct (stopCycle_playlist s) as [Hp [_ Hi]].
  split; [|exact Hp].
  apply (safe_same s); [exact Hp | exact Hi | | exact Hs].
  intros Hq. rewrite stopCycle_spec. cbn. now rewrite Hq.
Qed.

Lemma skip_safe (assetId : string) (s : Cycler.t) (w : world) :
  safe s ->
  exists found s',
    Run.result (Cycler.skipToAsset assetId s w) = Return (found, s')
    /\ safe s'
    /\ Cycler.currentPlaylist s' = Cycler.currentPlaylist s.
Proof.
  intros Hs.
  destruct (List.existsb
              (fun a => String.eqb (WebviewAsset.id a) assetId)
              (Cycler.assets s)) eqn:Hex.
  - apply existsb_exists in Hex as [asset [Hin Heq]].
    apply String.eqb_eq in Heq.
    destruct (skipToAsset_known assetId s w asset Hin Heq)
      as [k [target [Hnth [_ [_ Hrun]]]]].
    rewrite Hrun. eexists. eexists. split; [reflexivity|].
    destruct (stopCycle_playlist s) as [Hp _].
    split; [|exact Hp].
    right. exists k. split; [reflexivity|].
    change (k < List.length
                  (PlaylistCycle.assets
                     (Cycler.currentPlaylist (Cycler.stopCycle s))))%nat.
    rewrite Hp. apply nth_error_Some. unfold Cycler.assets in Hnth.
    rewrite Hnth. discriminate.
  - rewrite (skipToAsset_unknown assetId s w (no_asset_unknown assetId s Hex)).
    eexists. eexists. split; [reflexivity|]. split; [exact Hs | reflexivity].
Qed.

Lemma fire_safe (h : nat) (s : Cycler.t) (w : world) :
  safe s ->
  exists s', Run.result (Cycler.fire h s w) = Return s'
             /\ safe s'
             /\ Cycler.currentPlaylist s' = Cycler.currentPlaylist s.
Proof.
  intros Hs. unfold Cycler.fire.
  destruct (List.find _ (Cycler.pending s)) as [timer|] eqn:Hfind.
  2:{ exists s. split; [reflexivity|]. split; [exact Hs | reflexivity]. }
  destruct Hs as [[_ Hp] | [i [Hi Hlt]]].
  { rewrite Hp in Hfind. discriminate. }
  set (s0 := if Cycler.Timer.repeats timer then s else Cycler.clear h s).
  assert (Hp0 : Cycler.currentPlaylist s0 = Cycler.currentPlaylist s)
    by (subst s0; now destruct (Cycler.Timer.repeats timer)).
  assert (Hi0 : Cycler.currentAssetIndex s0 = Num (Z.of_nat i))
    by (subst s0; now destruct (Cycler.Timer.repeats timer)).
  assert (Hlt0 : (i < List.length (Cycler.assets s0))%nat)
    by (unfold Cycler.assets in *; now rewrite Hp0).
  destruct (Cycler.Timer.action timer).
  - destruct (nextAsset_run s0 i w Hi0 Hlt0) as [asset [_ E]].
    rewrite E. eexists. split; [reflexivity|]. split; [|exact Hp0].
    right. exists (S i mod List.length (Cycler.assets s0))%nat.
    split; [reflexivity|].
    change (S i mod List.length (Cycler.assets s0)
            < List.length (Cycler.assets s0))%nat.
    apply Nat.mod_upper_bound. lia.
  - destruct (checkDate_run s0 w) as [E _]. rewrite E.
    eexists. split; [reflexivity|].
    destruct (in_cycler_window (Date_now w) (Cycler.currentPlaylist s0)).
    + split; [right; exists i; now split | exact Hp0].
    + destruct (stop_safe s0) as [Hsafe Hp1];
        [right; exists i; now split|].
      split; [exact Hsafe | congruence].
Qed.

Lemma history_safe (playlist : PlaylistCycle.t) (s : Cycler.t) :
  cycler_history playlist s ->
  safe s /\ Cycler.currentPlaylist s = playlist.
Proof.
  intros Hh. induction Hh as [|s s' _ [Hs Hp] Hcall].
  - split; [|reflexivity].
    destruct (PlaylistCycle.assets playlist) as [|a l] eqn:Ha.
    + left. unfold Cycler.assets. cbn. now split.
    + right. exists 0%nat. split; [reflexivity|].
      unfold Cycler.assets. cbn. rewrite Ha. cbn. lia.
  - destruct Hcall as [w s s' Hres | s | w assetId s found s' Hres
                      | w h s s' Hres].
    + destruct (start_safe s w Hs) as [s1 [E [Hs1 Hp1]]].
      rewrite E in Hres. injection Hres as <-. split; [exact Hs1 | congruence].
    + destruct (stop_safe s Hs) as [Hs1 Hp1]. split; [exact Hs1 | congruence].
    + destruct (skip_safe assetId s w Hs) as [f [s1 [E [Hs1 Hp1]]]].
      rewrite E in Hres. injection Hres as _ <-.
      split; [exact Hs1 | congruence].
    + destruct (fire_safe h s w Hs) as [s1 [E [Hs1 Hp1]]].
      rewrite E in Hres. injection Hres as <-. split; [exact Hs1 | congruence].
Qed.

End CyclerSafety.

(** X13: no operation of a cycler throws.  Whatever playlist the cycler was
    made with (an empty one too) and whatever calls of [startCycle],
    [stopCycle], [skipToAsset] and timer firings came before, in any order:
    [startCycle], [skipToAsset] with any id and the firing of any timer
    handle return, at every instant, and the playlist is still the one the
    cycler was made with.  (The read of
    [assets[currentAssetIndex].displayTime] never meets [undefined].) *)
Theorem cycler_never_throws {P : Platform}
    (playlist : PlaylistCycle.t) (s : Cycler.t) (w : world) :
  cycler_history playlist s ->
  Cycler.currentPlaylist s = playlist
  /\ (exists s', Run.result (Cycler.startCycle s w) = Return s')
  /\ (forall assetId, exists found s',
        Run.result (Cycler.skipToAsset assetId s w) = Return (found, s'))
  /\ (forall h, exists s', Run.result (Cycler.fire h s w) = Return s').
Proof.
  intros Hh. destruct (history_safe playlist s Hh) as [Hs Hp].
  split; [exact Hp|]. split; [|split].
  - destruct (start_safe s w Hs) as [s' [E _]]. now exists s'.
  - intros assetId. destruct (skip_safe assetId s w Hs) as [f [s' [E _]]].
    now exists f, s'.
  - intros h. destruct (fire_safe h s w Hs) as [s' [E _]]. now exists s'.
Qed.

Lemma lobby_running_history :
  @cycler_history Scripted.platform lobby_cycle lobby_running.
Proof.
  apply (history_call lobby_cycle (Cycler.new lobby_cycle) lobby_running).
  - apply history_new.
  - apply (@call_start Scripted.platform idle_world); reflexivity.
Defined.

Lemma cycler_never_throws_witness :
  @cycler_history Scripted.platform lobby_cycle lobby_running
  /\ Cycler.currentPlaylist lobby_running = lobby_cycle
  /\ (exists s',
        Run.result (@Cycler.startCycle Scripted.platform lobby_running
                      idle_world) = Return s')
  /\ (forall assetId, exists found s',
        Run.result (@Cycler.skipToAsset Scripted.platform assetId
                      lobby_running idle_world) = Return (found, s'))
  /\ (forall h, exists s',
        Run.result (@Cycler.fire Scripted.platform h lobby_running idle_world)
        = Return s').
Proof.
  split; [exact lobby_running_history|].
  exact (@cycler_never_throws Scripted.platform lobby_cycle lobby_running
           idle_world lobby_running_history).
Defined.

(** ** The date status and the component that reads it *)

Section DateStatus.
Context {P : Platform}.

Lemma getDateStatus_run (s : Cycler.t) (w : world) :
  Run.result (Cycler.getDateStatus s w)
  = Return
      (Cycler.DateStatus.mk
         (in_cycler_window (Date_now w) (Cycler.currentPlaylist s))
         (PlaylistCycle.startDate (Cycler.currentPlaylist s))
         (PlaylistCycle.endDate (Cycler.currentPlaylist s))
         (time_until (Date_now w)
            (PlaylistCycle.startDate (Cycler.currentPlaylist s)))
         (time_until (Date_now w)
            (PlaylistCycle.endDate (Cycler.currentPlaylist s))))
  /\ Run.final (Cycler.getDateStatus s w) = w.
Proof.
  unfold Cycler.getDateStatus. rewrite bind_read.
  destruct (cycler_isPlaylistActive_run (Cycler.currentPlaylist s) w)
    as [Hr [Hf _]].
  cbv zeta in Hr, Hf. rewrite (bind_returns _ _ _ _ Hr), Hf.
  split; reflexivity.
Qed.

Lemma starts_after_until (now : Z) (d : option string) :
  starts_after now d = true ->
  exists t, date_time d = Num t /\ now < t
            /\ time_until now d = Some (Num (t - now)).
Proof.
  unfold starts_after, time_until, Number.gt. intros H.
  apply andb_prop in H as [Ht Hlt]. rewrite Ht.
  destruct (date_time d) as [|t]; [discriminate|]. cbn in Hlt.
  apply Z.ltb_lt in Hlt. exists t. split; [reflexivity|]. split; [exact Hlt|].
  cbn. do 2 f_equal. lia.
Qed.

Lemma not_starts_after_until (now : Z) (d : option string) :
  starts_after now d = false ->
  match time_until now d with
  | Some n => JsMath.truthy n = false
  | None => True
  end.
Proof.
  unfold starts_after, time_until, Number.gt. intros H.
  destruct (truthy_opt d); [|exact I]. cbn [andb] in H.
  destruct (date_time d) as [|t]; [reflexivity|]. cbn in H |- *.
  apply Z.ltb_ge in H. rewrite Z.max_l by lia. reflexivity.
Qed.

Lemma ended_before_until (now : Z) (d : option string) :
  ended_before now d = true -> time_until now d = Some (Num 0).
Proof.
  unfold ended_before, time_until, Number.gt. intros H.
  apply andb_prop in H as [Ht Hlt]. rewrite Ht.
  destruct (date_time d) as [|t]; [discriminate|]. cbn in Hlt |- *.
  apply Z.ltb_lt in Hlt. rewrite Z.max_l by lia. reflexivity.
Qed.

Lemma time_until_nonneg (now : Z) (d : option string) (t : Z) :
  time_until now d = Some (Num t) -> 0 <= t.
Proof.
  unfold time_until. destruct (truthy_opt d); [|discriminate].
  destruct (date_time d) as [|x]; cbn; [discriminate|].
  intros E. injection E as <-. lia.
Qed.

Lemma outside_cycler_window (now : Z) (playlist : PlaylistCycle.t) :
  in_cycler_window now playlist = false ->
  starts_after now (PlaylistCycle.startDate playlist) = true
  \/ (starts_after now (PlaylistCycle.startDate playlist) = false
      /\ ended_before now (PlaylistCycle.endDate playlist) = true).
Proof.
  unfold in_cycler_window.
  destruct (starts_after now (PlaylistCycle.startDate playlist));
    [now left|].
  destruct (ended_before now (PlaylistCycle.endDate playlist));
    [now right | discriminate].
Qed.

End DateStatus.

(** X14: [getDateStatus] returns at every instant.  Its [isActive] is the
    window check of the cycler; a time it reports is never negative; and,
    the two clock readings of the call being the same instant, a status
    that is not active says why: the time until the start is positive, or
    the time until the end is exactly 0.  (When the clock moves between
    the two readings across the start or the end of the window, the status
    can be inactive with neither.) *)
Theorem date_status_explains_inactivity {P : Platform}
    (s : Cycler.t) (w : world) :
  exists status,
    Run.result (Cycler.getDateStatus s w) = Return status
    /\ Cycler.DateStatus.isActive status
       = in_cycler_window (Date_now w) (Cycler.currentPlaylist s)
    /\ (forall t, Cycler.DateStatus.timeUntilStart status = Some (Num t) ->
                  0 <= t)
    /\ (forall t, Cycler.DateStatus.timeUntilEnd status = Some (Num t) ->
                  0 <= t)
    /\ (Cycler.DateStatus.isActive status = false ->
        (exists t, Cycler.DateStatus.timeUntilStart status = Some (Num t)
                   /\ 0 < t)
        \/ Cycler.DateStatus.timeUntilEnd status = Some (Num 0)).
Proof.
  destruct (getDateStatus_run s w) as [E _].
  eexists. split; [exact E|]. cbn.
  split; [reflexivity|].
  split; [intros t; apply time_until_nonneg|].
  split; [intros t; apply time_until_nonneg|].
  intros Hout. destruct (outside_cycler_window _ _ Hout) as [Hs | [_ He]].
  - left. destruct (starts_after_until _ _ Hs) as [t [_ [Hlt Ht]]].
    exists (t - Date_now w). split; [exact Ht | lia].
  - right. now apply ended_before_until.
Qed.

(** X15: what the effect of the component decides for a playlist, all
    clock readings of one run of the effect being the same instant (the
    date status reads the clock twice and the start of the cycle once
    more).  With no asset it fails with a fixed message.  Inside the window
    of the playlist at that instant it starts a cycler, which presents the
    first asset.  Outside the window it fails, starts nothing, and the
    message says why: the hours and the minutes below 60 until the start
    when the start lies ahead (a distance of at most 2^53 - 1 ms, as it is
    between a clock that is not set before 1970 and a date of [Date]),
    else that the playlist has ended. *)
Theorem mount_presents_or_explains {P : Platform}
    (playlistCycle : PlaylistCycle.t) (w : world) :
  let now := Date_now w in
  let startDate := PlaylistCycle.startDate playlistCycle in
  Run.result (SignageWebview.mount playlistCycle w)
  = Return
      (match PlaylistCycle.assets playlistCycle with
       | [] => SignageWebview.Failed "No assets available in playlist"
       | first :: _ =>
           if in_cycler_window now playlistCycle then
             SignageWebview.Cycling
               (Cycler.mk playlistCycle (Num 0) (Some 1%nat) (Some 2%nat)
                  [first_advance first; first_date_check] 3
                  [(first, WebviewAsset.displayTime first)])
           else if starts_after now startDate then
             SignageWebview.Failed
               (not_active_title (PlaylistCycle.playlistName playlistCycle)
                ++ " - starts in "
                ++ Str.of_Z (hours_of (until now startDate)) ++ "h "
                ++ Str.of_Z (minutes_of (until now startDate)) ++ "m")
           else
             SignageWebview.Failed
               (not_active_title (PlaylistCycle.playlistName playlistCycle)
                ++ " - has ended")
       end).
Proof.
  cbv zeta. unfold SignageWebview.mount.
  destruct (PlaylistCycle.assets playlistCycle) as [|first rest] eqn:Hassets.
  { reflexivity. }
  cbn [List.length Nat.eqb].
  destruct (getDateStatus_run (Cycler.new playlistCycle) w) as [E Hf].
  rewrite (bind_returns _ _ _ _ E), Hf, prepend_result.
  cbn [Cycler.DateStatus.isActive Cycler.currentPlaylist Cycler.new].
  destruct (in_cycler_window (Date_now w) playlistCycle) eqn:Hw; cbn [negb].
  - destruct (startCycle_run (Cycler.new playlistCycle) w)
      as [_ [_ [_ Hin]]]. cbv zeta in Hin.
    assert (Hres : Run.result (Cycler.startCycle (Cycler.new playlistCycle) w)
                   = Return (watched (shown first (Cycler.new playlistCycle)))).
    { apply Hin.
      - unfold Cycler.assets. cbn. rewrite Hassets. discriminate.
      - exact Hw.
      - unfold Cycler.assets. cbn. now rewrite Hassets. }
    rewrite (bind_returns _ _ _ _ Hres), prepend_result. reflexivity.
  - cbn [ret Run.result]. do 2 f_equal.
    unfold SignageWebview.not_active_message.
    cbn [Cycler.DateStatus.timeUntilStart Cycler.DateStatus.timeUntilEnd].
    fold (not_active_title (PlaylistCycle.playlistName playlistCycle)).
    destruct (outside_cycler_window _ _ Hw) as [Hs | [Hs He]]; rewrite Hs.
    + destruct (starts_after_until _ _ Hs) as [t [Ht [Hlt Hu]]].
      rewrite Hu. unfold until. rewrite Ht.
      assert (Htruthy : JsMath.truthy (Num (t - Date_now w)) = true).
      { cbn. apply negb_true_iff. apply Z.eqb_neq. lia. }
      rewrite Htruthy. cbn [JsMath.floor_div JsMath.rem number_text].
      change (1000 * 60 * 60 =? 0) with false. cbv iota.
      cbn [JsMath.floor_div number_text].
      unfold hours_of, minutes_of.
      rewrite Z.rem_mod_nonneg by lia. reflexivity.
    + pose proof (not_starts_after_until _ _ Hs) as Hn.
      rewrite (ended_before_until _ _ He).
      destruct (time_until (Date_now w) (PlaylistCycle.startDate playlistCycle))
        as [n|]; [rewrite Hn|]; reflexivity.
Qed.

(** ** The choice of the playlist to show *)

Section Choice.
Context {P : Platform}.

Lemma bind_pure {A B} (m : M A) (k : A -> M B) (w : world) (a : A) :
  m w = Run.mk w [] (Return a) -> bind m k w = k a w.
Proof.
  intros H. unfold bind. rewrite H. cbn. now destruct (k a w).
Qed.

Lemma find_active_run (playlistCycles : list PlaylistCycle.t) (w : world) :
  Index.find_active playlistCycles w
  = Run.mk w [] (Return (List.find (cycle_active (Date_now w)) playlistCycles)).
Proof.
  induction playlistCycles as [|p rest IH]; [reflexivity|].
  cbn [Index.find_active List.find].
  rewrite (bind_pure _ _ _ _ (dateUtils_isPlaylistActive_run _ _ w)).
  unfold cycle_active at 1.
  destruct (in_window (Date_now w) (PlaylistCycle.startDate p)
              (PlaylistCycle.endDate p)); [reflexivity | exact IH].
Qed.

Lemma getNextScheduledPlaylist_pure {T} (startDate : T -> option string)
    (playlists : list T) (w : world) :
  exists next,
    getNextScheduledPlaylist startDate playlists w
    = Run.mk w [] (Return next).
Proof.
  unfold getNextScheduledPlaylist. rewrite bind_read.
  destruct (Nat.eqb _ 0); eexists; reflexivity.
Qed.

Lemma getPlaylistTimingMessage_pure (playlistName : string)
    (startDate endDate : option string) (w : world) :
  exists message,
    getPlaylistTimingMessage playlistName startDate endDate w
    = Run.mk w [] (Return message).
Proof.
  unfold getPlaylistTimingMessage. rewrite bind_read.
  destruct (truthy_opt startDate && _).
  { rewrite (bind_pure _ _ _ _ (getTimeUntilStart_run _ w)).
    eexists. unfold prepend, ret. cbn [Run.final Run.trace Run.result app].
    reflexivity. }
  destruct (truthy_opt endDate && _).
  { eexists. unfold prepend, ret. cbn [Run.final Run.trace Run.result app].
    reflexivity. }
  destruct (truthy_opt endDate).
  { rewrite (bind_pure _ _ _ _ (getTimeUntilEnd_run _ w)).
    eexists. unfold prepend, ret. cbn [Run.final Run.trace Run.result app].
    reflexivity. }
  eexists. unfold prepend, ret. cbn [Run.final Run.trace Run.result app].
  reflexivity.
Qed.

(** The playlist that the two searches of [startInitialization] settle
    on. *)
Lemma choosePlaylist_run (result : InitializationResult.t)
    (playlistCycles : list PlaylistCycle.t) (w : world) :
  InitializationResult.success result = true ->
  InitializationResult.playlistCycles result = Some playlistCycles ->
  let now := Date_now w in
  let preferred :=
    match List.find PlaylistCycle.isDefault playlistCycles with
    | Some d => if cycle_active now d then Some d else None
    | None => None
    end in
  let chosen :=
    match preferred with
    | Some d => Some d
    | None => List.find (cycle_active now) playlistCycles
    end in
  match chosen with
  | Some p => Run.result (Index.choosePlaylist result w) = Return p
  | None =>
      exists message,
        Run.result (Index.choosePlaylist result w) = Throw (Error message)
        /\ Str.startsWith message "No active playlists" = true
  end.
Proof.
  intros Hs Hc. cbv zeta. unfold Index.choosePlaylist. rewrite Hs, Hc.
  assert (Hfirst :
    (match List.find PlaylistCycle.isDefault playlistCycles with
     | Some playlist =>
         active <- dateUtils.isPlaylistActive
                     (PlaylistCycle.startDate playlist)
                     (PlaylistCycle.endDate playlist) ;;
         if active then ret (Some playlist) else ret None
     | None => ret None
     end) w
    = Run.mk w []
        (Return
           match List.find PlaylistCycle.isDefault playlistCycles with
           | Some d => if cycle_active (Date_now w) d then Some d else None
           | None => None
           end)).
  { destruct (List.find PlaylistCycle.isDefault playlistCycles) as [d|];
      [|reflexivity].
    rewrite (bind_pure _ _ _ _ (dateUtils_isPlaylistActive_run _ _ w)).
    unfold cycle_active.
    destruct (in_window (Date_now w) (PlaylistCycle.startDate d)
                (PlaylistCycle.endDate d)); reflexivity. }
  rewrite (bind_pure _ _ _ _ Hfirst).
  set (preferred :=
         match List.find PlaylistCycle.isDefault playlistCycles with
         | Some d => if cycle_active (Date_now w) d then Some d else None
         | None => None
         end).
  assert (Hsecond :
    (match preferred with
     | Some playlist => ret (Some playlist)
     | None => Index.find_active playlistCycles
     end) w
    = Run.mk w []
        (Return
           match preferred with
           | Some d => Some d
           | None => List.find (cycle_active (Date_now w)) playlistCycles
           end)).
  { destruct preferred; [reflexivity | apply find_active_run]. }
  rewrite (bind_pure _ _ _ _ Hsecond).
  destruct (match preferred with
            | Some d => Some d
            | None => List.find (cycle_active (Date_now w)) playlistCycles
            end) as [p|].
  - rewrite bind_console. reflexivity.
  - destruct (getNextScheduledPlaylist_pure PlaylistCycle.startDate
                playlistCycles w) as [next Hnext].
    rewrite (bind_pure _ _ _ _ Hnext). destruct next as [next|].
    + destruct (getPlaylistTimingMessage_pure
                  (PlaylistCycle.playlistName next)
                  (PlaylistCycle.startDate next) (PlaylistCycle.endDate next) w)
        as [message Hm].
      rewrite (bind_pure _ _ _ _ Hm).
      exists ("No active playlists. " ++ message). split; reflexivity.
    + eexists. split; reflexivity.
Qed.

Lemma window_inside_cycler_window (now : Z) (playlist : PlaylistCycle.t) :
  cycle_active now playlist = true -> in_cycler_window now playlist = true.
Proof.
  unfold cycle_active, in_window, in_cycler_window, ended_by, ended_before,
    Number.gt, Number.le, Number.lt.
  destruct (starts_after now (PlaylistCycle.startDate playlist));
    [discriminate|]. cbn [negb andb].
  destruct (truthy_opt (PlaylistCycle.endDate playlist)); [|reflexivity].
  cbn [andb]. destruct (date_time (PlaylistCycle.endDate playlist)) as [|t];
    [reflexivity|].
  intros H. apply negb_true_iff in H. apply Z.leb_gt in H.
  apply negb_true_iff. apply Z.ltb_ge. lia.
Qed.

End Choice.

(** X16: the playlist that the start-up of the application settles on,
    given a successful initialization result.  When some playlist of the
    result is active at that instant, one is chosen: the first playlist
    flagged default when that one is active, else the first active one in
    list order; the chosen playlist is inside the window of the cycler
    too, so the component will start it.  When none is active the start-up
    throws an error whose message begins [No active playlists]. *)
Theorem choice_prefers_active_default {P : Platform}
    (result : InitializationResult.t)
    (playlistCycles : list PlaylistCycle.t) (w : world) :
  InitializationResult.success result = true ->
  InitializationResult.playlistCycles result = Some playlistCycles ->
  let now := Date_now w in
  (forall q, In q playlistCycles -> cycle_active now q = true ->
     exists p,
       Run.result (Index.choosePlaylist result w) = Return p
       /\ In p playlistCycles
       /\ cycle_active now p = true
       /\ in_cycler_window now p = true
       /\ (forall d, List.find PlaylistCycle.isDefault playlistCycles = Some d ->
                     cycle_active now d = true -> p = d)
       /\ (forall d, List.find PlaylistCycle.isDefault playlistCycles = Some d ->
                     cycle_active now d = false ->
                     List.find (cycle_active now) playlistCycles = Some p)
       /\ (List.find PlaylistCycle.isDefault playlistCycles = None ->
           List.find (cycle_active now) playlistCycles = Some p))
  /\ ((forall q, In q playlistCycles -> cycle_active now q = false) ->
      exists message,
        Run.result (Index.choosePlaylist result w) = Throw (Error message)
        /\ Str.startsWith message "No active playlists" = true).
Proof.
  intros Hs Hc. cbv zeta.
  pose proof (choosePlaylist_run result playlistCycles w Hs Hc) as Hrun.
  cbv zeta in Hrun. split.
  - intros q Hq Hactive.
    destruct (List.find PlaylistCycle.isDefault playlistCycles) as [d|] eqn:Hd.
    + destruct (cycle_active (Date_now w) d) eqn:Had.
      * exists d. split; [exact Hrun|].
        apply find_some in Hd as [Hin _].
        split; [exact Hin|]. split; [exact Had|].
        split; [now apply window_inside_cycler_window|].
        split; [intros d' E _; congruence|].
        split; [intros d' E Hn; injection E as <-; congruence | discriminate].
      * destruct (List.find (cycle_active (Date_now w)) playlistCycles)
          as [p|] eqn:Hp.
        -- exists p. split; [exact Hrun|].
           apply find_some in Hp as [Hin Hap].
           split; [exact Hin|]. split; [exact Hap|].
           split; [now apply window_inside_cycler_window|].
           split; [intros d' E Hn; injection E as <-; congruence|].
           split; [reflexivity | discriminate].
        -- pose proof (find_none _ _ Hp q Hq) as Hn. congruence.
    + destruct (List.find (cycle_active (Date_now w)) playlistCycles)
        as [p|] eqn:Hp.
      * exists p. split; [exact Hrun|].
        apply find_some in Hp as [Hin Hap].
        split; [exact Hin|]. split; [exact Hap|].
        split; [now apply window_inside_cycler_window|].
        split; [discriminate|]. split; [discriminate | reflexivity].
      * pose proof (find_none _ _ Hp q Hq) as Hn. congruence.
  - intros Hnone.
    destruct (List.find PlaylistCycle.isDefault playlistCycles) as [d|] eqn:Hd.
    + pose proof Hd as Hd'. apply find_some in Hd' as [Hin _].
      rewrite (Hnone d Hin) in Hrun.
      destruct (List.find (cycle_active (Date_now w)) playlistCycles)
        as [p|] eqn:Hp; [|exact Hrun].
      apply find_some in Hp as [Hinp Hap]. rewrite (Hnone p Hinp) in Hap.
      discriminate.
    + destruct (List.find (cycle_active (Date_now w)) playlistCycles)
        as [p|] eqn:Hp; [|exact Hrun].
      apply find_some in Hp as [Hinp Hap]. rewrite (Hnone p Hinp) in Hap.
      discriminate.
Qed.

Lemma choice_prefers_active_default_witness :
  (InitializationResult.success lobby_initialization = true
   /\ InitializationResult.playlistCycles lobby_initialization
      = Some [lobby_cycle])
  /\ let now := @Date_now Scripted.platform idle_world in
     let run := @Index.choosePlaylist Scripted.platform lobby_initialization
                  idle_world in
     (forall q, In q [lobby_cycle] ->
        @cycle_active Scripted.platform now q = true ->
        exists p,
          Run.result run = Return p
          /\ In p [lobby_cycle]
          /\ @cycle_active Scripted.platform now p = true
          /\ @in_cycler_window Scripted.platform now p = true
          /\ (forall d, List.find PlaylistCycle.isDefault [lobby_cycle] = Some d ->
                        @cycle_active Scripted.platform now d = true -> p = d)
          /\ (forall d, List.find PlaylistCycle.isDefault [lobby_cycle] = Some d ->
                        @cycle_active Scripted.platform now d = false ->
                        List.find (@cycle_active Scripted.platform now)
                          [lobby_cycle] = Some p)
          /\ (List.find PlaylistCycle.isDefault [lobby_cycle] = None ->
              List.find (@cycle_active Scripted.platform now) [lobby_cycle]
              = Some p))
     /\ ((forall q, In q [lobby_cycle] ->
            @cycle_active Scripted.platform now q = false) ->
         exists message,
           Run.result run = Throw (Error message)
           /\ Str.startsWith message "No active playlists" = true).
Proof.
  split; [split; reflexivity|].
  exact (@choice_prefers_active_default Scripted.platform lobby_initialization
           [lobby_cycle] idle_world eq_refl eq_refl).
Defined.

(** The lobby cycle is chosen at start-up. *)
Example lobby_chosen :
  Run.result
    (@Index.choosePlaylist Scripted.platform lobby_initialization idle_world)
  = Return lobby_cycle.
Proof. vm_compute. reflexivity. Qed.

(** ** The manifest request and the device name *)

Section Manifest.
Context {P : Platform}.

Lemma getData_run (apiURL : string) (w : world) :
  Run.trace (getData apiURL w) = [Fetched apiURL GET]
  /\ Run.final (getData apiURL w) = fst (fetch apiURL GET w)
  /\ Run.result (getData apiURL w)
     = match snd (fetch apiURL GET w) with
       | Throw e => Throw (rethrown apiURL e)
       | Return response =>
           if Response.ok response then
             match Response.json response with
             | Throw e => Throw (rethrown apiURL e)
             | Return data =>
                 if isValidApiResponse data then Return data
                 else Throw (Error "Invalid API response format")
             end
           else
             Throw (Error ("HTTP error! status: "
                           ++ Str.of_Z (Response.status response)
                           ++ " - " ++ Response.statusText response))
       end.
Proof.
  unfold getData, try_catch. cbv zeta. rewrite !bind_call.
  unfold always.
  destruct (fetch apiURL GET w) as [w' [response|e]]; cbn [fst snd].
  2:{ destruct e as [[|] message|]; cbn;
        [destruct (Str.includes message "fetch")|..]; repeat split. }
  destruct (Response.ok response); cbn [negb].
  2:{ rewrite !bind_throw. cbn. repeat split. }
  rewrite !bind_ret, !bind_of_outcome.
  destruct (Response.json response) as [data|e].
  2:{ destruct e as [[|] message|]; cbn;
        [destruct (Str.includes message "fetch")|..]; repeat split. }
  destruct (isValidApiResponse data); cbn; repeat split.
Qed.

End Manifest.

(** X17: [getData] sends exactly one [GET] request to the URL, whatever
    comes of it, and does not try again.  It returns only a manifest that
    the response carried and that passes [isValidApiResponse]; a response
    that is not [ok] gives the error [HTTP error! status: <status> -
    <statusText>]; and an [ok] response whose body has the declared types
    but does not pass the check (a playlist with an empty id or name, an
    asset with an empty field) gives [Invalid API response format].  Of
    what it throws, nothing is a [TypeError] whose message mentions
    [fetch].  (Bodies of other types are not covered: on a playlist that
    is [null] the check itself throws.) *)
Theorem getData_one_request_valid_manifest {P : Platform}
    (apiURL : string) (w : world) :
  let run := getData apiURL w in
  Run.trace run = [Fetched apiURL GET]
  /\ (forall data, Run.result run = Return data ->
        isValidApiResponse data = true
        /\ exists response,
             snd (fetch apiURL GET w) = Return response
             /\ Response.ok response = true
             /\ Response.json response = Return data)
  /\ (forall response,
        snd (fetch apiURL GET w) = Return response ->
        Response.ok response = false ->
        Run.result run
        = Throw (Error ("HTTP error! status: "
                        ++ Str.of_Z (Response.status response)
                        ++ " - " ++ Response.statusText response)))
  /\ (forall response data,
        snd (fetch apiURL GET w) = Return response ->
        Response.ok response = true ->
        Response.json response = Return data ->
        isValidApiResponse data = false ->
        Run.result run = Throw (Error "Invalid API response format"))
  /\ (forall message,
        Run.result run = Throw (ErrorObject true message) ->
        Str.includes message "fetch" = false).
Proof.
  cbv zeta. destruct (getData_run apiURL w) as [Ht [_ Hr]].
  split; [exact Ht|]. rewrite Hr. clear Hr Ht.
  assert (Hre : forall e message,
            rethrown apiURL e = ErrorObject true message ->
            Str.includes message "fetch" = false).
  { intros [[|] m|] message; cbn; try discriminate.
    destruct (Str.includes m "fetch") eqn:E; [discriminate|].
    intros H. injection H as <-. exact E. }
  destruct (snd (fetch apiURL GET w)) as [response|e].
  - destruct (Response.ok response) eqn:Hok.
    + destruct (Response.json response) as [data|e] eqn:Hj.
      * destruct (isValidApiResponse data) eqn:Hv.
        -- split.
           { intros d E. injection E as <-. split; [exact Hv|].
             exists response. repeat split; assumption. }
           split; [intros r E; injection E as <-; congruence|].
           split; [intros r d E; injection E as <-; congruence|].
           discriminate.
        -- split; [discriminate|].
           split; [intros r E; injection E as <-; congruence|].
           split; [reflexivity | discriminate].
      * split; [discriminate|].
        split; [intros r E; injection E as <-; congruence|].
        split; [intros r d E; injection E as <-; congruence|].
        intros message E. injection E as E. now apply (Hre e).
    + split; [discriminate|].
      split; [intros r E _; injection E as <-; reflexivity|].
      split; [intros r d E; injection E as <-; congruence|].
      discriminate.
  - split; [discriminate|]. split; [discriminate|]. split; [discriminate|].
    intros message E. injection E as E. now apply (Hre e).
Qed.

Section DeviceName.
Context {P : Platform}.

Lemma getDeviceName_run (w : world) :
  getDeviceName w
  = Run.mk (fst (DeviceInfo_getDeviceName w))
      (match snd (DeviceInfo_getDeviceName w) with
       | Return _ => []
       | Throw e => [Console level_error "Error getting device name"
                       [thrown_text e]]
       end)
      (Return
         (match snd (DeviceInfo_getDeviceName w) with
          | Return name => if String.eqb name "" then None else Some name
          | Throw _ => None
          end)).
Proof.
  unfold getDeviceName, bind, try_catch, call, silent.
  destruct (DeviceInfo_getDeviceName w) as [w' [name|e]]; cbn.
  - destruct (String.eqb name ""); reflexivity.
  - reflexivity.
Qed.

End DeviceName.

Lemma getDeviceInformation_run {P : Platform}
    (onProgress : callback InitProgress.t) (w : world) :
  let answer := snd (DeviceInfo_getDeviceName w) in
  let deviceName :=
    match answer with
    | Return name => if String.eqb name "" then None else Some name
    | Throw _ => None
    end in
  let shown_name := DigitalSignageInitializer.or_default deviceName "Unknown" in
  DigitalSignageInitializer.getDeviceInformation onProgress w
  = Run.mk (fst (DeviceInfo_getDeviceName w))
      (notes onProgress
         (InitProgress.mk device_info "Getting device information..."
            (Some 0) None None)
       ++ match answer with
          | Return _ => []
          | Throw e => [Console level_error "Error getting device name"
                          [thrown_text e]]
          end
       ++ notes onProgress
            (InitProgress.mk device_info ("Device: " ++ shown_name)
               (Some 100) None None)
       ++ [Console level_log "Device name" [shown_name]])
      (Return deviceName)
  /\ deviceName <> Some "".
Proof.
  cbv zeta. split.
  - unfold DigitalSignageInitializer.getDeviceInformation,
      DigitalSignageInitializer.notify.
    rewrite bind_invoke. unfold try_catch.
    assert (Hbody : forall k : option string -> M (option string),
              bind getDeviceName k w
              = prepend
                  (match snd (DeviceInfo_getDeviceName w) with
                   | Return _ => []
                   | Throw e => [Console level_error "Error getting device name"
                                   [thrown_text e]]
                   end)
                  (k (match snd (DeviceInfo_getDeviceName w) with
                      | Return name =>
                          if String.eqb name "" then None else Some name
                      | Throw _ => None
                      end)
                     (fst (DeviceInfo_getDeviceName w)))).
    { intros k. rewrite (bind_returns _ _ _ _
                           (f_equal Run.result (getDeviceName_run w))).
      now rewrite (getDeviceName_run w). }
    rewrite Hbody, bind_invoke, bind_console.
    cbn [prepend Run.result Run.final Run.trace ret].
    unfold prepend. cbn [Run.result Run.final Run.trace app].
    rewrite ?app_nil_r. reflexivity.
  - destruct (snd (DeviceInfo_getDeviceName w)) as [name|e];
      [|discriminate].
    destruct (String.eqb name "") eqn:E; [discriminate|].
    intros H. injection H as ->. discriminate.
Qed.

(** X18: the device name stage never fails.  [getDeviceInformation] returns
    at every instant: the name the platform gave, or [null] when the
    platform gave the empty name or threw (the error is logged by
    [getDeviceName] and goes no further).  The progress callback is told
    twice, [Getting device information...] and [Device: <name or
    Unknown>]; the [catch] of the stage, with its [Device name
    unavailable], is never entered. *)
Theorem device_name_stage_never_fails {P : Platform}
    (onProgress : callback InitProgress.t) (w : world) :
  let answer := snd (DeviceInfo_getDeviceName w) in
  let deviceName :=
    match answer with
    | Return name => if String.eqb name "" then None else Some name
    | Throw _ => None
    end in
  let shown_name := DigitalSignageInitializer.or_default deviceName "Unknown" in
  DigitalSignageInitializer.getDeviceInformation onProgress w
  = Run.mk (fst (DeviceInfo_getDeviceName w))
      (notes onProgress
         (InitProgress.mk device_info "Getting device information..."
            (Some 0) None None)
       ++ match answer with
          | Return _ => []
          | Throw e => [Console level_error "Error getting device name"
                          [thrown_text e]]
          end
       ++ notes onProgress
            (InitProgress.mk device_info ("Device: " ++ shown_name)
               (Some 100) None None)
       ++ [Console level_log "Device name" [shown_name]])
      (Return deviceName)
  /\ deviceName <> Some "".
Proof. exact (getDeviceInformation_run onProgress w). Qed.

(** ** The results of a batch, and the function that the application
    calls *)

Section WellFormed.
Context {P : Platform}.
Variable assetsDir : string.
Variable onProgress : callback DownloadProgress.t.

Lemma retry_run_well_formed (asset : Asset.t) (retries attempt : nat)
    (w w' : world) (tr : list event) (r : DownloadResult.t) :
  retry_run assetsDir asset retries onProgress attempt w tr r w' ->
  well_formed assetsDir r.
Proof.
  induction 1 as [attempt w r run Hr | w e run Hr msg
                 | attempt w e tr r w' Hlt run Hr Hrest IH].
  - destruct (AssetDownloader.isStream asset) eqn:Hs.
    + destruct (try_stream assetsDir asset attempt retries onProgress w Hs)
        as [H _]. cbv zeta in H. fold run in H. rewrite H in Hr.
      injection Hr as <-. unfold well_formed. cbn. rewrite Hs. now split.
    + destruct (try_file assetsDir asset attempt retries onProgress w Hs)
        as [_ [_ H]]. cbv zeta in H. fold run in H. rewrite Hr in H.
      destruct H as [filename [Hf [-> _]]].
      unfold well_formed. cbn. rewrite Hs. split; [reflexivity|].
      now exists filename.
  - unfold well_formed. cbn. split; [now eexists | reflexivity].
  - exact IH.
Qed.

Lemma batch_run_well_formed (allAssets : list Asset.t) (w w' : world)
    (tr : list event) (results : list DownloadResult.t) :
  batch_run assetsDir onProgress allAssets w tr results w' ->
  Forall (well_formed assetsDir) results.
Proof.
  induction 1 as [w | asset rest w r tr results w' run Hr Hrest IH];
    constructor; [|exact IH].
  unfold AssetDownloader.downloadAsset in run.
  destruct (loop_retry_run assetsDir asset 3 onProgress 3 1 w)
    as [r' [Heq Hrun]]; [lia | lia |].
  assert (r' = r) as ->.
  { subst run. rewrite Heq in Hr. cbn in Hr. congruence. }
  eapply retry_run_well_formed. exact Hrun.
Qed.

End WellFormed.

Section TopLevel.
Context {P : Platform}.
Variable onProgress : callback DownloadProgress.t.

Lemma bind_inv {A B} (m : M A) (k : A -> M B) (w : world) (b : B) :
  Run.result (bind m k w) = Return b ->
  exists a, Run.result (m w) = Return a
            /\ Run.result (k a (Run.final (m w))) = Return b.
Proof.
  unfold bind. destruct (Run.result (m w)) as [a|e]; cbn; [|discriminate].
  intros H. now exists a.
Qed.

Lemma try_inv {A} (m : M A) (h : thrown -> M A) (w : world) (a : A) :
  Run.result (try_catch m h w) = Return a ->
  Run.result (m w) = Return a
  \/ exists e, Run.result (m w) = Throw e
               /\ Run.result (h e (Run.final (m w))) = Return a.
Proof.
  unfold try_catch. destruct (Run.result (m w)) as [x|e] eqn:E; cbn.
  - intros H. left. congruence.
  - intros H. right. now exists e.
Qed.

Lemma ensureDirectoryExists_result (dir : string) (w : world) :
  Run.result (AssetDownloader.ensureDirectoryExists dir w)
  = if fs_existsSync dir w then Return tt
    else match snd (fs_mkdirSync dir w) with
         | Return _ => Return tt
         | Throw e => Throw e
         end.
Proof.
  unfold AssetDownloader.ensureDirectoryExists. rewrite bind_read.
  destruct (fs_existsSync dir w); cbn [negb]; [reflexivity|].
  rewrite bind_call.
  destruct (fs_mkdirSync dir w) as [w' [[]|e]]; reflexivity.
Qed.

Lemma createWebviewManifest_run (apiResponse : ApiResponse.t)
    (results : list DownloadResult.t) (w : world) :
  let data :=
    manifest_json results
      (AssetDownloader.preparePlaylistsForCycling apiResponse results)
      (AssetDownloader.prepareAssetsForWebview results) w in
  let run := createWebviewManifest main_directory apiResponse results w in
  match snd (fs_writeFileSync manifest_path data w) with
  | Return _ =>
      Run.result run = Return tt /\ writes (Run.trace run) = [manifest_path]
  | Throw e => Run.result run = Throw e /\ writes (Run.trace run) = []
  end.
Proof.
  cbv zeta. unfold createWebviewManifest. cbv zeta. rewrite bind_read.
  rewrite bind_call. fold main_directory. fold (@manifest_path P).
  destruct (fs_writeFileSync manifest_path _ w) as [w' [[]|e]];
    cbn [fst snd]; [|split; reflexivity].
  rewrite !bind_console. unfold on_return. read_trace.
  split; [reflexivity|].
  assert (Hc : forall l, writes (List.flat_map cycle_summary l) = []).
  { induction l as [|c l IH]; [reflexivity|]. cbn [List.flat_map].
    rewrite writes_app, IH, app_nil_r. unfold cycle_summary.
    rewrite !writes_app.
    assert (Hm : forall l',
               writes
                 (List.map
                    (fun asset =>
                       Console level_log "asset"
                         [WebviewAsset.name asset;
                          number_text (WebviewAsset.displayTime asset)]) l')
               = []) by (induction l'; simpl; auto).
    rewrite Hm.
    destruct (PlaylistCycle.startDate c) as [d|];
      [destruct (Str.truthy d)|];
      (destruct (PlaylistCycle.endDate c) as [d'|];
       [destruct (Str.truthy d')|]); reflexivity. }
  unfold emit_all. cbn [Run.trace]. now rewrite Hc.
Qed.

Lemma downloadAssets_run (apiResponse : ApiResponse.t) (w : world) :
  let allAssets :=
    List.flat_map Playlist.assets (ApiResponse.playlists apiResponse) in
  let run := downloadAssets apiResponse onProgress w in
  match Run.result run with
  | Return (results, playlistCycles) =>
      List.map DownloadResult.asset results = allAssets
      /\ Forall (well_formed main_directory) results
      /\ playlistCycles
         = AssetDownloader.preparePlaylistsForCycling apiResponse results
      /\ writes (Run.trace run)
         = (List.flat_map written results ++ [manifest_path])%list
  | Throw e =>
      (fs_existsSync main_directory w = false
       /\ snd (fs_mkdirSync main_directory w) = Throw e)
      \/ exists data w', snd (fs_writeFileSync manifest_path data w') = Throw e
  end.
Proof.
  cbv zeta. unfold downloadAssets. cbv zeta. fold main_directory.
  pose proof (ensureDirectoryExists_result main_directory w) as Hens.
  destruct (Run.result (AssetDownloader.ensureDirectoryExists main_directory w))
    as [[]|e] eqn:Hdir.
  2:{ (* the directory cannot be made *)
      assert (Hthrow : Run.result
                (AssetDownloader.downloadAllAssets main_directory apiResponse
                   onProgress w) = Throw e).
      { unfold AssetDownloader.downloadAllAssets.
        now rewrite (bind_throws _ _ _ e Hdir). }
      rewrite (try_throws _ _ _ e);
        [|now rewrite (bind_throws _ _ _ e Hthrow)].
      rewrite prepend_result, bind_console, prepend_result. cbn.
      left. destruct (fs_existsSync main_directory w); [discriminate|].
      split; [reflexivity|].
      destruct (snd (fs_mkdirSync main_directory w)); [discriminate|].
      congruence. }
  destruct (downloadAllAssets_run main_directory onProgress apiResponse w Hdir)
    as [results [tr [Hres [Hrun [Hw _]]]]].
  cbv zeta in Hres, Hrun, Hw.
  destruct (batch_run_facts main_directory onProgress _ _ _ _ _ Hrun)
    as [Hmap [Hwr _]].
  pose proof (batch_run_well_formed main_directory onProgress _ _ _ _ _ Hrun)
    as Hwf.
  set (w1 := Run.final
               (AssetDownloader.downloadAllAssets main_directory apiResponse
                  onProgress w)) in *.
  pose proof (createWebviewManifest_run apiResponse results w1) as Hman.
  cbv zeta in Hman.
  destruct (snd (fs_writeFileSync manifest_path _ w1)) as [[]|e] eqn:Hwrite.
  - destruct Hman as [Hmr Hmw].
    assert (Hbody :
      Run.result
        (bind (AssetDownloader.downloadAllAssets main_directory apiResponse
                 onProgress)
           (fun results =>
              bind (createWebviewManifest main_directory apiResponse results)
                (fun _ =>
                   ret (results,
                        AssetDownloader.preparePlaylistsForCycling
                          apiResponse results))) w)
      = Return (results,
                AssetDownloader.preparePlaylistsForCycling apiResponse
                  results)).
    { rewrite (bind_returns _ _ _ results Hres), prepend_result.
      fold w1. now rewrite (bind_returns _ _ _ tt Hmr). }
    rewrite (try_returns _ _ _ _ Hbody). rewrite Hbody.
    split; [exact Hmap|]. split; [exact Hwf|]. split; [reflexivity|].
    rewrite (bind_returns _ _ _ results Hres). fold w1.
    rewrite (bind_returns _ _ _ tt Hmr). read_trace.
    rewrite Hw, Hwr, Hmw. unfold ret. cbn [Run.trace writes].
    now rewrite app_nil_r.
  - destruct Hman as [Hmr _].
    assert (Hbody :
      Run.result
        (bind (AssetDownloader.downloadAllAssets main_directory apiResponse
                 onProgress)
           (fun results =>
              bind (createWebviewManifest main_directory apiResponse results)
                (fun _ =>
                   ret (results,
                        AssetDownloader.preparePlaylistsForCycling
                          apiResponse results))) w)
      = Throw e).
    { rewrite (bind_returns _ _ _ results Hres), prepend_result.
      fold w1. now rewrite (bind_throws _ _ _ e Hmr). }
    rewrite (try_throws _ _ _ e Hbody).
    rewrite prepend_result, bind_console, prepend_result. cbn.
    right. eexists. exists w1. exact Hwrite.
Qed.

End TopLevel.


Section DisplayPaths.
Context {P : Platform}.




End DisplayPaths.



(** The files that the call for [shared_manifest] writes. *)
Example shared_download_writes :
  writes
    (Run.trace
       (@downloadAssets Scripted.platform shared_manifest None shared_world))
  = ["./assets/main/a1_welcome.png"; "./assets/main/a2_promo.mp4";
     "./assets/main/a1_welcome.png"; "./assets/main/webview-manifest.json"].
Proof. vm_compute. reflexivity. Qed.

(** A file whose id a stream shares is given the URL of the stream. *)
Example file_given_stream_url :
  let live :=
    Asset.mk "x1" "Live" "https://live.example.com/x.m3u8" "stream" "1" "30" in
  let poster :=
    Asset.mk "x1" "Poster" "https://cdn.example.com/poster.png" "image" "2" "5" in
  let results :=
    [ DownloadResult.mk live true None (Some "https://live.example.com/x.m3u8");
      DownloadResult.mk poster true None (Some "./assets/main/x1_poster.png") ] in
  option_map WebviewAsset.displayPath
    (AssetDownloader.toWebviewAsset results poster)
  = Some (Some "https://live.example.com/x.m3u8").
Proof. reflexivity. Qed.

(** ** The initialization *)

Lemma count_split {A} (f : A -> bool) (l : list A) :
  (AssetDownloader.count f l + AssetDownloader.count (fun x => negb (f x)) l
   = List.length l)%nat.
Proof.
  unfold AssetDownloader.count. induction l as [|a l IH]; [reflexivity|].
  cbn [List.filter]. destruct (f a); cbn [negb List.length]; lia.
Qed.

Lemma count_both {A} (f g : A -> bool) (l : list A) :
  (AssetDownloader.count (fun x => f x && g x) l <= AssetDownloader.count f l)%nat.
Proof.
  unfold AssetDownloader.count. induction l as [|a l IH]; [reflexivity|].
  cbn [List.filter]. destruct (f a); cbn [andb].
  - destruct (g a); cbn [List.length]; lia.
  - exact IH.
Qed.

Section Stages.
Context {P : Platform}.
Variable this : DigitalSignageInitializer.t.
Variable onProgress : callback InitProgress.t.

Lemma try_cases {A} (m : M A) (h : thrown -> M A) (w : world) :
  (exists a, Run.result (m w) = Return a
             /\ Run.result (try_catch m h w) = Return a)
  \/ (exists e, Run.result (m w) = Throw e
                /\ Run.result (try_catch m h w)
                   = Run.result (h e (Run.final (m w)))).
Proof.
  unfold try_catch. destruct (Run.result (m w)) as [a|e] eqn:E.
  - left. exists a. now split.
  - right. exists e. now split.
Qed.

Lemma getDeviceInformation_result (w : world) (deviceName : option string) :
  Run.result (DigitalSignageInitializer.getDeviceInformation onProgress w)
  = Return deviceName ->
  deviceName <> Some "".
Proof.
  unfold DigitalSignageInitializer.getDeviceInformation,
    DigitalSignageInitializer.notify.
  rewrite bind_invoke, prepend_result. intros H.
  apply try_inv in H as [H | [e [H _]]].
  - apply bind_inv in H as [name [Hname Hrest]].
    rewrite bind_invoke, prepend_result, bind_console in Hrest.
    cbn in Hrest. injection Hrest as <-.
    rewrite getDeviceName_run in Hname. cbn in Hname.
    injection Hname as <-.
    destruct (snd (DeviceInfo_getDeviceName w)) as [n|]; [|discriminate].
    destruct (String.eqb n "") eqn:E; [discriminate|].
    intros H'. injection H' as ->. discriminate.
  - rewrite (bind_returns _ _ _ _ (f_equal Run.result (getDeviceName_run w)))
      in H.
    rewrite prepend_result, bind_invoke, prepend_result, bind_console in H.
    discriminate.
Qed.

Lemma fetchApiData_result (w : world) (apiResponse : ApiResponse.t) :
  Run.result (DigitalSignageInitializer.fetchApiData this onProgress w)
  = Return apiResponse ->
  isValidApiResponse apiResponse = true.
Proof.
  unfold DigitalSignageInitializer.fetchApiData,
    DigitalSignageInitializer.notify.
  rewrite bind_invoke, prepend_result. intros H.
  apply try_inv in H as [H | [e [_ H]]].
  - apply bind_inv in H as [data [Hdata H]].
    rewrite bind_invoke, prepend_result, bind_console in H.
    cbn in H. injection H as <-.
    destruct (getData_run (DigitalSignageInitializer.apiURL this) w)
      as [_ [_ Hr]].
    rewrite Hr in Hdata.
    destruct (snd (fetch _ GET w)) as [response|]; [|discriminate].
    destruct (Response.ok response); [|discriminate].
    destruct (Response.json response) as [d|]; [|discriminate].
    destruct (isValidApiResponse d) eqn:Hv; [|discriminate].
    now injection Hdata as <-.
  - rewrite bind_console in H. discriminate.
Qed.

Lemma downloadAndProcessAssets_result (apiResponse : ApiResponse.t)
    (w : world) (processed : list DownloadResult.t * list PlaylistCycle.t) :
  Run.result
    (DigitalSignageInitializer.downloadAndProcessAssets this apiResponse
       onProgress w) = Return processed ->
  List.map DownloadResult.asset (fst processed)
  = List.flat_map Playlist.assets (ApiResponse.playlists apiResponse)
  /\ Forall (well_formed main_directory) (fst processed)
  /\ snd processed
     = AssetDownloader.preparePlaylistsForCycling apiResponse (fst processed).
Proof.
  unfold DigitalSignageInitializer.downloadAndProcessAssets,
    DigitalSignageInitializer.notify.
  rewrite bind_invoke, prepend_result. intros H.
  apply try_inv in H as [H | [e [_ H]]].
  - cbv zeta in H. apply bind_inv in H as [processed0 [Hd H]].
    rewrite bind_invoke, prepend_result, bind_console in H.
    cbn in H. injection H as <-.
    match type of Hd with
    | Run.result (downloadAssets _ ?cb _) = _ =>
        pose proof (downloadAssets_run cb apiResponse w) as Hrun
    end.
    cbv zeta in Hrun. rewrite Hd in Hrun. destruct processed0 as [r c].
    destruct Hrun as [Hmap [Hwf [Hc _]]]. cbn [fst snd]. now repeat split.
  - rewrite bind_console in H. discriminate.
Qed.

Lemma prepareFinalResult_result (deviceName : option string)
    (apiResponse : ApiResponse.t) (results : list DownloadResult.t)
    (playlistCycles : list PlaylistCycle.t) (w : world)
    (result : InitializationResult.t) :
  Run.result
    (DigitalSignageInitializer.prepareFinalResult this deviceName apiResponse
       results playlistCycles w) = Return result ->
  exists stats,
    consistent stats results playlistCycles
    /\ Stats.initializationTime stats
       = Date_now w - DigitalSignageInitializer.startTime this
    /\ result
       = InitializationResult.mk true
           (match deviceName with
            | Some d => if Str.truthy d then Some d else None
            | None => None
            end)
           (Some apiResponse) (Some results) (Some playlistCycles)
           (List.find PlaylistCycle.isDefault playlistCycles) None
           (Some stats).
Proof.
  unfold DigitalSignageInitializer.prepareFinalResult. cbv zeta.
  rewrite bind_read, prepend_result, bind_console, prepend_result.
  unfold ret. cbn [Run.result]. intros H.
  injection H as <-. eexists. split; [|split]; [| |reflexivity].
  - unfold consistent.
    cbn [Stats.totalAssets Stats.successfulDownloads Stats.failedDownloads
         Stats.streamsKept Stats.totalPlaylists].
    split; [reflexivity|].
    split; [apply count_split|]. split; [apply count_both | reflexivity].
  - reflexivity.
Qed.

Lemma initialize_result (w : world) :
  exists result,
    Run.result (DigitalSignageInitializer.initialize this onProgress w)
    = Return result
    /\ ((exists message, result = InitializationResult.failure message)
        \/ (InitializationResult.success result = true /\ fully_initialized result)).
Proof.
  unfold DigitalSignageInitializer.initialize.
  match goal with
  | |- context [try_catch ?m ?h w] =>
      destruct (try_cases m h w) as [[r [Hbody Htry]] | [e [_ Htry]]]
  end.
  2:{ rewrite bind_console, prepend_result in Htry.
      unfold DigitalSignageInitializer.notify in Htry.
      rewrite bind_invoke in Htry. cbn in Htry.
      eexists. split; [exact Htry|]. left. now eexists. }
  exists r. split; [exact Htry|]. right. clear Htry.
  rewrite bind_console, prepend_result in Hbody.
  apply bind_inv in Hbody as [[] [_ Hbody]].
  apply bind_inv in Hbody as [deviceName [Hdev Hbody]].
  apply bind_inv in Hbody as [apiResponse [Hapi Hbody]].
  apply bind_inv in Hbody as [processed [Hproc Hbody]].
  apply bind_inv in Hbody as [result [Hfinal Hbody]].
  unfold DigitalSignageInitializer.notify in Hbody.
  rewrite bind_invoke, prepend_result, bind_console in Hbody.
  cbn in Hbody. injection Hbody as <-.
  apply getDeviceInformation_result in Hdev.
  apply fetchApiData_result in Hapi.
  apply downloadAndProcessAssets_result in Hproc as [Hmap [Hwf Hcycles]].
  apply prepareFinalResult_result in Hfinal as [stats [Hstats [_ ->]]].
  split; [reflexivity|].
  exists apiResponse, (fst processed), stats.
  rewrite Hcycles in Hstats. cbn. rewrite <- Hcycles.
  split; [exact Hapi|]. split; [exact Hmap|]. split; [exact Hwf|].
  split; [now rewrite Hcycles|].
  split.
  { destruct deviceName as [d|]; [|discriminate].
    destruct (Str.truthy d) eqn:E; [|discriminate].
    intros H. injection H as ->. discriminate. }
  now repeat split.
Qed.

End Stages.


Section Entry.
Context {P : Platform}.

Lemma validateResult_cases (result : InitializationResult.t) (w : world) :
  exists valid,
    Run.result (DigitalSignageInitializer.validateResult result w)
    = Return valid
    /\ (valid = true ->
        InitializationResult.success result = true
        /\ exists playlistCycles selected,
             InitializationResult.playlistCycles result = Some playlistCycles
             /\ selected_cycle playlistCycles = Some selected
             /\ PlaylistCycle.assets selected <> []).
Proof.
  unfold DigitalSignageInitializer.validateResult.
  destruct (InitializationResult.success result); cbn [negb].
  2:{ exists false. rewrite bind_console. split; [reflexivity | discriminate]. }
  destruct (InitializationResult.playlistCycles result) as [cycles|].
  2:{ exists false. rewrite bind_console. split; [reflexivity | discriminate]. }
  destruct (Nat.eqb (List.length cycles) 0).
  { exists false. rewrite bind_console. split; [reflexivity | discriminate]. }
  rewrite selected_cycle_spec.
  destruct (selected_cycle cycles) as [selected|] eqn:Hsel.
  2:{ exists false. rewrite bind_console. split; [reflexivity | discriminate]. }
  destruct (PlaylistCycle.assets selected) as [|a l] eqn:Ha.
  { exists false. cbn [List.length Nat.eqb]. rewrite bind_console.
    split; [reflexivity | discriminate]. }
  exists true. cbn [List.length Nat.eqb]. rewrite bind_console.
  split; [reflexivity|]. intros _. split; [reflexivity|].
  exists cycles, selected. split; [reflexivity|]. split; [exact Hsel|].
  rewrite Ha. discriminate.
Qed.

Lemma initializeDigitalSignage_result (config : InitializationConfig.t)
    (onProgress : callback InitProgress.t) (w : world) :
  exists result,
    Run.result (initializeDigitalSignage config onProgress w) = Return result
    /\ (result = InitializationResult.failure "Initialization validation failed"
        \/ (InitializationResult.success result = true
            /\ Run.result
                 (DigitalSignageInitializer.initialize (initializer_of config w)
                    onProgress w) = Return result
            /\ fully_initialized result
            /\ exists playlistCycles selected,
                 InitializationResult.playlistCycles result
                 = Some playlistCycles
                 /\ selected_cycle playlistCycles = Some selected
                 /\ PlaylistCycle.assets selected <> [])).
Proof.
  unfold initializeDigitalSignage.
  assert (Hnew : Run.result (DigitalSignageInitializer.new config w)
                 = Return (initializer_of config w)) by reflexivity.
  rewrite (bind_returns _ _ _ _ Hnew).
  change (Run.final (DigitalSignageInitializer.new config w)) with w.
  rewrite prepend_result.
  destruct (initialize_result (initializer_of config w) onProgress w)
    as [result [Hinit Hshape]].
  rewrite (bind_returns _ _ _ result Hinit), prepend_result.
  destruct (validateResult_cases result
              (Run.final
                 (DigitalSignageInitializer.initialize (initializer_of config w)
                    onProgress w)))
    as [valid [Hv Htrue]].
  rewrite (bind_returns _ _ _ valid Hv), prepend_result.
  destruct valid.
  - exists result. split; [reflexivity|]. right.
    destruct (Htrue eq_refl) as [Hs Hsel].
    split; [exact Hs|]. split; [exact Hinit|]. split; [|exact Hsel].
    destruct Hshape as [[message ->] | [_ Hc]]; [discriminate | exact Hc].
  - eexists. split; [reflexivity|]. now left.
Qed.

End Entry.

(** X22: [initializeDigitalSignage] never throws, and its answer is one of
    two.  Every failure, whatever its cause (the network, the file system,
    the manifest, or a result with nothing to show), is the same
    [{ success: false, error: "Initialization validation failed" }]: the
    message of the cause is in the console and in the progress reports
    only.  A success is the result of [initialize], complete, and has
    something to show: its cycles are not empty, none of them is without
    assets, and the cycle selected for display (the first one flagged
    default, else the first) has at least one asset. *)
Theorem entry_point_fails_with_one_message {P : Platform}
    (config : InitializationConfig.t) (onProgress : callback InitProgress.t)
    (w : world) :
  exists result,
    Run.result (initializeDigitalSignage config onProgress w) = Return result
    /\ (InitializationResult.success result = false ->
        result
        = InitializationResult.failure "Initialization validation failed")
    /\ (InitializationResult.success result = true ->
        Run.result
          (DigitalSignageInitializer.initialize (initializer_of config w)
             onProgress w) = Return result
        /\ fully_initialized result
        /\ exists playlistCycles selected,
             InitializationResult.playlistCycles result = Some playlistCycles
             /\ selected_cycle playlistCycles = Some selected
             /\ PlaylistCycle.assets selected <> []
             /\ Forall (fun cycle => PlaylistCycle.assets cycle <> [])
                  playlistCycles).
Proof.
  destruct (initializeDigitalSignage_result config onProgress w)
    as [result [Hres [-> | [Hs [Hinit [Hc Hsel]]]]]].
  - eexists. split; [exact Hres|]. split; [reflexivity | discriminate].
  - exists result. split; [exact Hres|]. split; [congruence|]. intros _.
    split; [exact Hinit|]. split; [exact Hc|].
    destruct Hsel as [cycles [selected [Hcycles [Hselected Hassets]]]].
    exists cycles, selected. split; [exact Hcycles|].
    split; [exact Hselected|]. split; [exact Hassets|].
    destruct Hc as [api [results [stats [_ [_ [_ [_ [_ [_ [_ [Hpc _]]]]]]]]]]].
    rewrite Hcycles in Hpc. injection Hpc as ->.
    apply Forall_forall. intros cycle Hin.
    apply In_cycles in Hin as [_ [_ [_ Hne]]]. exact Hne.
Qed.

(** A manifest request answered with HTTP 500: [initialize] reports the
    cause, the entry point reports the validation. *)
Example server_error_at_start_up :
  let w := Scripted.mk [Scripted.server_error] 0 in
  Run.result
    (@DigitalSignageInitializer.initialize Scripted.platform
       (@initializer_of Scripted.platform signage_config w) None w)
  = Return
      (InitializationResult.failure
         "API fetch failed: HTTP error! status: 500 - Internal Server Error")
  /\ Run.result (@initializeDigitalSignage Scripted.platform signage_config
                   None w)
     = Return (InitializationResult.failure "Initialization validation failed").
Proof. split; vm_compute; reflexivity. Qed.

(** ** The flat list of assets *)

Lemma filter_map_comm {A B} (f : A -> B) (p : B -> bool) (l : list A) :
  List.filter p (List.map f l)
  = List.map f (List.filter (fun x => p (f x)) l).
Proof.
  induction l as [|a l IH]; [reflexivity|]. cbn [List.map List.filter].
  destruct (p (f a)); cbn [List.map]; congruence.
Qed.

(** X23: the flat list of [prepareAssetsForWebview] holds one entry for
    every successful result and none for a failed one, so an asset that
    succeeded in [k] memberships is listed [k] times.  Each entry carries
    the id, name, file type and URL of the asset of its result, and its
    display path is the URL for a stream and the local path of that very
    result for a file (here nothing is looked up by id).  When the
    ordering keys all parsed to integers the list is sorted by key, and
    entries of equal key keep the order of their results. *)
Theorem flat_list_is_the_successes (results : list DownloadResult.t) :
  let flat := AssetDownloader.prepareAssetsForWebview results in
  let successes := List.filter DownloadResult.success results in
  List.length flat = AssetDownloader.count DownloadResult.success results
  /\ Permutation (List.map WebviewAsset.id flat)
       (List.map (fun r => Asset.id (DownloadResult.asset r)) successes)
  /\ (forall a, In a flat ->
        exists r,
          In r results /\ DownloadResult.success r = true
          /\ WebviewAsset.id a = Asset.id (DownloadResult.asset r)
          /\ WebviewAsset.name a = Asset.name (DownloadResult.asset r)
          /\ WebviewAsset.filetype a = Asset.filetype (DownloadResult.asset r)
          /\ WebviewAsset.originalPath a
             = Asset.filepath (DownloadResult.asset r)
          /\ WebviewAsset.isStream a
             = AssetDownloader.isStream (DownloadResult.asset r)
          /\ WebviewAsset.displayPath a
             = if AssetDownloader.isStream (DownloadResult.asset r)
               then Some (Asset.filepath (DownloadResult.asset r))
               else DownloadResult.localPath r)
  /\ (integer_keys WebviewAsset.playing_order flat ->
      StronglySorted (key_le WebviewAsset.playing_order) flat
      /\ forall k,
           List.map WebviewAsset.id
             (List.filter (has_key WebviewAsset.playing_order k) flat)
           = List.map (fun r => Asset.id (DownloadResult.asset r))
               (List.filter
                  (fun r =>
                     has_key (fun r => parseInt (Asset.playing_order
                                                   (DownloadResult.asset r)))
                       k r)
                  successes)).
Proof.
  cbv zeta. unfold AssetDownloader.prepareAssetsForWebview.
  set (view := fun r : DownloadResult.t =>
         WebviewAsset.mk
           (Asset.id (DownloadResult.asset r))
           (Asset.name (DownloadResult.asset r))
           (Asset.filetype (DownloadResult.asset r))
           (parseInt (Asset.playing_order (DownloadResult.asset r)))
           (parseInt (Asset.time (DownloadResult.asset r)))
           (if AssetDownloader.isStream (DownloadResult.asset r)
            then Some (Asset.filepath (DownloadResult.asset r))
            else DownloadResult.localPath r)
           (AssetDownloader.isStream (DownloadResult.asset r))
           (Asset.filepath (DownloadResult.asset r))).
  set (successes := List.filter DownloadResult.success results).
  pose proof (sort_perm AssetDownloader.by_playing_order
                (List.map view successes)) as Hperm.
  split.
  { rewrite <- (Permutation_length Hperm), length_map. reflexivity. }
  split.
  { rewrite <- Hperm, map_map. reflexivity. }
  split.
  { intros a Ha. apply In_sort, in_map_iff in Ha as [r [<- Hr]].
    apply filter_In in Hr as [Hr Hs]. exists r. now repeat split. }
  intros Hint.
  assert (Hint' : integer_keys WebviewAsset.playing_order
                    (List.map view successes)).
  { unfold integer_keys in *. eapply Permutation_Forall; [|exact Hint].
    symmetry. exact Hperm. }
  split.
  { apply (sort_sorted WebviewAsset.playing_order _ Hint'). }
  intros k.
  pose proof (sort_stable WebviewAsset.playing_order k _ Hint') as Hst.
  unfold AssetDownloader.by_playing_order.
  etransitivity; [apply f_equal; exact Hst|].
  rewrite filter_map_comm, map_map. reflexivity.
Qed.

(** ** Which playlists become cycles *)

Lemma find_existsb {A} (f : A -> bool) (l : list A) :
  List.existsb f l = match List.find f l with Some _ => true | None => false end.
Proof.
  induction l as [|a l IH]; [reflexivity|]. cbn. now destruct (f a).
Qed.

Lemma resolved_assets (results : list DownloadResult.t) (l : list Asset.t) :
  List.length
    (filter_non_null (List.map (AssetDownloader.toWebviewAsset results) l))
  = List.length (List.filter (resolved_by results) l).
Proof.
  induction l as [|a l IH]; [reflexivity|].
  cbn [List.map List.filter].
  unfold resolved_by at 1. rewrite find_existsb.
  unfold AssetDownloader.toWebviewAsset at 1.
  destruct (List.find _ results); cbn; now rewrite IH.
Qed.

Lemma existsb_filter {A} (f : A -> bool) (l : list A) :
  Nat.ltb 0 (List.length (List.filter f l)) = List.existsb f l.
Proof.
  induction l as [|a l IH]; [reflexivity|]. cbn. now destruct (f a).
Qed.

(** X24: which playlists become cycles, and what a cycle keeps.  The
    cycles are the playlists of the manifest that have at least one asset
    with a successful result under its id, in manifest order, one cycle
    each; a cycle keeps the id, the name, the default flag and both dates
    of its playlist, and holds as many assets as the playlist has resolved
    ones. *)
Theorem cycles_follow_the_manifest
    (apiResponse : ApiResponse.t) (results : list DownloadResult.t) :
  let kept :=
    List.filter (has_success results) (ApiResponse.playlists apiResponse) in
  let cycles :=
    AssetDownloader.preparePlaylistsForCycling apiResponse results in
  cycles = List.map (AssetDownloader.toPlaylistCycle results) kept
  /\ List.map PlaylistCycle.playlistId cycles = List.map Playlist.id kept
  /\ List.map PlaylistCycle.playlistName cycles = List.map Playlist.name kept
  /\ List.map PlaylistCycle.isDefault cycles
     = List.map Playlist.is_default kept
  /\ List.map PlaylistCycle.startDate cycles
     = List.map Playlist.startdate kept
  /\ List.map PlaylistCycle.endDate cycles = List.map Playlist.enddate kept
  /\ List.map (fun cycle => List.length (PlaylistCycle.assets cycle)) cycles
     = List.map
         (fun playlist =>
            List.length
              (List.filter (resolved_by results) (Playlist.assets playlist)))
         kept.
Proof.
  cbv zeta.
  assert (Hcycles :
    AssetDownloader.preparePlaylistsForCycling apiResponse results
    = List.map (AssetDownloader.toPlaylistCycle results)
        (List.filter (has_success results)
           (ApiResponse.playlists apiResponse))).
  { unfold AssetDownloader.preparePlaylistsForCycling.
    rewrite filter_map_comm. f_equal. apply filter_ext. intros playlist.
    cbn [AssetDownloader.toPlaylistCycle PlaylistCycle.assets].
    rewrite <- (Permutation_length
                  (sort_perm AssetDownloader.by_playing_order _)).
    rewrite resolved_assets. apply existsb_filter. }
  rewrite Hcycles, !map_map. split; [reflexivity|].
  repeat split.
  apply map_ext. intros playlist.
  cbn [AssetDownloader.toPlaylistCycle PlaylistCycle.assets].
  rewrite <- (Permutation_length
                (sort_perm AssetDownloader.by_playing_order _)).
  apply resolved_assets.
Qed.

(** ** What the progress callback is told *)

Lemma told_app (a b : list event) : told (a ++ b) = (told a ++ told b)%list.
Proof.
  induction a as [|ev a IH]; [reflexivity|].
  destruct ev as [| | | | |[p|p]]; cbn; now rewrite IH.
Qed.

Section Told.
Context {P : Platform}.
Variable assetsDir : string.

Ltac read_told :=
  autorewrite with run_db; rewrite ?told_app;
  cbn [told app notes recorder List.map Run.trace ret].

Lemma try_told (asset : Asset.t) (attempt retries : nat) (w : world) :
  let run :=
    AssetDownloader.downloadAsset_try assetsDir asset attempt retries
      recorder w in
  told (Run.trace run)
  = tells_downloading asset
    :: match Run.result run with
       | Return r => [tells_outcome r]
       | Throw _ => []
       end.
Proof.
  cbv zeta. unfold AssetDownloader.downloadAsset_try.
  rewrite bind_console, bind_invoke.
  destruct (AssetDownloader.isStream asset).
  - rewrite bind_console.
    match goal with
    | |- context [bind (try_catch ?m ?h) ?k w] =>
        assert (Hprobe : exists w' tr,
                  try_catch m h w = Run.mk w' tr (Return tt) /\ told tr = [])
    end.
    { unfold try_catch, bind, call, always, console, emit, throw, ret.
      destruct (fetch (Asset.filepath asset) HEAD w) as [w' [response|e]];
        cbn [Run.result Run.trace Run.final];
        [destruct (Response.ok response);
         cbn [negb Run.result Run.trace Run.final]|];
        eexists; eexists; split; reflexivity. }
    destruct Hprobe as [w' [tr [Hp Ht]]].
    rewrite (bind_returns _ _ _ tt (f_equal Run.result Hp)), Hp.
    cbn [Run.trace Run.final]. rewrite bind_invoke.
    read_told. rewrite Ht. reflexivity.
  - cbv zeta. rewrite bind_call.
    destruct (fetch (Asset.filepath asset) GET w) as [w1 [response|e]];
      cbn [fst snd]; [|read_told; reflexivity].
    destruct (Response.ok response); cbn [negb];
      [|rewrite bind_throw; read_told; reflexivity].
    rewrite bind_ret, bind_of_outcome.
    destruct (AssetDownloader.generateSafeFilename asset) as [filename|e];
      [|read_told; reflexivity].
    rewrite bind_of_outcome.
    destruct (Response.arrayBuffer response) as [buffer|e];
      [|read_told; reflexivity].
    rewrite bind_call.
    destruct (fs_writeFileSync (path_join assetsDir filename) buffer w1)
      as [w2 [[]|e]];
      cbn [fst snd]; [|read_told; reflexivity].
    rewrite bind_console, bind_invoke. unfold always, on_return.
    read_told. reflexivity.
Qed.

Lemma retry_run_told (asset : Asset.t) (retries attempt : nat) (w w' : world)
    (tr : list event) (r : DownloadResult.t) :
  retry_run assetsDir asset retries recorder attempt w tr r w' ->
  (attempt <= retries)%nat ->
  exists attempts,
    (1 <= attempts)%nat /\ (attempt + attempts <= retries + 1)%nat
    /\ (DownloadResult.success r = false ->
        (attempt + attempts = retries + 1)%nat)
    /\ DownloadResult.asset r = asset
    /\ told tr
       = (List.repeat (tells_downloading asset) attempts
          ++ [tells_outcome r])%list.
Proof.
  induction 1 as [attempt w r run Hr | w e run Hr msg
                 | attempt w e tr r w' Hlt run Hr Hrest IH]; intros Hle.
  - exists 1%nat. pose proof (try_told asset attempt retries w) as Ht.
    cbv zeta in Ht. fold run in Ht. rewrite Hr in Ht.
    destruct (try_result assetsDir asset attempt retries recorder w r Hr)
      as [Ha Hs].
    split; [lia|]. split; [lia|]. split; [rewrite Hs; discriminate|].
    split; [exact Ha | exact Ht].
  - exists 1%nat. pose proof (try_told asset retries retries w) as Ht.
    cbv zeta in Ht. fold run in Ht. rewrite Hr in Ht.
    split; [lia|]. split; [lia|]. split; [lia|]. split; [reflexivity|].
    rewrite told_app, Ht. reflexivity.
  - destruct IH as [n [H1 [H2 [Hf [Ha Ht]]]]]; [lia|].
    exists (S n). pose proof (try_told asset attempt retries w) as Htry.
    cbv zeta in Htry. fold run in Htry. rewrite Hr in Htry.
    split; [lia|]. split; [lia|].
    split; [intros Hfail; specialize (Hf Hfail); lia|].
    split; [exact Ha|].
    rewrite told_app, Htry. cbn [told app]. rewrite Ht. reflexivity.
Qed.

End Told.

(** X25: what a progress callback hears of one call of [downloadAsset]
    with a retry bound of at least 1: [downloading] once for every attempt
    made, then the outcome, once and last, [completed] exactly when the
    result is a success and [failed] exactly when it is not.  Between one
    and [retries] attempts are made, and a failure is reported only when
    all of them were.  The counters of the records are 0 of 0, and 1 of 1
    on completion, whatever the place of the asset in its batch. *)
Theorem progress_ends_with_outcome {P : Platform}
    (assetsDir : string) (asset : Asset.t) (retries : nat) (w : world) :
  (1 <= retries)%nat ->
  let run := AssetDownloader.downloadAsset assetsDir asset retries recorder w in
  exists r attempts,
    Run.result run = Return r
    /\ DownloadResult.asset r = asset
    /\ (1 <= attempts <= retries)%nat
    /\ (DownloadResult.success r = false -> attempts = retries)
    /\ told (Run.trace run)
       = (List.repeat (DownloadProgress.mk 0 0 asset downloading) attempts
          ++ [if DownloadResult.success r
              then DownloadProgress.mk 1 1 asset completed
              else DownloadProgress.mk 0 0 asset failed])%list.
Proof.
  intros Hretries. cbv zeta. unfold AssetDownloader.downloadAsset.
  destruct (loop_retry_run assetsDir asset retries recorder retries 1 w)
    as [r [Heq Hrun]]; [lia | lia |].
  destruct (retry_run_told assetsDir asset retries 1 _ _ _ _ Hrun)
    as [n [H1 [H2 [Hf [Ha Ht]]]]]; [lia|].
  exists r, n. split; [now rewrite Heq|]. split; [exact Ha|].
  split; [lia|]. split; [intros Hfail; specialize (Hf Hfail); lia|].
  rewrite Ht. unfold tells_outcome, tells_downloading. now rewrite Ha.
Qed.

Lemma progress_ends_with_outcome_witness :
  let run :=
    @AssetDownloader.downloadAsset Scripted.platform "assets/main"
      welcome_image 3 recorder
      (Scripted.mk [Scripted.server_error; Scripted.file []] 0) in
  (1 <= 3)%nat
  /\ exists r attempts,
       Run.result run = Return r
       /\ DownloadResult.asset r = welcome_image
       /\ (1 <= attempts <= 3)%nat
       /\ (DownloadResult.success r = false -> attempts = 3%nat)
       /\ told (Run.trace run)
          = (List.repeat (DownloadProgress.mk 0 0 welcome_image downloading)
               attempts
             ++ [if DownloadResult.success r
                 then DownloadProgress.mk 1 1 welcome_image completed
                 else DownloadProgress.mk 0 0 welcome_image failed])%list.
Proof.
  cbv zeta.
  assert (H : (1 <= 3)%nat) by lia.
  split; [exact H|].
  exact (@progress_ends_with_outcome Scripted.platform "assets/main"
           welcome_image 3
           (Scripted.mk [Scripted.server_error; Scripted.file []] 0) H).
Defined.

(** A download that succeeds at the second attempt: [downloading] twice,
    then [completed]. *)
Example second_attempt_told :
  List.map DownloadProgress.status
    (told
       (Run.trace
          (@AssetDownloader.downloadAsset Scripted.platform "assets/main"
             welcome_image 3 recorder
             (Scripted.mk [Scripted.server_error; Scripted.file []] 0))))
  = [downloading; downloading; completed].
Proof. vm_compute. reflexivity. Qed.

(** ** The current asset *)

Section CurrentAsset.
Context {P : Platform}.

Lemma item_some {A} (l : list A) (i : number) (a : A) :
  Cycler.item l i = Some a -> In a l /\ l <> [].
Proof.
  unfold Cycler.item. destruct i as [|z]; [discriminate|].
  destruct (z <? 0); [discriminate|]. intros H.
  split; [eapply nth_error_In; exact H|].
  intros ->. now destruct (Z.to_nat z).
Qed.

Lemma item_nth {A} (l : list A) (k : nat) (a : A) :
  List.nth_error l k = Some a -> Cycler.item l (Num (Z.of_nat k)) = Some a.
Proof.
  intros H. unfold Cycler.item.
  assert (Hneg : (Z.of_nat k <? 0) = false) by (apply Z.ltb_ge; lia).
  now rewrite Hneg, Nat2Z.id.
Qed.

(** What a call does to the playlist, the index and the handler: nothing,
    or one presentation of the asset at the index it leaves. *)
Lemma call_shape (s s' : Cycler.t) :
  safe s -> cycler_call s s' ->
  (Cycler.currentPlaylist s' = Cycler.currentPlaylist s
   /\ Cycler.currentAssetIndex s' = Cycler.currentAssetIndex s
   /\ Cycler.changes s' = Cycler.changes s)
  \/ exists asset,
       Cycler.currentPlaylist s' = Cycler.currentPlaylist s
       /\ Cycler.item (Cycler.assets s') (Cycler.currentAssetIndex s')
          = Some asset
       /\ Cycler.changes s'
          = (Cycler.changes s ++ [(asset, WebviewAsset.displayTime asset)])%list.
Proof.
  intros Hs Hcall.
  destruct Hcall as [w s s' Hres | s | w assetId s found s' Hres
                    | w h s s' Hres].
  - destruct Hs as [[Ha Hp] | Hi].
    + destruct (startCycle_run s w) as [_ [Hempty _]]. cbv zeta in Hempty.
      rewrite Hempty in Hres by now rewrite Ha.
      injection Hres as <-. left. now repeat split.
    + destruct (start_result s w Hi) as [asset [Hitem [_ E]]].
      rewrite E in Hres. injection Hres as <-.
      destruct (in_cycler_window (Date_now w) (Cycler.currentPlaylist s)).
      * right. exists asset. split; [reflexivity|]. split; [exact Hitem|].
        reflexivity.
      * left. now repeat split.
  - left. destruct (stopCycle_playlist s) as [Hp [Hc Hi]]. now repeat split.
  - destruct (List.existsb
                (fun a => String.eqb (WebviewAsset.id a) assetId)
                (Cycler.assets s)) eqn:Hex.
    + apply existsb_exists in Hex as [asset [Hin Heq]].
      apply String.eqb_eq in Heq.
      destruct (skipToAsset_known assetId s w asset Hin Heq)
        as [k [target [Hnth [_ [_ Hrun]]]]].
      rewrite Hrun in Hres. cbn in Hres. injection Hres as _ <-.
      destruct (stopCycle_playlist s) as [Hp [Hc _]].
      right. exists target. split; [exact Hp|]. split.
      * change (Cycler.item
                  (PlaylistCycle.assets
                     (Cycler.currentPlaylist (Cycler.stopCycle s)))
                  (Num (Z.of_nat k)) = Some target).
        rewrite Hp. now apply item_nth.
      * cbn. now rewrite Hc.
    + rewrite (skipToAsset_unknown assetId s w (no_asset_unknown assetId s Hex))
        in Hres.
      cbn in Hres. injection Hres as _ <-. left. now repeat split.
  - unfold Cycler.fire in Hres.
    destruct (List.find _ (Cycler.pending s)) as [timer|] eqn:Hfind.
    2:{ cbn in Hres. injection Hres as <-. left. now repeat split. }
    destruct Hs as [[_ Hp] | [i [Hi Hlt]]].
    { rewrite Hp in Hfind. discriminate. }
    set (s0 := if Cycler.Timer.repeats timer then s else Cycler.clear h s)
      in *.
    assert (Hp0 : Cycler.currentPlaylist s0 = Cycler.currentPlaylist s)
      by (subst s0; now destruct (Cycler.Timer.repeats timer)).
    assert (Hi0 : Cycler.currentAssetIndex s0 = Num (Z.of_nat i))
      by (subst s0; now destruct (Cycler.Timer.repeats timer)).
    assert (Hc0 : Cycler.changes s0 = Cycler.changes s)
      by (subst s0; now destruct (Cycler.Timer.repeats timer)).
    assert (Hlt0 : (i < List.length (Cycler.assets s0))%nat)
      by (unfold Cycler.assets in *; now rewrite Hp0).
    destruct (Cycler.Timer.action timer).
    + destruct (nextAsset_run s0 i w Hi0 Hlt0) as [asset [Hnth E]].
      rewrite E in Hres. cbn in Hres. injection Hres as <-.
      right. exists asset. split; [exact Hp0|]. split.
      * change (Cycler.item (Cycler.assets s0)
                  (Num (Z.of_nat (S i mod List.length (Cycler.assets s0))))
                = Some asset).
        now apply item_nth.
      * cbn. now rewrite Hc0.
    + destruct (checkDate_run s0 w) as [E _]. rewrite E in Hres.
      injection Hres as <-.
      destruct (in_cycler_window (Date_now w) (Cycler.currentPlaylist s0)).
      * left. split; [exact Hp0|]. split; [now rewrite Hi0, Hi | exact Hc0].
      * destruct (stopCycle_playlist s0) as [Hp1 [Hc1 Hi1]].
        left. split; [congruence|]. split; congruence.
Qed.

Lemma history_last_change (playlist : PlaylistCycle.t) (s : Cycler.t) :
  cycler_history playlist s ->
  forall earlier asset remainingTime,
    Cycler.changes s = (earlier ++ [(asset, remainingTime)])%list ->
    Cycler.getCurrentAsset s = Some asset
    /\ remainingTime = WebviewAsset.displayTime asset
    /\ In asset (PlaylistCycle.assets playlist).
Proof.
  intros Hh. induction Hh as [|s s' Hh IH Hcall].
  - intros earlier asset t H. cbn in H. now destruct earlier.
  - destruct (history_safe playlist s Hh) as [Hs Hp].
    intros earlier asset t Hlast.
    destruct (call_shape s s' Hs Hcall) as [[Hp' [Hi' Hc']] | [a [Hp' [Hitem Hc']]]].
    + rewrite Hc' in Hlast. destruct (IH earlier asset t Hlast) as [Hcur Hrest].
      split; [|exact Hrest].
      unfold Cycler.getCurrentAsset, Cycler.assets in *. now rewrite Hp', Hi'.
    + rewrite Hc' in Hlast. apply app_inj_tail in Hlast as [_ Hlast].
      injection Hlast as <- <-.
      destruct (item_some _ _ _ Hitem) as [Hin Hne].
      split.
      * unfold Cycler.getCurrentAsset. rewrite Hitem.
        destruct (Cycler.assets s'); [contradiction | reflexivity].
      * split; [reflexivity|]. unfold Cycler.assets in Hin.
        now rewrite Hp', Hp in Hin.
Qed.

End CurrentAsset.

(** X26: [getCurrentAsset] answers what the handler was last told.
    Whatever calls of [startCycle], [stopCycle], [skipToAsset] and timer
    firings a cycler has seen, in any order: once the handler has been
    called, the asset of its last call is the asset that [getCurrentAsset]
    returns, it is an asset of the playlist, and the time passed with it was
    its full display time. *)
Theorem current_asset_is_last_shown {P : Platform}
    (playlist : PlaylistCycle.t) (s : Cycler.t)
    (earlier : list (WebviewAsset.t * number)) (asset : WebviewAsset.t)
    (remainingTime : number) :
  cycler_history playlist s ->
  Cycler.changes s = (earlier ++ [(asset, remainingTime)])%list ->
  Cycler.getCurrentAsset s = Some asset
  /\ remainingTime = WebviewAsset.displayTime asset
  /\ In asset (PlaylistCycle.assets playlist).
Proof.
  intros Hh Hlast.
  exact (history_last_change playlist s Hh earlier asset remainingTime Hlast).
Qed.

Lemma current_asset_is_last_shown_witness :
  let promo :=
    WebviewAsset.mk "a2" "Promo" "video" (Num 1) (Num 10)
      (Some "assets/main/a2_promo.mp4") false
      "https://cdn.example.com/promo.mp4" in
  (@cycler_history Scripted.platform lobby_cycle lobby_running
   /\ Cycler.changes lobby_running = ([] ++ [(promo, Num 10)])%list)
  /\ Cycler.getCurrentAsset lobby_running = Some promo
  /\ Num 10 = WebviewAsset.displayTime promo
  /\ In promo (PlaylistCycle.assets lobby_cycle).
Proof.
  cbv zeta. split; [split; [exact lobby_running_history | reflexivity]|].
  exact (@current_asset_is_last_shown Scripted.platform lobby_cycle
           lobby_running [] _ _ lobby_running_history eq_refl).
Defined.

(** ** Sorting by start date *)

Lemma filter_none {A} (f : A -> bool) (l : list A) :
  (forall z, In z l -> f z = false) -> List.filter f l = [].
Proof.
  induction l as [|a l IH]; intros H; [reflexivity|]. cbn.
  rewrite (H a (or_introl eq_refl)). apply IH. intros z Hz. apply H. now right.
Qed.

Section SortedBy.
Context {A : Type}.
Variable compare : A -> A -> number.
Variable le : A -> A -> Prop.
Variable ok : A -> Prop.
Hypothesis le_trans :
  forall x y z, ok x -> ok y -> ok z -> le x y -> le y z -> le x z.
Hypothesis before_le :
  forall x y, ok x -> ok y -> precedes compare x y = true -> le x y.
Hypothesis not_before_le :
  forall x y, ok x -> ok y -> precedes compare x y = false -> le y x.

Lemma insert_sorted_by (x : A) (l : list A) :
  ok x -> Forall ok l ->
  StronglySorted le l -> StronglySorted le (insert compare x l).
Proof.
  intros Hx Hok Hs. induction Hs as [|y l Hs IH Hy]; simpl.
  - constructor; constructor.
  - inversion Hok as [|? ? Hoy Hol]; subst.
    destruct (precedes compare x y) eqn:Hp.
    + constructor. { now constructor. }
      pose proof (before_le x y Hx Hoy Hp) as Hxy.
      constructor; [exact Hxy|].
      rewrite Forall_forall in *. intros z Hz.
      apply (le_trans x y z); auto.
    + constructor.
      * now apply IH.
      * rewrite <- insert_perm. constructor; [|exact Hy].
        now apply not_before_le.
Qed.

Lemma fold_insert_sorted_by (l acc : list A) :
  Forall ok l -> Forall ok acc -> StronglySorted le acc ->
  StronglySorted le
    (List.fold_left (fun acc x => insert compare x acc) l acc).
Proof.
  revert acc; induction l as [|x l IH]; intros acc Hl Ha Hs; simpl.
  - exact Hs.
  - inversion Hl as [|? ? Hx Hl']; subst. apply IH; [exact Hl' | |].
    + rewrite <- insert_perm. now constructor.
    + now apply insert_sorted_by.
Qed.

Lemma sort_sorted_by (l : list A) :
  Forall ok l -> StronglySorted le (sort compare l).
Proof.
  intros H. apply fold_insert_sorted_by; [exact H | constructor | constructor].
Qed.

(** A class of elements that sorting keeps in order: nothing of the class
    stands at or behind an element that a member precedes. *)
Variable class : A -> bool.
Hypothesis class_gap :
  forall x y z, ok x -> ok y -> ok z -> class x = true ->
                precedes compare x y = true -> (z = y \/ le y z) ->
                class z = false.

Lemma insert_keeps_order (x : A) (l : list A) :
  ok x -> Forall ok l -> StronglySorted le l ->
  List.filter class (insert compare x l)
  = (List.filter class l ++ List.filter class [x])%list.
Proof.
  intros Hx Hok Hs. induction Hs as [|y l Hs IH Hy]; simpl.
  - reflexivity.
  - inversion Hok as [|? ? Hoy Hol]; subst.
    destruct (precedes compare x y) eqn:Hp.
    + simpl. destruct (class x) eqn:Hcx; [|now rewrite app_nil_r].
      rewrite (class_gap x y y Hx Hoy Hoy Hcx Hp (or_introl eq_refl)).
      assert (Hl0 : List.filter class l = []).
      { apply filter_none. rewrite Forall_forall in Hy, Hol. intros z Hz.
        exact (class_gap x y z Hx Hoy (Hol z Hz) Hcx Hp
                 (or_intror (Hy z Hz))). }
      rewrite Hl0. reflexivity.
    + simpl. rewrite IH by assumption. simpl.
      destruct (class y); reflexivity.
Qed.

Lemma fold_insert_keeps_order (l acc : list A) :
  Forall ok l -> Forall ok acc -> StronglySorted le acc ->
  List.filter class
    (List.fold_left (fun acc x => insert compare x acc) l acc)
  = (List.filter class acc ++ List.filter class l)%list.
Proof.
  revert acc; induction l as [|x l IH]; intros acc Hl Ha Hs; simpl.
  - now rewrite app_nil_r.
  - inversion Hl as [|? ? Hx Hl']; subst.
    rewrite IH; [| exact Hl' | rewrite <- insert_perm; now constructor
                 | now apply insert_sorted_by].
    rewrite insert_keeps_order by assumption. simpl.
    rewrite <- app_assoc. f_equal. destruct (class x); reflexivity.
Qed.

Lemma sort_keeps_order (l : list A) :
  Forall ok l ->
  List.filter class (sort compare l) = List.filter class l.
Proof.
  intros H.
  apply (fold_insert_keeps_order l []); [exact H | constructor | constructor].
Qed.

End SortedBy.

Section ByStartDate.
Context {P : Platform} {T : Type}.
Variable startDate : T -> option string.

Lemma by_start_date_cases (a b : T) :
  valid_start startDate a -> valid_start startDate b ->
  (precedes (by_start_date startDate) a b = true ->
   truthy_opt (startDate a) = true
   /\ (truthy_opt (startDate b) = false
       \/ exists x y, date_time (startDate a) = Num x
                      /\ date_time (startDate b) = Num y
                      /\ truthy_opt (startDate b) = true /\ x < y))
  /\ (precedes (by_start_date startDate) a b = false ->
      truthy_opt (startDate a) = false
      \/ exists x y, date_time (startDate a) = Num x
                     /\ date_time (startDate b) = Num y
                     /\ truthy_opt (startDate a) = true
                     /\ truthy_opt (startDate b) = true /\ y <= x).
Proof.
  unfold valid_start, precedes, by_start_date. intros Ha Hb.
  destruct (truthy_opt (startDate a)) eqn:Hta,
           (truthy_opt (startDate b)) eqn:Htb; cbn [negb andb].
  - destruct (Ha eq_refl) as [x Hx], (Hb eq_refl) as [y Hy].
    rewrite Hx, Hy. cbn. split; intros H.
    + apply Z.ltb_lt in H. split; [reflexivity|]. right. exists x, y.
      repeat split; lia.
    + apply Z.ltb_ge in H. right. exists x, y. repeat split; lia.
  - cbn. split; [intros _; split; [reflexivity | now left] | discriminate].
  - cbn. split; [discriminate | intros _; now left].
  - cbn. split; [discriminate | intros _; now left].
Qed.

Lemma starts_no_later_trans (x y z : T) :
  valid_start startDate x -> valid_start startDate y ->
  valid_start startDate z ->
  starts_no_later startDate x y -> starts_no_later startDate y z ->
  starts_no_later startDate x z.
Proof.
  unfold valid_start, starts_no_later. intros Hx Hy Hz.
  destruct (truthy_opt (startDate x)), (truthy_opt (startDate y)),
           (truthy_opt (startDate z)); try tauto.
  destruct (Hx eq_refl) as [a ->], (Hy eq_refl) as [b ->],
           (Hz eq_refl) as [c ->]. lia.
Qed.

Lemma before_starts_no_later (x y : T) :
  valid_start startDate x -> valid_start startDate y ->
  precedes (by_start_date startDate) x y = true ->
  starts_no_later startDate x y.
Proof.
  intros Hx Hy Hp. destruct (by_start_date_cases x y Hx Hy) as [H _].
  destruct (H Hp) as [Hta [Htb | [a [b [Ha [Hb [Htb Hlt]]]]]]];
    unfold starts_no_later; rewrite Hta, Htb; [exact I|].
  rewrite Ha, Hb. lia.
Qed.

Lemma not_before_starts_no_later (x y : T) :
  valid_start startDate x -> valid_start startDate y ->
  precedes (by_start_date startDate) x y = false ->
  starts_no_later startDate y x.
Proof.
  intros Hx Hy Hp. destruct (by_start_date_cases x y Hx Hy) as [_ H].
  destruct (H Hp) as [Hta | [a [b [Ha [Hb [Hta [Htb Hle]]]]]]];
    unfold starts_no_later.
  - rewrite Hta. now destruct (truthy_opt (startDate y)).
  - rewrite Hta, Htb, Ha, Hb. exact Hle.
Qed.

Lemma starts_at_gap (t : Z) (x y z : T) :
  valid_start startDate x -> valid_start startDate y ->
  valid_start startDate z ->
  starts_at startDate t x = true ->
  precedes (by_start_date startDate) x y = true ->
  (z = y \/ starts_no_later startDate y z) ->
  starts_at startDate t z = false.
Proof.
  intros Hx Hy Hz Hc Hp Hyz.
  destruct (by_start_date_cases x y Hx Hy) as [H _].
  unfold starts_at in *. apply andb_prop in Hc as [_ Hc].
  destruct (truthy_opt (startDate z)) eqn:Htz; [|reflexivity]. cbn [andb].
  destruct (Hz Htz) as [c Hzc]. rewrite Hzc. cbn.
  destruct (H Hp) as [Hta [Htb | [a [b [Ha [Hb [Htb Hlt]]]]]]].
  - destruct Hyz as [-> | Hle]; [congruence|].
    unfold starts_no_later in Hle. rewrite Htb, Htz in Hle. contradiction.
  - rewrite Ha in Hc. cbn in Hc. apply Z.eqb_eq in Hc. subst a.
    apply Z.eqb_neq. destruct Hyz as [-> | Hle].
    + rewrite Hb in Hzc. injection Hzc as <-. lia.
    + unfold starts_no_later in Hle. rewrite Htb, Htz, Hb, Hzc in Hle. lia.
Qed.

Lemma undated_gap (x y z : T) :
  valid_start startDate x -> valid_start startDate y ->
  valid_start startDate z ->
  undated startDate x = true ->
  precedes (by_start_date startDate) x y = true ->
  (z = y \/ starts_no_later startDate y z) ->
  undated startDate z = false.
Proof.
  intros Hx Hy Hz Hc Hp _.
  destruct (by_start_date_cases x y Hx Hy) as [H _].
  destruct (H Hp) as [Hta _]. unfold undated in Hc. rewrite Hta in Hc.
  discriminate.
Qed.

End ByStartDate.

(** X27: [sortPlaylistsByStartDate] loses and adds nothing.  When every
    start date that is set names an instant, the result is in order:
    earliest start first, the playlists without a start date behind all
    the others; and the sort is stable, playlists that start at the same
    instant keep their order, and so do those without a start date. *)
Theorem sorted_by_start_date {P : Platform} {T : Type}
    (startDate : T -> option string) (playlists : list T) :
  let sorted := sortPlaylistsByStartDate startDate playlists in
  Permutation playlists sorted
  /\ (Forall (valid_start startDate) playlists ->
      StronglySorted (starts_no_later startDate) sorted
      /\ (forall t,
            List.filter (starts_at startDate t) sorted
            = List.filter (starts_at startDate t) playlists)
      /\ List.filter (undated startDate) sorted
         = List.filter (undated startDate) playlists).
Proof.
  cbv zeta. unfold sortPlaylistsByStartDate. split; [apply sort_perm|].
  intros Hvalid. split; [|split].
  - apply (sort_sorted_by (by_start_date startDate)
             (starts_no_later startDate) (valid_start startDate)).
    + apply starts_no_later_trans.
    + apply before_starts_no_later.
    + apply not_before_starts_no_later.
    + exact Hvalid.
  - intros t.
    apply (sort_keeps_order (by_start_date startDate)
             (starts_no_later startDate) (valid_start startDate)).
    + apply starts_no_later_trans.
    + apply before_starts_no_later.
    + apply not_before_starts_no_later.
    + apply starts_at_gap.
    + exact Hvalid.
  - apply (sort_keeps_order (by_start_date startDate)
             (starts_no_later startDate) (valid_start startDate)).
    + apply starts_no_later_trans.
    + apply before_starts_no_later.
    + apply not_before_starts_no_later.
    + apply undated_gap.
    + exact Hvalid.
Qed.

(** Three playlists: one without a date, one for the second of January,
    one for the first. *)
Example sorted_by_start_date_sample :
  @sortPlaylistsByStartDate Scripted.platform _ snd
    [ ("always", None);
      ("second", Some "2025-01-02T00:00:00.000Z");
      ("first", Some "2025-01-01T00:00:00.000Z") ]
  = [ ("first", Some "2025-01-01T00:00:00.000Z");
      ("second", Some "2025-01-02T00:00:00.000Z");
      ("always", None) ].
Proof. vm_compute. reflexivity. Qed.

(** ** The two window checks, side by side *)

(** X28: the window check of [dateUtils] and the private check of the
    cycler, read at the same instant for the same playlist, both return,
    and they differ at one instant only: whenever the first says active so
    does the second, and when the second says active and the first does
    not, the end date is set and names exactly the instant of the call. *)
Theorem window_checks_differ_only_at_end {P : Platform}
    (playlist : PlaylistCycle.t) (w : world) :
  exists helper scheduler,
    Run.result
      (dateUtils.isPlaylistActive (PlaylistCycle.startDate playlist)
         (PlaylistCycle.endDate playlist) w) = Return helper
    /\ Run.result (AssetCycler.isPlaylistActive playlist w) = Return scheduler
    /\ (helper = true -> scheduler = true)
    /\ (scheduler = true -> helper = false ->
        truthy_opt (PlaylistCycle.endDate playlist) = true
        /\ date_time (PlaylistCycle.endDate playlist) = Num (Date_now w))
    /\ (truthy_opt (PlaylistCycle.endDate playlist) = true ->
        date_time (PlaylistCycle.endDate playlist) = Num (Date_now w) ->
        helper = false).
Proof.
  destruct (cycler_isPlaylistActive_run playlist w) as [Hc _].
  cbv zeta in Hc.
  exists (cycle_active (Date_now w) playlist),
         (in_cycler_window (Date_now w) playlist).
  split; [now rewrite dateUtils_isPlaylistActive_run|].
  split; [exact Hc|].
  split; [apply window_inside_cycler_window|].
  unfold cycle_active, in_window, in_cycler_window, ended_by, ended_before,
    Number.gt, Number.le, Number.lt.
  destruct (starts_after (Date_now w) (PlaylistCycle.startDate playlist));
    cbn [negb andb].
  { split; [discriminate|]. reflexivity. }
  destruct (truthy_opt (PlaylistCycle.endDate playlist)); cbn [andb negb].
  2:{ split; discriminate. }
  destruct (date_time (PlaylistCycle.endDate playlist)) as [|t].
  { split; discriminate. }
  split.
  - intros H1 H2. apply negb_true_iff, Z.ltb_ge in H1.
    apply negb_false_iff, Z.leb_le in H2.
    split; [reflexivity|]. f_equal. lia.
  - intros _ E. injection E as ->. apply negb_false_iff, Z.leb_le. lia.
Qed.

(** ** The stage that failed *)

Section FailedStage.
Context {P : Platform}.
Variable this : DigitalSignageInitializer.t.
Variable onProgress : callback InitProgress.t.

Lemma bind_throw_inv {A B} (m : M A) (k : A -> M B) (w : world) (e : thrown) :
  Run.result (bind m k w) = Throw e ->
  Run.result (m w) = Throw e
  \/ exists a, Run.result (m w) = Return a
               /\ Run.result (k a (Run.final (m w))) = Throw e.
Proof.
  unfold bind. destruct (Run.result (m w)) as [a|e'] eqn:E; cbn.
  - intros H. right. now exists a.
  - intros H. left. injection H as ->. reflexivity.
Qed.

Lemma clearAssetsDirectory_throws (w : world) (e : thrown) :
  Run.result (DigitalSignageInitializer.clearAssetsDirectory this onProgress w)
  = Throw e ->
  let dir := DigitalSignageInitializer.assetsDir this in
  (fs_existsSync dir w = false /\ snd (fs_mkdirSync dir w) = Throw e)
  \/ (fs_existsSync dir w = true /\ snd (clear_directory dir w) = Throw e).
Proof.
  unfold DigitalSignageInitializer.clearAssetsDirectory,
    DigitalSignageInitializer.notify.
  rewrite bind_invoke, prepend_result, bind_read, prepend_result. cbv zeta.
  destruct (fs_existsSync (DigitalSignageInitializer.assetsDir this) w);
    cbn [negb].
  - unfold call, silent.
    destruct (clear_directory (DigitalSignageInitializer.assetsDir this) w)
      as [w' [[]|e']]; cbn; [discriminate|].
    intros H. right. split; [reflexivity | exact H].
  - rewrite bind_call.
    destruct (fs_mkdirSync (DigitalSignageInitializer.assetsDir this) w)
      as [w' [[]|e']]; cbn; [discriminate|].
    intros H. left. split; [reflexivity | exact H].
Qed.

Lemma fetchApiData_throws (w : world) (e : thrown) :
  Run.result (DigitalSignageInitializer.fetchApiData this onProgress w)
  = Throw e ->
  exists cause,
    Run.result (getData (DigitalSignageInitializer.apiURL this) w)
    = Throw cause
    /\ e = Error ("API fetch failed: " ++ message_or "Unknown API error" cause).
Proof.
  unfold DigitalSignageInitializer.fetchApiData,
    DigitalSignageInitializer.notify.
  rewrite bind_invoke, prepend_result.
  match goal with
  | |- context [try_catch ?m ?h w] =>
      destruct (try_cases m h w) as [[a [Hbody Htry]] | [cause [Hbody Htry]]]
  end.
  - rewrite Htry. discriminate.
  - rewrite Htry, bind_console. cbn. intros H. injection H as <-.
    apply bind_throw_inv in Hbody as [Hg | [data [_ Hrest]]].
    + exists cause. split; [exact Hg | reflexivity].
    + rewrite bind_invoke, prepend_result, bind_console in Hrest.
      discriminate.
Qed.

Lemma downloadAndProcessAssets_throws (apiResponse : ApiResponse.t)
    (w : world) (e : thrown) :
  Run.result
    (DigitalSignageInitializer.downloadAndProcessAssets this apiResponse
       onProgress w) = Throw e ->
  exists cause,
    e = Error ("Asset download failed: "
               ++ message_or "Unknown download error" cause)
    /\ ((fs_existsSync main_directory w = false
         /\ snd (fs_mkdirSync main_directory w) = Throw cause)
        \/ exists data w',
             snd (fs_writeFileSync manifest_path data w') = Throw cause).
Proof.
  unfold DigitalSignageInitializer.downloadAndProcessAssets,
    DigitalSignageInitializer.notify.
  rewrite bind_invoke, prepend_result.
  match goal with
  | |- context [try_catch ?m ?h w] =>
      destruct (try_cases m h w) as [[a [Hbody Htry]] | [cause [Hbody Htry]]]
  end.
  - rewrite Htry. discriminate.
  - rewrite Htry, bind_console. cbn. intros H. injection H as <-.
    exists cause. split; [reflexivity|].
    cbv zeta in Hbody.
    apply bind_throw_inv in Hbody as [Hd | [processed [_ Hrest]]].
    + match type of Hd with
      | Run.result (downloadAssets _ ?cb _) = _ =>
          pose proof (downloadAssets_run cb apiResponse w) as Hrun
      end.
      cbv zeta in Hrun. rewrite Hd in Hrun. exact Hrun.
    + rewrite bind_invoke, prepend_result, bind_console in Hrest.
      discriminate.
Qed.

Lemma initialize_failure (w : world) (result : InitializationResult.t) :
  Run.result (DigitalSignageInitializer.initialize this onProgress w)
  = Return result ->
  InitializationResult.success result = false ->
  exists message,
    result = InitializationResult.failure message
    /\ ((DigitalSignageInitializer.clearAssetsOnStart this = true
         /\ exists cause,
              message = message_or "Unknown initialization error" cause
              /\ let dir := DigitalSignageInitializer.assetsDir this in
                 (fs_existsSync dir w = false
                  /\ snd (fs_mkdirSync dir w) = Throw cause)
                 \/ (fs_existsSync dir w = true
                     /\ snd (clear_directory dir w) = Throw cause))
        \/ (exists cause w',
              Run.result (getData (DigitalSignageInitializer.apiURL this) w')
              = Throw cause
              /\ message
                 = "API fetch failed: " ++ message_or "Unknown API error" cause)
        \/ (exists cause,
              message
              = "Asset download failed: "
                ++ message_or "Unknown download error" cause
              /\ exists w',
                   (fs_existsSync main_directory w' = false
                    /\ snd (fs_mkdirSync main_directory w') = Throw cause)
                   \/ exists data,
                        snd (fs_writeFileSync manifest_path data w')
                        = Throw cause)).
Proof.
  intros Hres Hfail.
  destruct (initialize_result this onProgress w)
    as [r [Hr [[m Hm] | [Hs _]]]];
    rewrite Hr in Hres; injection Hres as <-; [|congruence].
  clear Hfail. unfold DigitalSignageInitializer.initialize in Hr.
  match type of Hr with
  | context [try_catch ?m ?h w] =>
      destruct (try_cases m h w) as [[a [Hbody Htry]] | [e [Hbody Htry]]]
  end.
  { (* the stages all returned: the result is a success *)
    rewrite Htry in Hr. injection Hr as ->.
    rewrite bind_console, prepend_result in Hbody.
    apply bind_inv in Hbody as [[] [_ Hbody]].
    apply bind_inv in Hbody as [deviceName [_ Hbody]].
    apply bind_inv in Hbody as [apiResponse [_ Hbody]].
    apply bind_inv in Hbody as [processed [_ Hbody]].
    apply bind_inv in Hbody as [result [Hfinal Hbody]].
    unfold DigitalSignageInitializer.notify in Hbody.
    rewrite bind_invoke, prepend_result, bind_console in Hbody.
    cbn in Hbody. injection Hbody as Hbody.
    apply prepareFinalResult_result in Hfinal as [stats [_ [_ ->]]].
    rewrite Hm in Hbody. discriminate. }
  rewrite Htry in Hr.
  rewrite bind_console, prepend_result in Hr.
  unfold DigitalSignageInitializer.notify in Hr.
  rewrite bind_invoke in Hr. cbn in Hr. injection Hr as Hr.
  exists (message_or "Unknown initialization error" e).
  split; [congruence|]. clear Hr Hm Htry.
  rewrite bind_console, prepend_result in Hbody.
  apply bind_throw_inv in Hbody as [H1 | [[] [_ Hbody]]].
  { left. destruct (DigitalSignageInitializer.clearAssetsOnStart this);
      [|discriminate].
    split; [reflexivity|]. exists e. split; [reflexivity|].
    now apply clearAssetsDirectory_throws. }
  apply bind_throw_inv in Hbody as [H2 | [deviceName [_ Hbody]]].
  { destruct (getDeviceInformation_run onProgress
                (Run.final
                   ((if DigitalSignageInitializer.clearAssetsOnStart this
                     then DigitalSignageInitializer.clearAssetsDirectory this
                            onProgress
                     else ret tt) w))) as [E _].
    cbv zeta in E. rewrite E in H2. discriminate. }
  apply bind_throw_inv in Hbody as [H3 | [apiResponse [_ Hbody]]].
  { right. left. apply fetchApiData_throws in H3 as [cause [Hg ->]].
    exists cause. eexists. split; [exact Hg | reflexivity]. }
  apply bind_throw_inv in Hbody as [H4 | [processed [_ Hbody]]].
  { right. right.
    apply downloadAndProcessAssets_throws in H4 as [cause [-> Hcause]].
    exists cause. split; [reflexivity|].
    destruct Hcause as [Hdir | [data [w' Hw]]].
    - eexists. left. exact Hdir.
    - exists w'. right. now exists data. }
  apply bind_throw_inv in Hbody as [H5 | [result [_ Hbody]]].
  { unfold DigitalSignageInitializer.prepareFinalResult in H5.
    cbv zeta in H5.
    rewrite bind_read, prepend_result, bind_console in H5. discriminate. }
  unfold DigitalSignageInitializer.notify in Hbody.
  rewrite bind_invoke, prepend_result, bind_console in Hbody. discriminate.
Qed.

End FailedStage.

(** X29: a failure of [initialize] names the stage that failed and the
    message of its cause.  The message is that of the error of the file
    system when the configured directory could not be made or swept (which
    happens only when clearing is on); or [API fetch failed: ] and the
    message of the error that [getData] threw; or [Asset download failed: ]
    and the message of the error of the file system that made
    [downloadAssets] fail.  The device name stage and the final stage are
    never the cause. *)
Theorem failure_names_the_stage {P : Platform}
    (this : DigitalSignageInitializer.t)
    (onProgress : callback InitProgress.t) (w : world)
    (result : InitializationResult.t) :
  Run.result (DigitalSignageInitializer.initialize this onProgress w)
  = Return result ->
  InitializationResult.success result = false ->
  exists message,
    result = InitializationResult.failure message
    /\ ((DigitalSignageInitializer.clearAssetsOnStart this = true
         /\ exists cause,
              message = message_or "Unknown initialization error" cause
              /\ let dir := DigitalSignageInitializer.assetsDir this in
                 (fs_existsSync dir w = false
                  /\ snd (fs_mkdirSync dir w) = Throw cause)
                 \/ (fs_existsSync dir w = true
                     /\ snd (clear_directory dir w) = Throw cause))
        \/ (exists cause w',
              Run.result (getData (DigitalSignageInitializer.apiURL this) w')
              = Throw cause
              /\ message
                 = "API fetch failed: " ++ message_or "Unknown API error" cause)
        \/ (exists cause,
              message
              = "Asset download failed: "
                ++ message_or "Unknown download error" cause
              /\ exists w',
                   (fs_existsSync main_directory w' = false
                    /\ snd (fs_mkdirSync main_directory w') = Throw cause)
                   \/ exists data,
                        snd (fs_writeFileSync manifest_path data w')
                        = Throw cause)).
Proof. exact (initialize_failure this onProgress w result). Qed.

Lemma failure_names_the_stage_witness :
  let w := Scripted.mk [Scripted.server_error] 0 in
  let this := @initializer_of Scripted.platform signage_config w in
  let result :=
    InitializationResult.failure
      "API fetch failed: HTTP error! status: 500 - Internal Server Error" in
  (Run.result
     (@DigitalSignageInitializer.initialize Scripted.platform this None w)
   = Return result
   /\ InitializationResult.success result = false)
  /\ exists message,
       result = InitializationResult.failure message
       /\ ((DigitalSignageInitializer.clearAssetsOnStart this = true
            /\ exists cause,
                 message = message_or "Unknown initialization error" cause
                 /\ let dir := DigitalSignageInitializer.assetsDir this in
                    (@fs_existsSync Scripted.platform dir w = false
                     /\ snd (@fs_mkdirSync Scripted.platform dir w)
                        = Throw cause)
                    \/ (@fs_existsSync Scripted.platform dir w = true
                        /\ snd (@clear_directory Scripted.platform dir w)
                           = Throw cause))
           \/ (exists cause w',
                 Run.result
                   (@getData Scripted.platform
                      (DigitalSignageInitializer.apiURL this) w')
                 = Throw cause
                 /\ message
                    = "API fetch failed: "
                      ++ message_or "Unknown API error" cause)
           \/ (exists cause,
                 message
                 = "Asset download failed: "
                   ++ message_or "Unknown download error" cause
                 /\ exists w',
                      (@fs_existsSync Scripted.platform main_directory w'
                       = false
                       /\ snd (@fs_mkdirSync Scripted.platform main_directory w')
                          = Throw cause)
                      \/ exists data,
                           snd (@fs_writeFileSync Scripted.platform
                                  (@manifest_path Scripted.platform) data w')
                           = Throw cause)).
Proof.
  cbv zeta.
  assert (H : Run.result
                (@DigitalSignageInitializer.initialize Scripted.platform
                   (@initializer_of Scripted.platform signage_config
                      (Scripted.mk [Scripted.server_error] 0))
                   None (Scripted.mk [Scripted.server_error] 0))
              = Return
                  (InitializationResult.failure
                     "API fetch failed: HTTP error! status: 500 - Internal Server Error"))
    by (vm_compute; reflexivity).
  split; [split; [exact H | reflexivity]|].
  exact (@failure_names_the_stage Scripted.platform _ None _ _ H eq_refl).
Defined.
